(** * Hyperopt coordination engine (freqtrade/optimize/hyperopt.py)

    A shallow embedding of the functions of [Hyperopt] that decide how
    candidate points are asked, how results are filtered, scored and
    saved, and how the epoch budget evolves.

    Conventions.
    - Python [int] is [Z]; a Python [float] is the rational [Q] it
      stands for, compared with [Qeq_bool] and [Qle_bool] (Python [==],
      [<=] on numbers). Float arithmetic rounds to the nearest double
      ([round_double]); a number that may be an [int] or a [float] is a
      [number].
    - A result dictionary ([v] in the source) is the record [Trial].
    - The surrogate model of scikit-optimize is a black box: its hidden
      state is a type variable and [ask], [tell], [update_next] are
      section variables. *)

From Stdlib Require Import ZArith QArith Qround Lia Lqa.
From stdpp Require Import base option list gmap strings.

Local Open Scope Z_scope.

(** ** Numbers *)

(** [VOID_LOSS = iinfo(int32).max] *)
Definition VOID_LOSS : Z := 2147483647.

Definition VOID : Q := inject_Z VOID_LOSS.

(** Python [x < y] on numbers. *)
Definition Qltb (x y : Q) : bool := negb (Qle_bool y x).

(** Python [max(l)] on a non-empty list [y :: ys]: the first greatest
    element. *)
Definition py_max (y : Q) (ys : list Q) : Q :=
  fold_left (fun m x => if Qltb m x then x else m) ys y.

(** ** Candidate points and result dictionaries *)

(** One coordinate of a candidate point, as produced by an [Integer], a
    [Real] or a [Categorical] dimension. *)
Inductive value :=
  | VInt (n : Z)
  | VReal (x : Q)
  | VCat (c : string).

Global Instance Q_eq_dec : EqDecision Q.
Proof. solve_decision. Defined.

Global Instance value_eq_dec : EqDecision value.
Proof. solve_decision. Defined.

Global Instance Q_countable : Countable Q.
Proof.
  refine (inj_countable' (fun q => (Qnum q, Qden q))
                         (fun p => Qmake (fst p) (snd p)) _).
  intros [n d]. reflexivity.
Defined.

Global Instance value_countable : Countable value.
Proof.
  refine (inj_countable'
            (fun v => match v with
                      | VInt n => inl n
                      | VReal x => inr (inl x)
                      | VCat c => inr (inr c)
                      end)
            (fun s => match s with
                      | inl n => VInt n
                      | inr (inl x) => VReal x
                      | inr (inr c) => VCat c
                      end) _).
  intros [n|x|c]; reflexivity.
Defined.

(** A candidate point: a tuple of values in search-space order. *)
Definition Point := list value.

(** A Python [dict], in insertion order: assigning to an existing key
    keeps its position and replaces its value. *)
Module PyDict.

Section Ops.

Context {K : Type} `{EqDecision K} {A : Type}.

Definition t := list (K * A).

Fixpoint set (k : K) (a : A) (d : t) : t :=
  match d with
  | [] => [(k, a)]
  | (k', a') :: d' =>
      if decide (k = k') then (k, a) :: d' else (k', a') :: set k a d'
  end.

Fixpoint get (k : K) (d : t) : option A :=
  match d with
  | [] => None
  | (k', a') :: d' => if decide (k = k') then Some a' else get k d'
  end.

Definition keys (d : t) : list K := map fst d.

Definition values (d : t) : list A := map snd d.

(** [{k: v for k, v in items}], also [d.update(items)] from [d]. *)
Definition update (items : list (K * A)) (d : t) : t :=
  fold_left (fun d kv => set (fst kv) (snd kv) d) items d.

Definition of_items (items : list (K * A)) : t := update items [].

End Ops.

Arguments t : clear implicits.

End PyDict.

(** The result dictionary built by [_get_results_dict] and completed by
    [parallel_objective] / [opt_results] ([is_initial_point],
    [random_state]) and by [log_results] ([is_best], [current_epoch]).
    The metrics and the explanation string are carried along untouched. *)
Record Trial := {
  loss : Q;
  params_dict : PyDict.t string value;
  total_profit : Q;
  is_initial_point : bool;
  random_state : Z;
  is_best : bool;
  current_epoch : Z;
}.

Definition set_loss (l : Q) (v : Trial) : Trial :=
  {| loss := l; params_dict := params_dict v; total_profit := total_profit v;
     is_initial_point := is_initial_point v; random_state := random_state v;
     is_best := is_best v; current_epoch := current_epoch v |}.

Definition set_scored (b : bool) (e : Z) (v : Trial) : Trial :=
  {| loss := loss v; params_dict := params_dict v; total_profit := total_profit v;
     is_initial_point := is_initial_point v; random_state := random_state v;
     is_best := b; current_epoch := e |}.

(** [params_Xi(v) = list(v["params_dict"].values())] *)
Definition params_Xi (v : Trial) : Point := PyDict.values (params_dict v).

(** ** The optimizer object, as far as Hyperopt reads and writes it *)

(** [opt.void] is [False] or [-1]. *)
Inductive void_flag := VoidFalse | VoidFailed.

(** Only the attributes Hyperopt itself reads or writes are kept; the
    fitted models ([opt.models]) and the random generator ([opt.rng]) stay
    inside the black box. *)
Record Optimizer := {
  Xi : list Point;
  yi : list Q;
  void_loss : Q;
  void : void_flag;
  rs : Z;
}.

Definition set_void_loss (l : Q) (o : Optimizer) : Optimizer :=
  {| Xi := Xi o; yi := yi o; void_loss := l;
     void := void o; rs := rs o |}.

(** [opt_clear]: [del opt.models[:], opt.Xi[:], opt.yi[:]] *)
Definition opt_clear (o : Optimizer) : Optimizer :=
  {| Xi := []; yi := []; void_loss := void_loss o;
     void := void o; rs := rs o |}.

(** ** VOID filtering *)

Definition is_void (v : Trial) : bool := Qeq_bool (loss v) VOID.

(** [vals[k]["loss"] = opt.void_loss] for every [k] with a VOID loss. *)
Definition default_void (l : Q) (v : Trial) : Trial :=
  if is_void v then set_loss l v else v.

(** [filter_void_losses(vals, opt)]: the returned list and the optimizer
    after the call. [max(opt.yi)] is only reached with a non-empty
    [opt.yi]. *)
Definition filter_void_losses (vals : list Trial) (opt : Optimizer)
  : list Trial * Optimizer :=
  match Qeq_bool (void_loss opt) VOID, yi opt with
  | true, [] => (List.filter (fun v => negb (is_void v)) vals, opt)
  | true, y :: ys =>
      let opt' := set_void_loss (py_max y ys) opt in
      (map (default_void (void_loss opt')) vals, opt')
  | false, _ => (map (default_void (void_loss opt)) vals, opt)
  end.

Definition set_yi (y : list Q) (o : Optimizer) : Optimizer :=
  {| Xi := Xi o; yi := y; void_loss := void_loss o; void := void o; rs := rs o |}.


(** ** Run budget *)

(** [int(x)] on a float: truncation toward zero. *)
Definition py_int (x : Q) : Z := Z.quot (Qnum x) (Z.pos (Qden x)).

(** [sum(l)] on integers. *)
Definition py_sum (l : list Z) : Z := fold_left Z.add l 0.

(** *** Floats

    [a / b], for positive integers, rounded to the nearest double, ties
    to even: 53 significant bits, the exponent of the last bit bounded
    below by -1074 (the subnormal numbers). It is not bounded above
    here: [is_finite] tells whether a rounded value is a double. *)
Definition round_double_pos (a b : Z) : Q :=
  let d := Z.log2 a - Z.log2 b in
  let above := if 0 <=? d then b * 2 ^ d <=? a else b <=? a * 2 ^ (- d) in
  let e := Z.max ((if above then d else d - 1) - 52) (-1074) in
  let num := if 0 <=? e then a else a * 2 ^ (- e) in
  let den := if 0 <=? e then b * 2 ^ e else b in
  let m := num / den in
  let r := num mod den in
  let m := if den <? 2 * r then m + 1
           else if (den =? 2 * r) && Z.odd m then m + 1
           else m in
  if 0 <=? e then inject_Z (m * 2 ^ e)
  else Qmake m (Z.to_pos (2 ^ (- e))).

(** The double nearest to [x]. *)
Definition round_double (x : Q) : Q :=
  match Qnum x with
  | 0 => 0%Q
  | Z.pos p => round_double_pos (Z.pos p) (Z.pos (Qden x))
  | Z.neg p => Qopp (round_double_pos (Z.pos p) (Z.pos (Qden x)))
  end.

(** Below [2 ^ 1024] in absolute value: where a rounded value is not,
    Python has [inf], or raises [OverflowError] when the value is an
    [int] to convert. *)
Definition is_finite (x : Q) : bool :=
  Qltb (Qmake (Z.abs (Qnum x)) (Qden x)) (inject_Z (2 ^ 1024)).

(** A number of Python: an [int], or a [float] given by a rational that
    it is the nearest double to ([PyFloat (6 # 5)] is [1.2]). *)
Inductive number :=
  | PyInt (n : Z)
  | PyFloat (x : Q).

Coercion PyInt : Z >-> number.

(** The value of a number. *)
Definition num_value (a : number) : Q :=
  match a with
  | PyInt n => inject_Z n
  | PyFloat x => round_double x
  end.

Coercion num_value : number >-> Q.

(** [float(a)] *)
Definition to_float (a : number) : Q :=
  match a with
  | PyInt n => round_double (inject_Z n)
  | PyFloat x => round_double x
  end.

(** [a * b] and [a - b]: exact on two [int]s; otherwise the operation on
    the two floats, rounded. *)
Definition py_mul (a b : number) : number :=
  match a, b with
  | PyInt m, PyInt n => PyInt (m * n)
  | _, _ => PyFloat (to_float a * to_float b)
  end.

Definition py_sub (a b : number) : number :=
  match a, b with
  | PyInt m, PyInt n => PyInt (m - n)
  | _, _ => PyFloat (to_float a - to_float b)
  end.

(** Whether [int(a op b)], with the result [r] of the operation, raises
    [OverflowError]: an [int] operand too large for a float, or an
    infinite result. Two [int]s never do. *)
Definition overflows (a b r : number) : bool :=
  match a, b with
  | PyInt _, PyInt _ => false
  | _, _ => negb (is_finite (to_float a) && is_finite (to_float b)
                  && is_finite (num_value r))
  end.

(** [int(a)] *)
Definition int_of (a : number) : Z := py_int (num_value a).

(** [max(1, effort)]: the first argument, the [int] 1, unless the
    second is strictly greater. *)
Definition max_1 (effort : number) : number :=
  if Qltb 1 effort then effort else PyInt 1.

(** The attributes of [Hyperopt] that hold the adaptive stopping state.
    [effort] is an [int] or a [float], as the configuration gives it. *)
Record Budget := {
  effort : number;
  total_epochs : Z;
  max_epoch : Z;
  max_epoch_reached : bool;
  min_epochs : Z;
  search_space_size : Z;
  current_best_loss : Q;
  current_best_epoch : Z;
  epochs_since_last_best : list Z;
  avg_best_occurrence : Z;
}.

(** [self.epochs_limit = lambda: self.total_epochs or self.max_epoch] *)
Definition epochs_limit (b : Budget) : Z :=
  if total_epochs b =? 0 then max_epoch b else total_epochs b.

(** The state of [__init__] for a given effort and epochs setting. *)
Definition init_budget (eff : number) (epochs_cfg : Z) : Budget :=
  {| effort := eff; total_epochs := epochs_cfg; max_epoch := 0;
     max_epoch_reached := false; min_epochs := 0; search_space_size := 0;
     current_best_loss := VOID; current_best_epoch := 0;
     epochs_since_last_best := []; avg_best_occurrence := 0 |}.

Definition set_current_best_loss (l : Q) (b : Budget) : Budget :=
  {| effort := effort b; total_epochs := total_epochs b; max_epoch := max_epoch b;
     max_epoch_reached := max_epoch_reached b; min_epochs := min_epochs b;
     search_space_size := search_space_size b;
     current_best_loss := l; current_best_epoch := current_best_epoch b;
     epochs_since_last_best := epochs_since_last_best b;
     avg_best_occurrence := avg_best_occurrence b |}.

Definition set_max_epoch_reached (r : bool) (b : Budget) : Budget :=
  {| effort := effort b; total_epochs := total_epochs b; max_epoch := max_epoch b;
     max_epoch_reached := r; min_epochs := min_epochs b;
     search_space_size := search_space_size b;
     current_best_loss := current_best_loss b;
     current_best_epoch := current_best_epoch b;
     epochs_since_last_best := epochs_since_last_best b;
     avg_best_occurrence := avg_best_occurrence b |}.

(** The four assignments of [update_max_epoch]. *)
Definition set_occurrence (since : list Z) (avg best_epoch ceiling : Z) (b : Budget)
  : Budget :=
  {| effort := effort b; total_epochs := total_epochs b; max_epoch := ceiling;
     max_epoch_reached := max_epoch_reached b; min_epochs := min_epochs b;
     search_space_size := search_space_size b;
     current_best_loss := current_best_loss b;
     current_best_epoch := best_epoch;
     epochs_since_last_best := since;
     avg_best_occurrence := avg |}.

(** [update_max_epoch(val, current)]. The product is exact when
    [max(1, effort)] is an [int] and a rounded float product when it is
    a [float]. Where it leaves the floats, [int()] raises
    [OverflowError] after the three assignments before it and
    [max_epoch] keeps its value; the exception itself is not followed
    into [log_results]. *)
Definition update_max_epoch (val : Trial) (current : Z) (b : Budget) : Budget :=
  if is_initial_point val then b
  else
    let since := epochs_since_last_best b ++ [current - current_best_epoch b] in
    let avg := py_sum since / Z.of_nat (length since) in
    let sum := PyInt (current + avg + min_epochs b) in
    let product := py_mul sum (max_1 (effort b)) in
    if overflows sum (max_1 (effort b)) product then
      set_occurrence since avg current (max_epoch b) b
    else
      let ceiling := int_of product in
      let ceiling :=
        if ceiling >? search_space_size b then search_space_size b else ceiling in
      set_occurrence since avg current ceiling b.


(** [is_best_loss(results, current_best_loss)] *)
Definition is_best_loss (results : Trial) (best : Q) : bool :=
  Qltb (loss results) best.

(** One turn of the [for i, v in enumerate(batch_results, 1)] loop of
    [log_results]: the budget and [self.trials] after it. *)
Definition score_one (frame_start : Z) (i : Z) (v : Trial)
    (st : Budget * list Trial) : Budget * list Trial :=
  let '(b, ts) := st in
  let best := is_best_loss v (current_best_loss b) in
  let current := frame_start + i in
  let v := set_scored best current v in
  let b := if best
           then update_max_epoch v current (set_current_best_loss (loss v) b)
           else b in
  (b, ts ++ [v]).

(** The whole loop, [i] counting from [i0 + 1]. *)
Fixpoint score_batch (frame_start : Z) (i0 : Z) (batch : list Trial)
    (st : Budget * list Trial) : Budget * list Trial :=
  match batch with
  | [] => st
  | v :: batch' =>
      score_batch frame_start (i0 + 1) batch' (score_one frame_start (i0 + 1) v st)
  end.

(** ** The Hyperopt object, the backend globals and the files *)

(** What [load] may find in the optimizers file: an [Optimizer] or an
    object of another type. *)
Inductive pickled :=
  | POpt (o : Optimizer)
  | PForeign.

Inductive exn :=
  | ValueError
  | KeyError
  | IndexError
  | AttributeError
  | OverflowError
  | OperationalException.

(** [backend.results_shared]: a dictionary whose tuple keys map an
    evaluated point to [(y, counter)] and whose integer keys map the
    random state of an optimizer to the [(Xi, yi)] found in this batch. *)
Record SharedTable := {
  points : gmap Point (Q * Z);
  per_opt : gmap Z (list Point * list Q);
}.

Record Hyperopt := {
  budget : Budget;
  trials : list Trial;
  epochs : list Trial;
  num_epochs_saved : Z;
  n_jobs : Z;
  multi : bool;
  shared : bool;
  hyperopt_continue_filtered : bool;
  self_random_state : Z;
  opt : option Optimizer;
  self_Xi : PyDict.t Z (list Point);
  self_yi : PyDict.t Z (list Q);
  (** the [rngs] captured by [opt_empty_tuple] *)
  rngs : list Z;
  (** [backend.optimizers], a queue *)
  optimizers : list Optimizer;
  results_shared : SharedTable;
  (** the two pickle files; [None] when the file does not exist *)
  results_file : option (list Trial);
  opts_file : option (list pickled);
}.

Definition set_scoring (b : Budget) (ts : list Trial) (h : Hyperopt) : Hyperopt :=
  {| budget := b; trials := ts; epochs := epochs h;
     num_epochs_saved := num_epochs_saved h; n_jobs := n_jobs h; multi := multi h;
     shared := shared h;
     hyperopt_continue_filtered := hyperopt_continue_filtered h;
     self_random_state := self_random_state h; opt := opt h;
     self_Xi := self_Xi h; self_yi := self_yi h; rngs := rngs h;
     optimizers := optimizers h; results_shared := results_shared h;
     results_file := results_file h; opts_file := opts_file h |}.

Definition set_saved (n : Z) (f : option (list Trial)) (h : Hyperopt) : Hyperopt :=
  {| budget := budget h; trials := trials h; epochs := epochs h;
     num_epochs_saved := n; n_jobs := n_jobs h; multi := multi h;
     shared := shared h;
     hyperopt_continue_filtered := hyperopt_continue_filtered h;
     self_random_state := self_random_state h; opt := opt h;
     self_Xi := self_Xi h; self_yi := self_yi h; rngs := rngs h;
     optimizers := optimizers h; results_shared := results_shared h;
     results_file := f; opts_file := opts_file h |}.

Definition set_opts (o : option Optimizer) (q : list Optimizer)
    (f : option (list pickled)) (h : Hyperopt) : Hyperopt :=
  {| budget := budget h; trials := trials h; epochs := epochs h;
     num_epochs_saved := num_epochs_saved h; n_jobs := n_jobs h; multi := multi h;
     shared := shared h;
     hyperopt_continue_filtered := hyperopt_continue_filtered h;
     self_random_state := self_random_state h; opt := o;
     self_Xi := self_Xi h; self_yi := self_yi h; rngs := rngs h;
     optimizers := q; results_shared := results_shared h;
     results_file := results_file h; opts_file := f |}.

Definition set_tracking (X : PyDict.t Z (list Point)) (y : PyDict.t Z (list Q))
    (r : list Z) (t : SharedTable) (h : Hyperopt) : Hyperopt :=
  {| budget := budget h; trials := trials h; epochs := epochs h;
     num_epochs_saved := num_epochs_saved h; n_jobs := n_jobs h; multi := multi h;
     shared := shared h;
     hyperopt_continue_filtered := hyperopt_continue_filtered h;
     self_random_state := self_random_state h; opt := opt h;
     self_Xi := X; self_yi := y; rngs := r;
     optimizers := optimizers h; results_shared := t;
     results_file := results_file h; opts_file := opts_file h |}.

(** Methods run on the object and either return or raise. *)
Definition M (A : Type) : Type := Hyperopt -> Hyperopt * (exn + A).

Global Instance M_ret : MRet M := fun A a h => (h, inr a).

Global Instance M_bind : MBind M := fun A B f m h =>
  match m h with
  | (h', inl e) => (h', inl e)
  | (h', inr a) => f a h'
  end.

Definition raise {A} (e : exn) : M A := fun h => (h, inl e).

Definition get : M Hyperopt := fun h => (h, inr h).

Definition modify (f : Hyperopt -> Hyperopt) : M unit := fun h => (f h, inr tt).

(** [for x in l: body(x)] *)
Fixpoint for_each {A} (l : list A) (body : A -> M unit) : M unit :=
  match l with
  | [] => mret tt
  | x :: l' => body x ;; for_each l' body
  end.

(** [opt_rand(opt, seed=False)]: a copy made by [opt.copy], which tells
    the known points to the new object, with [void_loss], [void] and [rs]
    carried over. *)
Definition opt_rand_noseed (o : Optimizer) : Optimizer :=
  {| Xi := Xi o; yi := yi o; void_loss := void_loss o; void := void o; rs := rs o |}.

(** [save_opts] *)
Definition save_opts : M unit :=
  h ← get;
  if multi h then
    let opts := map opt_clear (optimizers h) in
    modify (set_opts (opt h) opts (Some (map POpt opts)))
  else
    match opt h with
    | None => raise AttributeError
    | Some o => modify (set_opts (Some (opt_rand_noseed o)) (optimizers h)
                                 (Some [POpt (opt_clear o)]))
    end.

(** [_save_results] *)
Definition _save_results : M unit :=
  h ← get;
  let num_epochs := Z.of_nat (length (epochs h)) in
  if num_epochs >? num_epochs_saved h then
    modify (set_saved num_epochs (Some (epochs h))) ;;
    save_opts
  else mret tt.

(** The body of the loop of [track_points]: [self.Xi[rs].append(...)],
    [self.yi[rs].append(...)]; a missing key raises [KeyError], which the
    [except IndexError] clause does not catch. *)
Definition track_one (v : Trial) : M unit :=
  h ← get;
  let r := random_state v in
  match PyDict.get r (self_Xi h) with
  | None => raise KeyError
  | Some X =>
      let X' := PyDict.set r (X ++ [params_Xi v]) (self_Xi h) in
      modify (set_tracking X' (self_yi h) (rngs h) (results_shared h)) ;;
      match PyDict.get r (self_yi h) with
      | None => raise KeyError
      | Some y =>
          modify (set_tracking X' (PyDict.set r (y ++ [loss v]) (self_yi h))
                               (rngs h) (results_shared h))
      end
  end.

(** [track_points(trials)]; the empty list also stands for [None]. *)
Definition track_points (arg : list Trial) : M unit :=
  h ← get;
  match arg with
  | [] =>
      if 0 <? Z.of_nat (length (trials h)) then
        if hyperopt_continue_filtered h then raise ValueError
        else for_each (trials h) track_one
      else mret tt
  | _ => for_each arg track_one
  end.

(** [self.opt_empty_tuple()]: [{rs: ((), ()) for rs in rngs}], merged
    into a table with [update]. *)
Definition update_empty_tuple (r : list Z) (t : SharedTable) : SharedTable :=
  {| points := points t;
     per_opt := fold_left (fun m k => <[k := ([], [])]> m) r (per_opt t) |}.

(** [log_results(batch_results, frame_start, total_epochs)]; the result
    is the returned [i]. *)
Definition log_results (batch_results : list Trial) (frame_start : Z) : M Z :=
  h ← get;
  let i := Z.of_nat (length batch_results) in
  let current := if batch_results is [] then frame_start + 1 else frame_start + i in
  let '(b, ts) := score_batch frame_start 0 batch_results (budget h, trials h) in
  modify (set_scoring b ts) ;;
  _save_results ;;
  (if multi h then
     h ← get;
     track_points (drop (Z.to_nat frame_start) (trials h)) ;;
     modify (fun h => set_tracking (self_Xi h) (self_yi h) (rngs h)
                        (update_empty_tuple (rngs h) (results_shared h)) h)
   else mret tt) ;;
  h ← get;
  (if current + 1 >? epochs_limit (budget h)
   then modify (fun h => set_scoring (set_max_epoch_reached true (budget h))
                                     (trials h) h)
   else mret tt) ;;
  mret i.

(** The batches of [main_loop], one call of [log_results] each, with
    [epochs_so_far += saved] in between; an exception ends the run. *)
Fixpoint run_batches (epochs_so_far : Z) (batches : list (list Trial)) : M Z :=
  match batches with
  | [] => mret epochs_so_far
  | batch :: rest =>
      saved ← log_results batch epochs_so_far;
      run_batches (epochs_so_far + saved) rest
  end.

(** ** Asking and telling in single-optimizer mode *)

(** What ends one turn of the loop of [opt_ask_and_tell]. *)
Inductive turn :=
  | Yield (a : Point)
  | Break
  | Raise (e : exn).

Section AskAndTell.

(** The hidden state of the scikit-optimize object and its methods:
    [opt.ask(strategy=...)], [opt.ask(n_points=..., strategy=...)],
    [opt.tell(X, y, fit=...)] and [opt.update_next()]. *)
Context {SK : Type}.
Variable sk_ask : SK -> Point * SK.
Variable sk_ask_n : Z -> SK -> list Point * SK.
Variable sk_tell : list Point -> list Q -> bool -> SK -> SK.
Variable sk_update_next : SK -> SK.

(** [self.ask_points]: [None] or the number of points per ask. *)
Variable ask_points : option Z.

(** The locals [to_ask] and [evald] of the generator, the optimizer and
    [self.batch_results]. The local [vals] is empty between turns. *)
Record AskState := {
  a_opt : Optimizer;
  a_sk : SK;
  to_ask : list Point;
  evald : gset Point;
  batch_results : list Trial;
}.

(** [opt.tell(X, y, fit=fit)] extends [opt.Xi] and [opt.yi]. *)
Definition tell (X : list Point) (y : list Q) (fit : bool) (s : AskState)
  : AskState :=
  {| a_opt := {| Xi := Xi (a_opt s) ++ X; yi := yi (a_opt s) ++ y;
                 void_loss := void_loss (a_opt s); void := void (a_opt s);
                 rs := rs (a_opt s) |};
     a_sk := sk_tell X y fit (a_sk s);
     to_ask := to_ask s; evald := evald s; batch_results := batch_results s |}.

(** The [if vals:] block, with [vals] holding what
    [backend.results_list] had collected. *)
Definition tell_results (vals : list Trial) (s : AskState) : AskState :=
  let fit := bool_decide (length (to_ask s) < 1)%nat in
  match vals with
  | [] => s
  | _ =>
      let '(void_filtered, o) := filter_void_losses vals (a_opt s) in
      let s := {| a_opt := o; a_sk := a_sk s; to_ask := to_ask s;
                  evald := evald s; batch_results := batch_results s |} in
      match void_filtered with
      | [] => s
      | _ =>
          let s := tell (map params_Xi void_filtered) (map loss void_filtered) fit s in
          {| a_opt := a_opt s; a_sk := a_sk s; to_ask := to_ask s;
             evald := evald s;
             batch_results := batch_results s ++ void_filtered |}
      end
  end.

(** [point()]; [popleft] on an empty deque raises [IndexError]. *)
Definition point (s : AskState) : (exn + Point) * AskState :=
  match ask_points with
  | Some n =>
      let s :=
        match to_ask s with
        | [] =>
            let '(asked, sk) := sk_ask_n n (a_sk s) in
            {| a_opt := a_opt s; a_sk := sk; to_ask := asked;
               evald := evald s; batch_results := batch_results s |}
        | _ => s
        end in
      match to_ask s with
      | [] => (inl IndexError, s)
      | a :: rest =>
          (inr a, {| a_opt := a_opt s; a_sk := a_sk s; to_ask := rest;
                     evald := evald s; batch_results := batch_results s |})
      end
  | None =>
      let '(a, sk) := sk_ask (a_sk s) in
      (inr a, {| a_opt := a_opt s; a_sk := sk; to_ask := to_ask s;
                 evald := evald s; batch_results := batch_results s |})
  end.

Definition update_next (s : AskState) : AskState :=
  {| a_opt := a_opt s; a_sk := sk_update_next (a_sk s); to_ask := to_ask s;
     evald := evald s; batch_results := batch_results s |}.

Definition evald_add (a : Point) (s : AskState) : AskState :=
  {| a_opt := a_opt s; a_sk := a_sk s; to_ask := to_ask s;
     evald := {[a]} ∪ evald s; batch_results := batch_results s |}.

(** One turn of [for r in range(tries)], [vals] being the results that
    arrived since the previous turn. *)
Definition ask_turn (vals : list Trial) (s : AskState) : turn * AskState :=
  let s := tell_results vals s in
  match point s with
  | (inl e, s) => (Raise e, s)
  | (inr a, s) =>
      if decide (a ∈ evald s) then
        let s := update_next s in
        match point s with
        | (inl e, s) => (Raise e, s)
        | (inr a, s) =>
            if decide (a ∈ evald s) then (Break, s)
            else (Yield a, evald_add a s)
        end
      else (Yield a, evald_add a s)
  end.

(** The generator run to its end: the points it yields and its last
    state. [arrivals r] is what the workers have put in
    [backend.results_list] when turn [r] starts. *)
Fixpoint ask_loop (tries : nat) (r : nat) (arrivals : nat -> list Trial)
    (s : AskState) : list Point * AskState :=
  match tries with
  | O => ([], s)
  | S tries' =>
      match ask_turn (arrivals r) s with
      | (Yield a, s) =>
          let '(rest, s) := ask_loop tries' (S r) arrivals s in
          (a :: rest, s)
      | (_, s) => ([], s)
      end
  end.

(** [opt_ask_and_tell(jobs, tries)]: a new generator, with its own
    [to_ask] and [evald], on [self.opt] and [self.batch_results]. *)
Definition opt_ask_and_tell (tries : nat) (arrivals : nat -> list Trial)
    (o : Optimizer) (sk : SK) (results : list Trial) : list Point * AskState :=
  ask_loop tries 0 arrivals
    {| a_opt := o; a_sk := sk; to_ask := []; evald := ∅;
       batch_results := results |}.

(** Consecutive batches of [main_loop] in single-optimizer mode: one
    generator per batch ([run_backtest_parallel]), [return_results]
    emptying [self.batch_results] after each. *)
Fixpoint ask_batches (batches : list (nat * (nat -> list Trial)))
    (o : Optimizer) (sk : SK) : list (list Point) * Optimizer :=
  match batches with
  | [] => ([], o)
  | (tries, arrivals) :: rest =>
      let '(asked, s) := opt_ask_and_tell tries arrivals o sk [] in
      let '(others, o') := ask_batches rest (a_opt s) (a_sk s) in
      (asked :: others, o')
  end.

End AskAndTell.

(** ** The table shared by the workers in multi-optimizer mode *)

(** [len(results_shared)] *)
Definition table_len (t : SharedTable) : Z :=
  Z.of_nat (size (points t)) + Z.of_nat (size (per_opt t)).

(** The body of [for a in asked] in [opt_get_past_points]; [old] is
    [asked[a]] before the turn. *)
Definition get_past_point (a : Point) (old : option Q) (t : SharedTable)
  : option Q * SharedTable :=
  match points t !! a with
  | Some (y, counter) =>
      let counter := counter - 1 in
      (Some y,
       if counter <? 1
       then {| points := delete a (points t); per_opt := per_opt t |}
       else t)
  | None => (old, t)
  end.

(** [opt_get_past_points(is_shared, asked, results_shared)]; [asked] is a
    dictionary from points to [None] or a loss, in insertion order. *)
Fixpoint opt_get_past_points_loop (asked : list (Point * option Q)) (t : SharedTable)
  : list (Point * option Q) * SharedTable :=
  match asked with
  | [] => ([], t)
  | (a, old) :: rest =>
      let '(y, t) := get_past_point a old t in
      let '(rest, t) := opt_get_past_points_loop rest t in
      ((a, y) :: rest, t)
  end.

Definition opt_get_past_points (is_shared : bool) (asked : list (Point * option Q))
    (t : SharedTable) : (list (Point * option Q) * Z) * SharedTable :=
  let '(asked, t) := opt_get_past_points_loop asked t in
  ((asked, table_len t), t).

(** The globals of [hyperopt_backend] a worker of multi-optimizer mode
    receives: the optimizers queue, the shared table, the batch queue. *)
Record Backend := {
  b_optimizers : list Optimizer;
  b_results_shared : SharedTable;
  b_results_batch : list (list Trial);
}.

Definition set_worker (r : Z) (initial : bool) (v : Trial) : Trial :=
  {| loss := loss v; params_dict := params_dict v; total_profit := total_profit v;
     is_initial_point := initial; random_state := r;
     is_best := is_best v; current_epoch := current_epoch v |}.

(** [for n, v in enumerate(void_filtered)]: [is_initial_point] and
    [random_state] of each result. *)
Fixpoint flag_initial (initial_points : Z) (r : Z) (n : Z) (l : list Trial)
  : list Trial :=
  match l with
  | [] => []
  | v :: l' =>
      set_worker r (0 <? initial_points - n) v
        :: flag_initial initial_points r (n + 1) l'
  end.

(** [opt_results(opt, void_filtered, jobs, is_shared, results_shared,
    results_batch, optimizers)]; [initial_points] is
    [opt._n_initial_points]. *)
Definition opt_results (o : Optimizer) (initial_points : Z) (void_filtered : list Trial)
    (jobs : Z) (is_shared : bool) (b : Backend) : option exn * Backend :=
  let void :=
    negb (negb (Qeq_bool (void_loss o) VOID)
          || bool_decide (0 < length void_filtered)%nat) in
  let queue :=
    if is_shared then b_optimizers b else b_optimizers b ++ [opt_clear o] in
  let r := rs o in
  if void then
    (None, {| b_optimizers := queue; b_results_shared := b_results_shared b;
              b_results_batch := b_results_batch b |})
  else
    let pts :=
      fold_left (fun m v => <[params_Xi v := (loss v, jobs - 1)]> m)
                void_filtered (points (b_results_shared b)) in
    match per_opt (b_results_shared b) !! r with
    | None =>
        (Some KeyError,
         {| b_optimizers := queue;
            b_results_shared := {| points := pts;
                                   per_opt := per_opt (b_results_shared b) |};
            b_results_batch := b_results_batch b |})
    | Some (X, y) =>
        let found := (X ++ map params_Xi void_filtered,
                      y ++ map loss void_filtered) in
        (None,
         {| b_optimizers := queue;
            b_results_shared :=
              {| points := pts;
                 per_opt := <[r := found]> (per_opt (b_results_shared b)) |};
            b_results_batch :=
              b_results_batch b ++ [flag_initial initial_points r 0 void_filtered] |})
    end.

(** ** Setting up the optimizers *)

Definition queue_put (o : Optimizer) (h : Hyperopt) : Hyperopt :=
  set_opts (opt h) (optimizers h ++ [o]) (opts_file h) h.

(** A new optimizer with the attributes [setup_optimizers] gives it. *)
Definition new_optimizer (r : Z) : Optimizer :=
  {| Xi := []; yi := []; void_loss := VOID; void := VoidFalse; rs := r |}.

(** [load_previous_optimizers(opts_file)]: an absent or empty file gives
    no optimizer; a last element that is not an [Optimizer] is refused. *)
Definition load_previous_optimizers : M (list pickled) :=
  h ← get;
  let opts := default [] (opts_file h) in
  match last opts with
  | Some PForeign => raise OperationalException
  | _ => mret opts
  end.

(** [for n in range(n_opts)]: [rngs.append(opts[n].rs)], then the
    cleared optimizer goes to the queue. *)
Fixpoint put_restored (opts : list pickled) (r : list Z) : M (list Z) :=
  match opts with
  | [] => mret r
  | POpt o :: rest =>
      modify (queue_put (opt_clear o)) ;; put_restored rest (r ++ [rs o])
  | PForeign :: _ => raise AttributeError
  end.

(** The comprehension
    [{tuple(X): [yi[r][n], counter] for r in Xi for n, X in enumerate(Xi[r])}],
    one optimizer at a time. *)
Fixpoint results_of_points (X : list Point) (y : list Q) (n : nat) (counter : Z)
    (acc : gmap Point (Q * Z)) : exn + gmap Point (Q * Z) :=
  match X with
  | [] => inr acc
  | p :: X' =>
      match y !! n with
      | None => inl IndexError
      | Some l => results_of_points X' y (S n) counter (<[p := (l, counter)]> acc)
      end
  end.

Fixpoint results_of (Xs : PyDict.t Z (list Point)) (ys : PyDict.t Z (list Q))
    (counter : Z) (acc : gmap Point (Q * Z)) : exn + gmap Point (Q * Z) :=
  match Xs with
  | [] => inr acc
  | (r, X) :: Xs' =>
      match X, PyDict.get r ys with
      | [], _ => results_of Xs' ys counter acc
      | _, None => inl KeyError
      | _, Some y =>
          match results_of_points X y 0 counter acc with
          | inl e => inl e
          | inr acc => results_of Xs' ys counter acc
          end
      end
  end.

Section Setup.

(** [opt.rng.randint(0, iinfo(int32).max)]: the successive draws from
    the generator of the optimizer built by [get_optimizer]. *)
Variable randint : nat -> Z.

(** [for _ in range(remaining)]: a copy per draw, put in the queue. *)
Fixpoint put_fresh (remaining : nat) (k : nat) (r : list Z) : M (list Z) :=
  match remaining with
  | O => mret r
  | S remaining' =>
      modify (queue_put (new_optimizer (randint k))) ;;
      put_fresh remaining' (S k) (r ++ [randint k])
  end.

Definition setup_optimizers_multi (opts : list pickled) : M unit :=
  h ← get;
  let n_opts := Z.of_nat (length opts) in
  let max_opts := if shared h then 1 else n_jobs h in
  r ← (if n_opts =? max_opts then put_restored opts [] else mret []);
  h ← get;
  let remaining := max_opts - Z.of_nat (length (optimizers h)) in
  r ← (if 0 <? remaining then put_fresh (Z.to_nat remaining) 0 [] else mret r);
  let counter := n_jobs h in
  let empty_dict {A} : list (Z * list A) := map (fun k => (k, [])) r in
  modify (fun h => set_tracking (PyDict.update empty_dict (self_Xi h))
                                (PyDict.update empty_dict (self_yi h))
                                r (results_shared h) h) ;;
  track_points [] ;;
  h ← get;
  match results_of (self_Xi h) (self_yi h) counter ∅ with
  | inl e => raise e
  | inr results =>
      modify (set_tracking (self_Xi h) (self_yi h) r
                (update_empty_tuple r {| points := results; per_opt := ∅ |}))
  end.

Definition setup_optimizers_single (opts : list pickled) : M unit :=
  h ← get;
  let r := self_random_state h in
  let o := match last opts with
           | Some (POpt o) => o
           | _ => new_optimizer r
           end in
  modify (set_opts (Some (opt_clear o)) (optimizers h) (opts_file h)) ;;
  modify (fun h => set_tracking (PyDict.set r [] (self_Xi h)) (self_yi h)
                                (rngs h) (results_shared h) h) ;;
  track_points [] ;;
  h ← get;
  match PyDict.get r (self_Xi h) with
  | None => raise KeyError
  | Some [] => mret tt
  | Some X =>
      match PyDict.get r (self_yi h) with
      | None => raise KeyError
      | Some y =>
          let o := opt_clear o in
          modify (set_opts (Some {| Xi := Xi o ++ X; yi := yi o ++ y;
                                    void_loss := void_loss o; void := void o;
                                    rs := rs o |})
                           (optimizers h) (opts_file h))
      end
  end ;;
  modify (fun h => set_tracking [] [] (rngs h) (results_shared h) h).

(** [setup_optimizers] *)
Definition setup_optimizers : M unit :=
  opts ← load_previous_optimizers;
  h ← get;
  if multi h then setup_optimizers_multi opts
  else setup_optimizers_single opts.

End Setup.

(** ** The search space *)

(** The dimensions of scikit-optimize. [bounds] of a [Categorical] is
    its tuple of categories. *)
Inductive Dimension :=
  | Integer (name : string) (low high : Z)
  | Real (name : string) (low high : number)
  | Categorical (name : string) (categories : list value).

Definition dim_name (d : Dimension) : string :=
  match d with
  | Integer n _ _ | Real n _ _ | Categorical n _ => n
  end.

(** [_get_params_dict(raw_params)] on [self.dimensions] *)
Definition _get_params_dict (dimensions : list Dimension) (raw_params : list value)
  : exn + PyDict.t string value :=
  if decide (length raw_params ≠ length dimensions) then inl ValueError
  else inr (PyDict.of_items (zip (map dim_name dimensions) raw_params)).

(** [n!] as an integer. *)
Fixpoint factorial (n : nat) : Z :=
  match n with
  | O => 1
  | S n' => Z.of_nat n * factorial n'
  end.

(** [math.factorial]: [ValueError] on a negative argument. *)
Definition py_factorial (n : Z) : exn + Z :=
  if n <? 0 then inl ValueError
  else inr (factorial (Z.to_nat n)).

(** [a / b] on positive integers: the double nearest to the quotient,
    ties to even, as a rational; [OverflowError] (here [None]) when that
    is not below [2 ^ 1024]. The significand has 53 bits. *)
Definition true_div (a b : Z) : option Q :=
  let d := Z.log2 a - Z.log2 b in
  let above := if 0 <=? d then b * 2 ^ d <=? a else b <=? a * 2 ^ (- d) in
  let e := (if above then d else d - 1) - 52 in
  let num := if 0 <=? e then a else a * 2 ^ (- e) in
  let den := if 0 <=? e then b * 2 ^ e else b in
  let m := num / den in
  let r := num mod den in
  let m := if den <? 2 * r then m + 1
           else if (den =? 2 * r) && Z.odd m then m + 1
           else m in
  let x := if 0 <=? e then inject_Z (m * 2 ^ e)
           else Qmake m (Z.to_pos (2 ^ (- e))) in
  if Qle_bool (inject_Z (2 ^ 1024)) x then None else Some x.

(** The number of entries a dimension adds to [n_parameters]. The
    bounds of a [Real] are [int]s or [float]s as they were given;
    [high - low] is then exact or a rounded float subtraction. *)
Definition dim_entries (d : Dimension) : Z :=
  match d with
  | Integer _ low high => Z.max 1 (high - low)
  | Real _ low high => Z.max 10 (int_of (py_sub high low))
  | Categorical _ categories => Z.of_nat (length categories)
  end.

(** Whether [int(d.high - d.low)] raises [OverflowError]. *)
Definition dim_overflows (d : Dimension) : bool :=
  match d with
  | Real _ low high => overflows high low (py_sub high low)
  | _ => false
  end.

Definition n_parameters (dimensions : list Dimension) : Z :=
  fold_left (fun n d => n + dim_entries d) dimensions 0.

(** The third component of the result of [calc_epochs], the search space
    size. (The first two, [n_initial_points] and [min_epochs], are
    computed afterwards from it with [math.log] and are not part of
    this development.) *)
Definition calc_epochs_search_space_size (dimensions : list Dimension) : exn + Z :=
  let n_dimensions := Z.of_nat (length dimensions) in
  if existsb dim_overflows dimensions then inl OverflowError else
  let n := n_parameters dimensions in
  match py_factorial n with
  | inl e => inl e
  | inr fn =>
      match py_factorial (n - n_dimensions) with
      | inl e => inl e
      | inr fnk =>
          match py_factorial n_dimensions with
          | inl e => inl e
          | inr fk =>
              match true_div fn (fnk * fk) with
              | Some x => inr (py_int x)
              | None => inr VOID_LOSS
              end
          end
      end
  end.

(** ** The spaces of the configuration *)

(** [has_space(space)]; [spaces] is [self.config['spaces']]. *)
Definition has_space (spaces : list string) (space : string) : bool :=
  if bool_decide (space = "trailing"%string) then
    existsb (fun s => bool_decide (s ∈ spaces)) [space; "all"%string]
  else
    existsb (fun s => bool_decide (s ∈ spaces))
            [space; "all"%string; "default"%string].

(** The spaces the custom hyperopt class defines. *)
Record CustomHyperopt := {
  indicator_space : list Dimension;
  sell_indicator_space : list Dimension;
  roi_space : list Dimension;
  stoploss_space : list Dimension;
  trailing_space : list Dimension;
}.

(** [hyperopt_space(space)]; [None] is the call without argument. *)
Definition hyperopt_space (custom : CustomHyperopt) (spaces : list string)
    (space : option string) : list Dimension :=
  let wanted (name : string) : bool :=
    match space with
    | Some s => bool_decide (s = name)
    | None => has_space spaces name
    end in
  (if wanted "buy"%string then indicator_space custom else [])
  ++ (if wanted "sell"%string then sell_indicator_space custom else [])
  ++ (if wanted "roi"%string then roi_space custom else [])
  ++ (if wanted "stoploss"%string then stoploss_space custom else [])
  ++ (if wanted "trailing"%string then trailing_space custom else []).

(** ** Result dictionaries as shared objects *)

(** The same functions on references: a result dictionary is an object
    in a store, a Python list is an object holding references, and an
    assignment to [vals[k]["loss"]] is seen through every list that holds
    the dictionary. *)
Module Ref.

Definition loc := nat.

Record Heap := {
  dicts : gmap loc Trial;
  lists : gmap loc (list loc);
}.


(** [if v["loss"] == VOID_LOSS: vals[k]["loss"] = l] at one position. *)
Definition default_void_at (l : Q) (ds : gmap loc Trial) (r : loc)
  : gmap loc Trial :=
  match ds !! r with
  | Some v => if is_void v then <[r := set_loss l v]> ds else ds
  | None => ds
  end.

(** [filter_void_losses(vals, opt)]: the list object returned, the
    optimizer and the store after the call. *)
Definition filter_void_losses (vals : loc) (opt : Optimizer) (h : Heap)
  : loc * Optimizer * Heap :=
  let refs := default [] (lists h !! vals) in
  match Qeq_bool (void_loss opt) VOID, yi opt with
  | true, [] =>
      let keep :=
        List.filter (fun r => match dicts h !! r with
                              | Some v => negb (is_void v)
                              | None => false
                              end) refs in
      let void_filtered := fresh (dom (lists h)) in
      (void_filtered, opt,
       {| dicts := dicts h; lists := <[void_filtered := keep]> (lists h) |})
  | true, y :: ys =>
      let opt' := set_void_loss (py_max y ys) opt in
      (vals, opt',
       {| dicts := fold_left (default_void_at (void_loss opt')) refs (dicts h);
          lists := lists h |})
  | false, _ =>
      (vals, opt,
       {| dicts := fold_left (default_void_at (void_loss opt)) refs (dicts h);
          lists := lists h |})
  end.


End Ref.

(** ** Resuming the best state *)

(** [sorted(l, key=lambda k: k["loss"])]: ascending and stable, so of
    equal losses the earlier element comes first. *)
Fixpoint insert_by_loss (t : Trial) (l : list Trial) : list Trial :=
  match l with
  | [] => [t]
  | u :: l' => if Qltb (loss u) (loss t) then u :: insert_by_loss t l' else t :: l
  end.

Definition sorted_by_loss (l : list Trial) : list Trial :=
  fold_right insert_by_loss [] l.

Definition set_resumed (best_epoch : Z) (best_loss : Q) (avg : Z) (b : Budget)
  : Budget :=
  {| effort := effort b; total_epochs := total_epochs b; max_epoch := max_epoch b;
     max_epoch_reached := max_epoch_reached b; min_epochs := min_epochs b;
     search_space_size := search_space_size b;
     current_best_loss := best_loss; current_best_epoch := best_epoch;
     epochs_since_last_best := epochs_since_last_best b;
     avg_best_occurrence := avg |}.

(** [setup_epochs] *)
Definition setup_epochs : M bool :=
  h ← get;
  let len_trials := Z.of_nat (length (trials h)) in
  if 0 <? len_trials then
    let best_epochs := List.filter is_best (trials h) in
    let len_best := Z.of_nat (length best_epochs) in
    if 0 <? len_best then
      match sorted_by_loss best_epochs with
      | [] => raise IndexError
      | best :: _ =>
          modify (fun h => set_scoring
                             (set_resumed (current_epoch best) (loss best)
                                          (len_trials / len_best) (budget h))
                             (trials h) h) ;;
          mret true
      end
    else mret false
  else mret false.

(** ** Loading the results *)

(** A dictionary of the results file, with or without the [is_best]
    key. *)
Inductive saved_epoch :=
  | WithBest (t : Trial)
  | WithoutBest (t : Trial).

(** [load_previous_results(results_file)]; [None] is an absent or empty
    file. Only the first dictionary is inspected, and [epochs[0]] raises
    [IndexError] on an empty list. *)
Definition load_previous_results (file : option (list saved_epoch))
  : exn + list saved_epoch :=
  match file with
  | None => inr []
  | Some [] => inl IndexError
  | Some (WithoutBest _ :: _) => inl OperationalException
  | Some (WithBest t :: rest) => inr (WithBest t :: rest)
  end.

(** The dictionary of a saved epoch. Nothing reads the [is_best] key of
    the dictionaries held by [self.epochs]. *)
Definition saved_trial (e : saved_epoch) : Trial :=
  match e with
  | WithBest t | WithoutBest t => t
  end.

Definition set_epochs (es : list Trial) (h : Hyperopt) : Hyperopt :=
  {| budget := budget h; trials := trials h; epochs := es;
     num_epochs_saved := num_epochs_saved h; n_jobs := n_jobs h; multi := multi h;
     shared := shared h;
     hyperopt_continue_filtered := hyperopt_continue_filtered h;
     self_random_state := self_random_state h; opt := opt h;
     self_Xi := self_Xi h; self_yi := self_yi h; rngs := rngs h;
     optimizers := optimizers h; results_shared := results_shared h;
     results_file := results_file h; opts_file := opts_file h |}.

(** The two steps of [start] that resume a run:
    [self.epochs = self.load_previous_results(self.results_file)], then
    [self.setup_epochs()]. *)
Definition start_resume (file : option (list saved_epoch)) : M bool :=
  match load_previous_results file with
  | inl e => raise e
  | inr es => modify (set_epochs (map saved_trial es)) ;; setup_epochs
  end.

(** ** The settings of [__init__] and [setup_multi] *)

(** The keys of [config] these methods read; [None] is an absent key.
    [cpu_count] is what [joblib.cpu_count()] returns. *)
Record Config := {
  cfg_mode : option string;
  cfg_n_points : option Z;
  cfg_hyperopt_jobs : option Z;
  cfg_effort : option Q;
  cfg_epochs : option Z;
  cpu_count : Z;
}.

Inductive estimator := ET | RandomEstimator | GBRT | DUMMY.

Record Settings := {
  s_n_jobs : Z;
  s_effort : Q;
  s_total_epochs : Z;
  s_multi : bool;
  s_shared : bool;
  s_base_estimator : estimator;
  s_n_points : Z;
  s_ask_points : option Z;
  s_opt_points : Z;
}.

(** The double [0.01]. *)
Definition float_0_01 : Q := 5764607523034235 # 576460752303423488.

(** [a or b] on integers. *)
Definition py_or (a b : Z) : Z := if a =? 0 then b else a.

(** The attributes set by [__init__] and [setup_multi] from [config]. *)
Definition setup_multi (c : Config) : Settings :=
  let n_jobs := default (-1) (cfg_hyperopt_jobs c) in
  let n_jobs := if n_jobs <? 0 then py_or (cpu_count c / 2) 1 else n_jobs in
  let e := default 1%Q (cfg_effort c) in
  let eff := if Qltb float_0_01 e then e else float_0_01 in
  let mode := default "single"%string (cfg_mode c) in
  let is_multi := bool_decide (mode = "multi"%string)
                  || bool_decide (mode = "shared"%string) in
  let is_shared := bool_decide (mode = "shared"%string) in
  let base := if is_multi then (if is_shared then GBRT else RandomEstimator)
              else ET in
  let n_points := default 1 (cfg_n_points c) in
  let base := if n_points <? 1 then DUMMY else base in
  let n_points := if n_points <? 1 then 1 else n_points in
  let ask_points := if n_points <? 2 then None else Some n_points in
  {| s_n_jobs := n_jobs; s_effort := eff;
     s_total_epochs := default 0 (cfg_epochs c);
     s_multi := is_multi; s_shared := is_shared; s_base_estimator := base;
     s_n_points := n_points; s_ask_points := ask_points;
     s_opt_points := n_jobs * py_or n_points 1 |}.

(** ** The main loop *)

Inductive loop_end :=
  | Stopped
  | OutOfFuel
  | Raised (e : exn)
  | ZeroDivisionError.

(** [self.avg_best_occurrence * max(1, self.effort)]: exact when
    [max(1, effort)] is an [int], a rounded float product when it is a
    [float]. *)
Definition occurrence_product (b : Budget) : number :=
  py_mul (PyInt (avg_best_occurrence b)) (max_1 (effort b)).

(** Whether [int()] of that product raises [OverflowError]. *)
Definition occurrence_overflows (b : Budget) : bool :=
  overflows (PyInt (avg_best_occurrence b)) (max_1 (effort b)) (occurrence_product b).

(** The length of the next batch, once [occurrence] is computed:
    [occurrence] padded to the number of workers, then cut to what the
    epochs limit leaves. [None] is a division by zero. *)
Definition batch_length (b : Budget) (jobs opt_points epochs_so_far : Z) : option Z :=
  let occurrence := int_of (occurrence_product b) in
  if jobs =? 0 then None
  else
    let batch_len := occurrence + jobs - occurrence mod jobs in
    if epochs_limit b <=? epochs_so_far + batch_len * opt_points then
      if opt_points =? 0 then None
      else
        let q := (epochs_limit b - epochs_so_far) / opt_points in
        let r := (epochs_limit b - epochs_so_far) mod opt_points in
        Some (q + r)
    else Some batch_len.

(** The test that leaves the loop after [log_results]. *)
Definition stops (saved : Z) (n_results : Z) (batch_len : Z) (b : Budget) : bool :=
  ((saved =? 0) && (1 <? n_results))
  || (batch_len <? 1)
  || ((saved =? 0) && (search_space_size b <? batch_len + epochs_limit b)).

Section MainLoop.

(** [jobs_scheduler(parallel, batch_len, epochs_so_far, jobs)] followed
    by [return_results()]: what the workers leave of the optimizers and
    of the shared table, and the results of the batch. The first
    argument counts the turns of the loop. *)
Variable dispatch :
  nat -> Z -> Z -> Hyperopt ->
  (option Optimizer * list Optimizer * SharedTable) * list Trial.

(** [parallel._effective_n_jobs()] and [self.opt_points] *)
Variable jobs : Z.
Variable opt_points : Z.

Definition set_dispatched (o : option Optimizer) (q : list Optimizer)
    (t : SharedTable) (h : Hyperopt) : Hyperopt :=
  set_tracking (self_Xi h) (self_yi h) (rngs h) t (set_opts o q (opts_file h) h).

(** The [while] loop, [turn] counting its turns. (An interruption by
    the user is not part of the model.) *)
Fixpoint main_loop_from (fuel : nat) (turn : nat) (prev_batch epochs_so_far : Z)
    (h : Hyperopt) : Hyperopt * loop_end :=
  match fuel with
  | O => (h, OutOfFuel)
  | S fuel' =>
      if (prev_batch <? epochs_so_far)
         || (epochs_so_far <? min_epochs (budget h)) then
        if occurrence_overflows (budget h) then (h, Raised OverflowError)
        else
          match batch_length (budget h) jobs opt_points epochs_so_far with
          | None => (h, ZeroDivisionError)
          | Some batch_len =>
              let '((o, q, t), batch_results) :=
                dispatch turn batch_len epochs_so_far h in
              match log_results batch_results epochs_so_far
                                (set_dispatched o q t h) with
              | (h, inl e) => (h, Raised e)
              | (h, inr saved) =>
                  if stops saved (Z.of_nat (length batch_results)) batch_len
                           (budget h)
                  then (h, Stopped)
                  else if max_epoch_reached (budget h) then (h, Stopped)
                  else main_loop_from fuel' (S turn) epochs_so_far
                                      (epochs_so_far + saved) h
              end
          end
      else (h, Stopped)
  end.

(** [main_loop(jobs_scheduler)] *)
Definition main_loop (fuel : nat) (h : Hyperopt) : Hyperopt * loop_end :=
  main_loop_from fuel 0 (-1) (Z.of_nat (length (trials h))) h.

End MainLoop.

(** * Statements and sample data *)

(** ** VOID filtering *)

(** The result of the point [(x,)] with the VOID loss, and with a loss
    [l]. *)
Definition void_result (x : Z) : Trial :=
  {| loss := VOID; params_dict := [("x"%string, VInt x)]; total_profit := 0;
     is_initial_point := true; random_state := 1; is_best := false;
     current_epoch := 0 |}.

Definition valid_result (x : Z) (l : Q) : Trial :=
  {| loss := l; params_dict := [("x"%string, VInt x)]; total_profit := 0;
     is_initial_point := true; random_state := 1; is_best := false;
     current_epoch := 0 |}.

(** ** Scoring *)

(** A method that leaves an attribute, or any function of the object,
    as it found it. *)
Definition keeps {X A} (f : Hyperopt -> X) (m : M A) : Prop :=
  forall h, f (m h).1 = f h.

Definition scoring (h : Hyperopt) : Budget * list Trial := (budget h, trials h).

(** A property of the object that a method maintains, whether it
    returns or raises. *)
Definition preserves {A} (P : Hyperopt -> Prop) (m : M A) : Prop :=
  forall h, P h -> P (m h).1.

(** The budget up to the [max_epoch_reached] flag. *)
Definition scored_as (b : Budget) (ts : list Trial) (h : Hyperopt) : Prop :=
  trials h = ts /\ (budget h = b \/ budget h = set_max_epoch_reached true b).

Definition void_never_best (ts : list Trial) : Prop :=
  Forall (fun t => (loss t == VOID)%Q -> is_best t = false) ts.

Definition scoring_invariant (h : Hyperopt) : Prop :=
  (current_best_loss (budget h) <= VOID)%Q /\ void_never_best (trials h).

(** A new run in single-optimizer mode: nothing on disk, no trial, an
    optimizer without observations. *)
Definition fresh_run : Hyperopt :=
  {| budget := init_budget 1 0; trials := []; epochs := [];
     num_epochs_saved := 0; n_jobs := 1; multi := false; shared := false;
     hyperopt_continue_filtered := false; self_random_state := 1;
     opt := Some (new_optimizer 1); self_Xi := []; self_yi := []; rngs := [];
     optimizers := []; results_shared := {| points := ∅; per_opt := ∅ |};
     results_file := None; opts_file := None |}.

(** ** Saving *)

Definition saved (h : Hyperopt) : list Trial * Z * option (list Trial) :=
  (epochs h, num_epochs_saved h, results_file h).

(** What [_save_results] leaves on disk is decided by [self.epochs]
    alone. *)
Definition saved_from_epochs (h0 h : Hyperopt) : Prop :=
  epochs h = epochs h0
  /\ ((results_file h = results_file h0 /\ num_epochs_saved h = num_epochs_saved h0)
      \/ (results_file h = Some (epochs h0)
          /\ num_epochs_saved h = Z.of_nat (length (epochs h0)))).

(** ** The adaptive ceiling *)










(** ** Named parameters *)

(** The claim as worded: when the lengths agree, the dictionary maps the
    name of every dimension to the value at the position of that
    dimension. *)
Definition name_maps_to_same_position : Prop :=
  forall (dimensions : list Dimension) (raw_params : list value)
         (d : PyDict.t string value) (i : nat) (dim : Dimension) (v : value),
    _get_params_dict dimensions raw_params = inr d ->
    dimensions !! i = Some dim -> raw_params !! i = Some v ->
    PyDict.get (dim_name dim) d = Some v.

(** ** Asking and telling *)

(** The claim as worded, on two consecutive batches: a point yielded in
    the first batch, whose result [v] has a finite loss and is told to
    the optimizer when the second batch starts, is not yielded in the
    second batch. *)
Definition told_point_never_yielded_again : Prop :=
  forall (SK : Type) (sk_ask : SK -> Point * SK)
         (sk_ask_n : Z -> SK -> list Point * SK)
         (sk_tell : list Point -> list Q -> bool -> SK -> SK)
         (sk_update_next : SK -> SK) (ask_points : option Z)
         (first second : nat * (nat -> list Trial)) (o : Optimizer) (sk : SK)
         (asked1 asked2 : list Point) (o' : Optimizer) (v : Trial),
    ask_batches sk_ask sk_ask_n sk_tell sk_update_next ask_points
                [first; second] o sk = ([asked1; asked2], o') ->
    params_Xi v ∈ asked1 ->
    ~ (loss v == VOID)%Q ->
    v ∈ second.2 0%nat ->
    params_Xi v ∉ asked2.

(** An optimizer that proposes the same point whatever it is told. *)
Definition stuck_point : Point := [VInt 3].

Definition stuck_ask (sk : unit) : Point * unit := (stuck_point, sk).

Definition stuck_ask_n (n : Z) (sk : unit) : list Point * unit :=
  (repeat stuck_point (Z.to_nat n), sk).

(** ** The shared table *)

(** Three workers; one of them publishes the result of a point. *)
Definition seen_point : Point := [VInt 3].

Definition seen_result : Trial :=
  {| loss := 1; params_dict := [("x"%string, VInt 3)]; total_profit := 0;
     is_initial_point := false; random_state := 7; is_best := false;
     current_epoch := 0 |}.

Definition three_workers : Backend :=
  {| b_optimizers := [];
     b_results_shared := {| points := ∅; per_opt := {[ 7 := ([], []) ]} |};
     b_results_batch := [] |}.

Definition published : SharedTable :=
  b_results_shared
    (opt_results (new_optimizer 7) 0 [seen_result] 3 false three_workers).2.

(** The table after the first and after the second of the two other
    workers has fetched the point. *)
Definition fetched_once : SharedTable :=
  (opt_get_past_points false [(seen_point, None)] published).2.

Definition fetched_twice : SharedTable :=
  (opt_get_past_points false [(seen_point, None)] fetched_once).2.

(** ** Setting up the optimizers *)

(** The claim as worded: in multi-optimizer mode, a number of restored
    optimizers that is not zero and not the configured number makes
    [setup_optimizers] raise. *)
Definition mismatch_is_fatal : Prop :=
  forall (randint : nat -> Z) (h : Hyperopt) (opts : list pickled),
    multi h = true ->
    opts_file h = Some opts ->
    length opts ≠ 0%nat ->
    Z.of_nat (length opts) ≠ (if shared h then 1 else n_jobs h) ->
    exists e : exn, (setup_optimizers randint h).2 = inl e.

(** Two workers configured, one optimizer in the file. *)
Definition two_workers_one_restored : Hyperopt :=
  {| budget := init_budget 1 0; trials := []; epochs := [];
     num_epochs_saved := 0; n_jobs := 2; multi := true; shared := false;
     hyperopt_continue_filtered := false; self_random_state := 1;
     opt := None; self_Xi := []; self_yi := []; rngs := [];
     optimizers := []; results_shared := {| points := ∅; per_opt := ∅ |};
     results_file := None; opts_file := Some [POpt (new_optimizer 5)] |}.

(** The optimizers among the unpickled objects. *)
Definition restored_of (opts : list pickled) : list Optimizer :=
  omap (fun p => match p with POpt o => Some o | PForeign => None end) opts.

Definition all_optimizers (opts : list pickled) : Prop :=
  Forall (fun p => p ≠ PForeign) opts.

(** What the queue operations of the setup leave alone. *)
Definition setup_frame (h : Hyperopt)
  : list Trial * PyDict.t Z (list Point) * PyDict.t Z (list Q) * Z * bool * bool * bool :=
  (trials h, self_Xi h, self_yi h, n_jobs h, shared h, multi h,
   hyperopt_continue_filtered h).

(** Two workers configured; the file holds an object that is not an
    optimizer, then an optimizer. *)
Definition foreign_then_optimizer : Hyperopt :=
  {| budget := init_budget 1 0; trials := []; epochs := [];
     num_epochs_saved := 0; n_jobs := 2; multi := true; shared := false;
     hyperopt_continue_filtered := false; self_random_state := 1;
     opt := None; self_Xi := []; self_yi := []; rngs := [];
     optimizers := []; results_shared := {| points := ∅; per_opt := ∅ |};
     results_file := None; opts_file := Some [PForeign; POpt (new_optimizer 5)] |}.

(** ** The search space size *)

(** Pascal's triangle. *)
Fixpoint pascal (n k : nat) : Z :=
  match n, k with
  | _, O => 1
  | O, S _ => 0
  | S n', S k' => pascal n' k' + pascal n' k
  end.

(** The exponent chosen by [true_div]. *)
Definition div_exponent (a b : Z) : Z :=
  let d := Z.log2 a - Z.log2 b in
  let above := if 0 <=? d then b * 2 ^ d <=? a else b <=? a * 2 ^ (- d) in
  (if above then d else d - 1) - 52.

(** [n choose k], divided out exactly in the integers. *)
Definition binomial (n k : Z) : Z :=
  factorial (Z.to_nat n)
  / (factorial (Z.to_nat (n - k)) * factorial (Z.to_nat k)).

(** A dimension that offers at least one value. *)
Definition populated (d : Dimension) : Prop :=
  match d with
  | Categorical _ [] => False
  | _ => True
  end.

(** The claim as worded: the size is the binomial coefficient, or the
    VOID sentinel. *)
Definition size_is_binomial : Prop :=
  forall dimensions : list Dimension,
    Forall populated dimensions ->
    calc_epochs_search_space_size dimensions
    = inr (binomial (n_parameters dimensions) (Z.of_nat (length dimensions)))
    \/ calc_epochs_search_space_size dimensions = inr VOID_LOSS.

(** Twenty-five integer dimensions with 57 entries in all. *)
Definition wide_space : list Dimension :=
  Integer "roi" 0 33 :: repeat (Integer "flag" 0 1) 24.

Definition two_integers : list Dimension :=
  [Integer "x" 0 10; Integer "y" 0 5].

(** One real dimension from 0.1 to 11.1: the exact difference of the two
    doubles is below 11, the float difference is 11.0. *)
Definition one_real : list Dimension :=
  [Real "x" (PyFloat (1 # 10)) (PyFloat (111 # 10))].

(** A real dimension too wide for a float difference. *)
Definition too_wide : list Dimension :=
  [Integer "n" 0 3;
   Real "x" (PyFloat (inject_Z (- 10 ^ 308))) (PyFloat (inject_Z (10 ^ 308)))].

(** ** Results as shared objects *)


(** ** The best loss of a run *)

(** The best loss is the least loss seen so far, and it is the loss of a
    trial flagged best unless it is still the loss the run started
    with. *)
Definition least_so_far (start : Q) (b : Budget) (ts : list Trial) : Prop :=
  (current_best_loss b <= start)%Q
  /\ Forall (fun t => (current_best_loss b <= loss t)%Q) ts
  /\ (current_best_loss b = start
      \/ exists t, t ∈ ts /\ is_best t = true /\ loss t = current_best_loss b).

(** A trial is flagged best exactly when its loss is strictly below the
    starting best loss and below the loss of every trial before it. *)
Definition best_flags (start : Q) (ts : list Trial) : Prop :=
  forall (before after : list Trial) (t : Trial),
    ts = before ++ t :: after ->
    (is_best t = true
     <-> (loss t < start)%Q /\ Forall (fun u => (loss t < loss u)%Q) before).

Definition least_in (start : Q) (h : Hyperopt) : Prop :=
  least_so_far start (budget h) (trials h) /\ best_flags start (trials h).

(** ** Epoch numbers *)

(** A method returns only values that satisfy [P]. *)
Definition returns_only {A} (P : A -> Prop) (m : M A) : Prop :=
  forall h a, (m h).2 = inr a -> P a.

(** The trial at position [k] carries the epoch number [k + 1]. *)
Definition numbered (ts : list Trial) : Prop :=
  forall (k : nat) (t : Trial), ts !! k = Some t -> current_epoch t = Z.of_nat k + 1.

(** ** Gaps between best epochs *)




(** ** Resuming *)

Definition resumed_run : Hyperopt :=
  set_scoring (init_budget 1 0)
    [set_scored true 1 (valid_result 1 5); set_scored false 2 (void_result 2);
     set_scored true 3 (valid_result 3 2); set_scored false 4 (valid_result 4 2)]
    fresh_run.

(** ** Saving and loading *)

Definition loaded_run : Hyperopt :=
  {| budget := init_budget 1 0; trials := [];
     epochs := [set_scored true 1 (valid_result 1 5)];
     num_epochs_saved := 0; n_jobs := 1; multi := false; shared := false;
     hyperopt_continue_filtered := false; self_random_state := 1;
     opt := Some (new_optimizer 1); self_Xi := []; self_yi := []; rngs := [];
     optimizers := []; results_shared := {| points := ∅; per_opt := ∅ |};
     results_file := None; opts_file := None |}.

(** ** Tracking the points *)

(** The trials of [ts] that come from the optimizer [r]. *)
Definition from_optimizer (r : Z) (ts : list Trial) : list Trial :=
  List.filter (fun v => bool_decide (random_state v = r)) ts.

(** What [track_points] leaves alone. *)
Definition tracking_frame (h : Hyperopt) :=
  (budget h, trials h, epochs h, num_epochs_saved h, n_jobs h, multi h, shared h,
   hyperopt_continue_filtered h, self_random_state h, opt h, rngs h, optimizers h,
   results_shared h, results_file h, opts_file h).

Definition tracked (h : Hyperopt) (v : Trial) : Prop :=
  is_Some (PyDict.get (random_state v) (self_Xi h))
  /\ is_Some (PyDict.get (random_state v) (self_yi h)).

(** A single-mode run that tracks the random state 1. *)
Definition tracking_run : Hyperopt :=
  set_tracking [(1, [])] [(1, [])] [] {| points := ∅; per_opt := ∅ |} fresh_run.

(** A run resumed with one trial in memory and
    [hyperopt_continue_filtered] set. *)
Definition filtered_run : Hyperopt :=
  {| budget := init_budget 1 0; trials := [void_result 1]; epochs := [];
     num_epochs_saved := 0; n_jobs := 1; multi := false; shared := false;
     hyperopt_continue_filtered := true; self_random_state := 1;
     opt := None; self_Xi := []; self_yi := []; rngs := [];
     optimizers := []; results_shared := {| points := ∅; per_opt := ∅ |};
     results_file := None; opts_file := None |}.

(** ** Batch lengths *)

(** [int(self.avg_best_occurrence * max(1, self.effort))]: the product
    is exact for an [int] factor and the rounded float product for a
    [float] one. *)
Definition occurrence (b : Budget) : Z := int_of (occurrence_product b).

(** The least multiple of [jobs] strictly above [occurrence]. *)
Definition padded (b : Budget) (jobs : Z) : Z := jobs * (occurrence b / jobs + 1).

(** An average of 5 and the float effort 1.2: the exact product is just
    below 6, the float product is 6.0, and with two workers the batch is
    8 long. *)
Definition float_effort_average : Budget :=
  set_occurrence [] 5 0 100 (init_budget (PyFloat (6 # 5)) 0).

(** ** The main loop *)

(** Workers that return a valid result for every point asked. *)
Definition full_dispatch (turn : nat) (batch_len epochs_so_far : Z) (h : Hyperopt)
  : (option Optimizer * list Optimizer * SharedTable) * list Trial :=
  ((opt h, optimizers h, results_shared h),
   repeat (valid_result 1 (1 # 2)) (Z.to_nat batch_len)).

(** A new run with seven epochs configured. *)
Definition seven_epochs : Hyperopt :=
  set_scoring (init_budget 1 7) [] fresh_run.

(** ** Settings *)

(** No points and no workers configured, on a machine with one core. *)
Definition random_search : Config :=
  {| cfg_mode := Some "shared"%string; cfg_n_points := Some 0;
     cfg_hyperopt_jobs := None; cfg_effort := Some 0%Q; cfg_epochs := None;
     cpu_count := 1 |}.

(** ** What the optimizer is told *)

(** No loss of the list is the VOID sentinel. *)
Definition no_void (y : list Q) : Prop := Forall (fun l => ~ (l == VOID)%Q) y.

(** The optimizer's observations and the results of the batch grow
    together. *)
Definition grown_by {SK : Type} (added : list Trial) (s s' : @AskState SK) : Prop :=
  batch_results s' = batch_results s ++ added
  /\ Xi (a_opt s') = Xi (a_opt s) ++ map params_Xi added
  /\ yi (a_opt s') = yi (a_opt s) ++ map loss added.

(** A VOID result and a valid one arrive before the second turn. *)
Definition mixed_arrivals (r : nat) : list Trial :=
  match r with
  | 1%nat => [void_result 1; valid_result 2 (1 # 2)]
  | _ => []
  end.

(** ** Fetching past points *)

(** What a fetch leaves under an asked point: the loss found in the
    table, or what was there. *)
Definition fetched (t : SharedTable) (entry : Point * option Q) : Point * option Q :=
  (entry.1,
   match points t !! entry.1 with
   | Some (y, _) => Some y
   | None => entry.2
   end).

(** What a fetch of the points [keys] leaves of an entry of the table:
    nothing when the point is asked and its counter is 1 or less, the
    entry as it is otherwise. *)
Definition kept (keys : list Point) (p : Point) (e : Q * Z) : option (Q * Z) :=
  if bool_decide (p ∈ keys) && (e.2 - 1 <? 1) then None else Some e.

(** A table with a result that one more worker is to read and one that
    two more are. *)
Definition two_entries : SharedTable :=
  {| points := <[[VInt 1] := (5%Q, 1)]> (<[[VInt 2] := (7%Q, 2)]> ∅);
     per_opt := ∅ |}.

(** ** Publishing results *)

(** The results of the dispatch for the point [p]. *)
Definition results_at (p : Point) (l : list Trial) : list Trial :=
  List.filter (fun v => bool_decide (params_Xi v = p)) l.

(** What the table holds for [p] after the results [l] were published
    with the counter [c] over the entries [m]. *)
Definition published_at (p : Point) (l : list Trial) (c : Z) (m : gmap Point (Q * Z))
  : option (Q * Z) :=
  match last (results_at p l) with
  | Some v => Some (loss v, c)
  | None => m !! p
  end.

(** The queue after [opt_results]: the optimizer goes back, cleared,
    unless the mode is shared. *)
Definition requeued (o : Optimizer) (is_shared : bool) (b : Backend) : list Optimizer :=
  if is_shared then b_optimizers b else b_optimizers b ++ [opt_clear o].

(** The result of the point [(3,)] as [backtest_params] returns it. *)
Definition worker_result : Trial :=
  {| loss := 1; params_dict := [("x"%string, VInt 3)]; total_profit := 0;
     is_initial_point := false; random_state := 0; is_best := false;
     current_epoch := 0 |}.

(** A worker of two that has evaluated one point. *)
Definition one_result_backend : Backend :=
  {| b_optimizers := [];
     b_results_shared := {| points := ∅; per_opt := {[ 5 := ([], []) ]} |};
     b_results_batch := [] |}.

(** ** Restoring the optimizers *)

(** The optimizer [setup_optimizers] starts from in single mode: the
    last one of the file, or a new one. *)
Definition single_start (h : Hyperopt) : Optimizer :=
  match last (default [] (opts_file h)) with
  | Some (POpt o) => o
  | _ => new_optimizer (self_random_state h)
  end.

(** A file whose only object is not an optimizer. *)
Definition corrupted_run : Hyperopt := set_opts None [] (Some [PForeign]) fresh_run.

(** A single-mode run with one trial in memory. *)
Definition trial_in_memory : Hyperopt :=
  set_scoring (init_budget 1 0) [valid_result 1 5] fresh_run.

(** A single-mode run whose optimizer has seen one point. *)
Definition told_run : Hyperopt :=
  set_opts (Some {| Xi := [[VInt 3]]; yi := [1 # 2]; void_loss := VOID;
                    void := VoidFalse; rs := 7 |}) [] None fresh_run.

(** ** Spaces *)

(** The five spaces, in the order [hyperopt_space] visits them. *)
Definition space_names : list string :=
  ["buy"; "sell"; "roi"; "stoploss"; "trailing"]%string.

(** A class with one dimension per space. *)
Definition one_each : CustomHyperopt :=
  {| indicator_space := [Integer "rsi" 0 50];
     sell_indicator_space := [Integer "sell-rsi" 50 100];
     roi_space := [Real "roi" 0 1];
     stoploss_space := [Real "stoploss" (-1) 0];
     trailing_space := [Categorical "trailing" [VInt 0; VInt 1]] |}.

(** * Proofs *)

(** * Floats *)

(** The rounding on the doubles of Python: the literals [0.1] and [1.2],
    ties to even at 2^53, the subnormal numbers, and the end of the
    range. *)
Example round_double_cases :
  Qeq_bool (round_double (1 # 10)) (3602879701896397 # 36028797018963968) = true
  /\ Qeq_bool (round_double (6 # 5)) (5404319552844595 # 4503599627370496) = true
  /\ round_double (inject_Z (2 ^ 53 + 1)) = inject_Z (2 ^ 53)
  /\ round_double (inject_Z (2 ^ 53 + 3)) = inject_Z (2 ^ 53 + 4)
  /\ Qeq_bool (round_double (Qmake 1 (Z.to_pos (2 ^ 1075)))) 0 = true
  /\ Qeq_bool (round_double (Qmake 3 (Z.to_pos (2 ^ 1075))))
              (Qmake 1 (Z.to_pos (2 ^ 1073))) = true
  /\ is_finite (round_double (inject_Z (2 ^ 1024 - 2 ^ 970 - 1))) = true
  /\ is_finite (round_double (inject_Z (2 ^ 1024 - 2 ^ 970))) = false.
Proof. vm_compute. repeat split. Qed.

(** [int(5 * 1.2)] is 6 and [int(11.1 - 0.1)] is 11, where the exact
    values of the operands give 5 and 10; a product of two [int]s is
    exact at any size, and [100 * 1e308] leaves the floats. *)
Example float_operations :
  int_of (py_mul 5 (PyFloat (6 # 5))) = 6
  /\ py_int (inject_Z 5 * num_value (PyFloat (6 # 5))) = 5
  /\ int_of (py_sub (PyFloat (111 # 10)) (PyFloat (1 # 10))) = 11
  /\ py_int (num_value (PyFloat (111 # 10)) - num_value (PyFloat (1 # 10))) = 10
  /\ int_of (py_mul (2 ^ 53 + 1) 3) = 3 * (2 ^ 53 + 1)
  /\ int_of (py_mul (2 ^ 53 + 1) (PyFloat 3)) = 3 * 2 ^ 53
  /\ overflows 100 (PyFloat (inject_Z (10 ^ 308)))
               (py_mul 100 (PyFloat (inject_Z (10 ^ 308)))) = true.
Proof. vm_compute. repeat split. Qed.

Lemma Qltb_lt x y : Qltb x y = true <-> (x < y)%Q.
Proof.
  unfold Qltb. rewrite negb_true_iff, <- not_true_iff_false, Qle_bool_iff.
  split; [apply Qnot_le_lt | apply Qlt_not_le].
Qed.

Lemma Qltb_ge x y : Qltb x y = false <-> (y <= x)%Q.
Proof.
  unfold Qltb. rewrite negb_false_iff. apply Qle_bool_iff.
Qed.

Lemma py_max_spec y ys :
  In (py_max y ys) (y :: ys) /\ Forall (fun x => (x <= py_max y ys)%Q) (y :: ys).
Proof.
  unfold py_max. revert y. induction ys as [|z ys IH]; intros y; simpl.
  - split; [now left | constructor; [apply Qle_refl | constructor]].
  - destruct (Qltb y z) eqn:E.
    + destruct (IH z) as [Hin Hall]. split.
      * simpl in Hin. tauto.
      * inversion Hall as [|? ? Hz Hys]; subst. constructor; [|constructor; assumption].
        apply Qltb_lt in E. eapply Qle_trans; [apply Qlt_le_weak, E | exact Hz].
    + destruct (IH y) as [Hin Hall]. split.
      * simpl in Hin. simpl. tauto.
      * inversion Hall as [|? ? Hy Hys]; subst. constructor; [assumption|].
        constructor; [|assumption].
        apply Qltb_ge in E. eapply Qle_trans; [exact E | exact Hy].
Qed.







Lemma default_void_loss l v :
  loss (default_void l v) = if is_void v then l else loss v.
Proof. unfold default_void. destruct (is_void v); reflexivity. Qed.



Example void_told_as_sentinel :
  filter_void_losses [void_result 1; valid_result 3 (1 # 2)]
                     (set_yi [2; 7; 5]%Q (new_optimizer 1))
  = ([valid_result 1 7; valid_result 3 (1 # 2)],
     set_void_loss 7 (set_yi [2; 7; 5]%Q (new_optimizer 1))).
Proof. reflexivity. Qed.

(** * Running methods *)

Lemma run_bind {A B} (m : M A) (f : A -> M B) (h : Hyperopt) :
  (m ≫= f) h = match m h with
               | (h', inl e) => (h', inl e)
               | (h', inr a) => f a h'
               end.
Proof. reflexivity. Qed.

Lemma keeps_ret {X A} (f : Hyperopt -> X) (a : A) : keeps f (mret a).
Proof. intros h. reflexivity. Qed.

Lemma keeps_raise {X A} (f : Hyperopt -> X) (e : exn) : keeps f (@raise A e).
Proof. intros h. reflexivity. Qed.

Lemma keeps_get {X} (f : Hyperopt -> X) : keeps f get.
Proof. intros h. reflexivity. Qed.

Lemma keeps_modify {X} (f : Hyperopt -> X) (g : Hyperopt -> Hyperopt) :
  (forall h, f (g h) = f h) -> keeps f (modify g).
Proof. intros Hg h. apply Hg. Qed.

Lemma keeps_bind {X A B} (f : Hyperopt -> X) (m : M A) (k : A -> M B) :
  keeps f m -> (forall a, keeps f (k a)) -> keeps f (m ≫= k).
Proof.
  intros Hm Hk h. rewrite run_bind. specialize (Hm h).
  destruct (m h) as [h' [e|a]]; simpl in *; [exact Hm|].
  rewrite Hk. exact Hm.
Qed.

Lemma keeps_for_each {X A} (f : Hyperopt -> X) (l : list A) (body : A -> M unit) :
  (forall a, keeps f (body a)) -> keeps f (for_each l body).
Proof.
  intros Hb. induction l as [|a l IH]; simpl.
  - apply keeps_ret.
  - apply keeps_bind; [apply Hb | intros _; exact IH].
Qed.

Ltac keeps_step :=
  first
    [ apply keeps_ret | apply keeps_raise | apply keeps_get
    | apply keeps_modify; intros; reflexivity
    | apply keeps_for_each; intros
    | apply keeps_bind; [| intros] ].

Lemma save_opts_keeps_scoring : keeps scoring save_opts.
Proof.
  unfold save_opts. apply keeps_bind; [apply keeps_get | intros h].
  destruct (multi h); [keeps_step|].
  destruct (opt h); keeps_step.
Qed.

Lemma _save_results_keeps_scoring : keeps scoring _save_results.
Proof.
  unfold _save_results. apply keeps_bind; [apply keeps_get | intros h].
  destruct (_ >? _); [|keeps_step].
  apply keeps_bind; [keeps_step | intros _; apply save_opts_keeps_scoring].
Qed.

Lemma track_one_keeps_scoring v : keeps scoring (track_one v).
Proof.
  unfold track_one. apply keeps_bind; [apply keeps_get | intros h].
  destruct (PyDict.get _ (self_Xi h)); [|keeps_step].
  apply keeps_bind; [keeps_step | intros _].
  destruct (PyDict.get _ (self_yi h)); keeps_step.
Qed.

Lemma track_points_keeps_scoring arg : keeps scoring (track_points arg).
Proof.
  unfold track_points. apply keeps_bind; [apply keeps_get | intros h].
  destruct arg.
  - destruct (_ <? _); [|keeps_step].
    destruct (hyperopt_continue_filtered h); [keeps_step|].
    apply keeps_for_each. apply track_one_keeps_scoring.
  - apply keeps_for_each. apply track_one_keeps_scoring.
Qed.

Lemma preserves_bind {A B} (P : Hyperopt -> Prop) (m : M A) (k : A -> M B) :
  preserves P m -> (forall a, preserves P (k a)) -> preserves P (m ≫= k).
Proof.
  intros Hm Hk h HP. rewrite run_bind. specialize (Hm h HP).
  destruct (m h) as [h' [e|a]]; simpl in *; [exact Hm|].
  apply Hk. exact Hm.
Qed.

Lemma preserves_ret {A} (P : Hyperopt -> Prop) (a : A) : preserves P (mret a).
Proof. intros h HP. exact HP. Qed.

Lemma preserves_get (P : Hyperopt -> Prop) : preserves P get.
Proof. intros h HP. exact HP. Qed.

Lemma preserves_get_bind {B} (P : Hyperopt -> Prop) (k : Hyperopt -> M B) :
  (forall h, P h -> P (k h h).1) -> preserves P (get ≫= k).
Proof. intros Hk h HP. rewrite run_bind. simpl. apply Hk, HP. Qed.

Lemma preserves_modify (P : Hyperopt -> Prop) (g : Hyperopt -> Hyperopt) :
  (forall h, P h -> P (g h)) -> preserves P (modify g).
Proof. intros Hg h HP. apply Hg, HP. Qed.

Lemma keeps_preserves {X A} (f : Hyperopt -> X) (Q : X -> Prop) (m : M A) :
  keeps f m -> preserves (fun h => Q (f h)) m.
Proof. intros Hk h HQ. simpl. rewrite Hk. exact HQ. Qed.

Lemma scored_as_keeps {A} b ts (m : M A) :
  keeps scoring m -> preserves (scored_as b ts) m.
Proof.
  intros Hk h [Ht Hb]. specialize (Hk h). unfold scoring in Hk.
  injection Hk as Hb' Ht'. unfold scored_as. rewrite Hb', Ht'. split; assumption.
Qed.

Lemma log_results_scoring (batch : list Trial) (frame_start : Z) (h : Hyperopt) :
  scored_as (score_batch frame_start 0 batch (budget h, trials h)).1
            (score_batch frame_start 0 batch (budget h, trials h)).2
            (log_results batch frame_start h).1.
Proof.
  unfold log_results. rewrite run_bind. simpl.
  destruct (score_batch frame_start 0 batch (budget h, trials h)) as [b ts] eqn:E.
  simpl. rewrite run_bind. simpl.
  set (h1 := set_scoring b ts h).
  assert (H1 : scored_as b ts h1) by (split; [reflexivity | left; reflexivity]).
  revert H1. generalize h1. clear h1.
  apply preserves_bind.
  { apply scored_as_keeps, _save_results_keeps_scoring. }
  intros _. apply preserves_bind.
  { destruct (multi h); [|apply preserves_ret].
    apply preserves_bind; [apply preserves_get | intros h2].
    apply preserves_bind.
    - apply scored_as_keeps, track_points_keeps_scoring.
    - intros _. apply scored_as_keeps. keeps_step. }
  intros _. apply preserves_bind; [apply preserves_get | intros h3].
  apply preserves_bind; [|intros; apply preserves_ret].
  destruct (_ >? _); [|apply preserves_ret].
  apply preserves_modify. intros h4 [Ht Hb]. split; [exact Ht|].
  right. simpl. destruct Hb as [-> | ->]; reflexivity.
Qed.

(** * VOID trials are never best *)

Lemma update_max_epoch_best_loss v current b :
  current_best_loss (update_max_epoch v current b) = current_best_loss b.
Proof.
  unfold update_max_epoch. destruct (is_initial_point v); [reflexivity|].
  cbv zeta. destruct (overflows _ _ _); reflexivity.
Qed.

Lemma score_one_invariant frame_start i v b ts :
  (current_best_loss b <= VOID)%Q -> void_never_best ts ->
  (current_best_loss (score_one frame_start i v (b, ts)).1 <= VOID)%Q
  /\ void_never_best (score_one frame_start i v (b, ts)).2.
Proof.
  intros Hb Hts. unfold score_one, is_best_loss. simpl.
  destruct (Qltb (loss v) (current_best_loss b)) eqn:E; simpl.
  - apply Qltb_lt in E. split.
    + rewrite update_max_epoch_best_loss. simpl. lra.
    + apply Forall_app. split; [exact Hts|]. constructor; [|constructor].
      simpl. intros Hv. rewrite Hv in E. lra.
  - split; [exact Hb|].
    apply Forall_app. split; [exact Hts|]. constructor; [|constructor].
    reflexivity.
Qed.

Lemma score_batch_invariant frame_start i0 batch b ts :
  (current_best_loss b <= VOID)%Q -> void_never_best ts ->
  (current_best_loss (score_batch frame_start i0 batch (b, ts)).1 <= VOID)%Q
  /\ void_never_best (score_batch frame_start i0 batch (b, ts)).2.
Proof.
  revert i0 b ts. induction batch as [|v batch IH]; intros i0 b ts Hb Hts;
    cbn [score_batch].
  - split; assumption.
  - pose proof (score_one_invariant frame_start (i0 + 1) v b ts Hb Hts) as H.
    destruct (score_one frame_start (i0 + 1) v (b, ts)) as [b' ts'].
    destruct H as [H1 H2]. apply IH; assumption.
Qed.

Lemma log_results_invariant batch frame_start :
  preserves scoring_invariant (log_results batch frame_start).
Proof.
  intros h [Hb Hts].
  destruct (log_results_scoring batch frame_start h) as [Ht Hbud].
  destruct (score_batch_invariant frame_start 0 batch _ _ Hb Hts) as [Hb' Hts'].
  split.
  - destruct Hbud as [-> | ->]; exact Hb'.
  - rewrite Ht. exact Hts'.
Qed.

Lemma run_batches_invariant batches epochs_so_far :
  preserves scoring_invariant (run_batches epochs_so_far batches).
Proof.
  revert epochs_so_far. induction batches as [|batch rest IH]; intros e; simpl.
  - apply preserves_ret.
  - apply preserves_bind; [apply log_results_invariant | intros saved; apply IH].
Qed.

(** C3. In a run that starts as [__init__] leaves the object (no trial,
    the best loss at the VOID sentinel), whatever batches [log_results]
    is given, a recorded trial whose loss equals the VOID sentinel has
    [is_best] false. *)
Theorem void_trial_never_best (h : Hyperopt) (batches : list (list Trial))
    (epochs_so_far : Z) (t : Trial) :
  trials h = [] ->
  (current_best_loss (budget h) == VOID)%Q ->
  In t (trials (run_batches epochs_so_far batches h).1) ->
  (loss t == VOID)%Q ->
  is_best t = false.
Proof.
  intros Hts Hb Hin Hv.
  assert (Hinv : scoring_invariant h).
  { split; [lra | rewrite Hts; constructor]. }
  apply (run_batches_invariant batches epochs_so_far) in Hinv.
  destruct Hinv as [_ Hall]. unfold void_never_best in Hall.
  rewrite Forall_forall in Hall. apply Hall; [|exact Hv].
  apply list_elem_of_In. exact Hin.
Qed.

Lemma void_trial_never_best_witness :
  In (set_scored false 1 (void_result 1))
     (trials (run_batches 0 [[void_result 1; valid_result 2 (3 # 2)]]
                fresh_run).1)
  /\ is_best (set_scored false 1 (void_result 1)) = false.
Proof.
  assert (Hin : In (set_scored false 1 (void_result 1))
                   (trials (run_batches 0 [[void_result 1; valid_result 2 (3 # 2)]]
                              fresh_run).1))
    by (vm_compute; left; reflexivity).
  split; [exact Hin|].
  apply (void_trial_never_best fresh_run [[void_result 1; valid_result 2 (3 # 2)]] 0
           (set_scored false 1 (void_result 1))).
  - reflexivity.
  - reflexivity.
  - exact Hin.
  - reflexivity.
Defined.

(** * Saving the results *)

Lemma save_opts_keeps_saved : keeps saved save_opts.
Proof.
  unfold save_opts. apply keeps_bind; [apply keeps_get | intros h].
  destruct (multi h); [keeps_step|].
  destruct (opt h); keeps_step.
Qed.

Lemma track_one_keeps_saved v : keeps saved (track_one v).
Proof.
  unfold track_one. apply keeps_bind; [apply keeps_get | intros h].
  destruct (PyDict.get _ (self_Xi h)); [|keeps_step].
  apply keeps_bind; [keeps_step | intros _].
  destruct (PyDict.get _ (self_yi h)); keeps_step.
Qed.

Lemma track_points_keeps_saved arg : keeps saved (track_points arg).
Proof.
  unfold track_points. apply keeps_bind; [apply keeps_get | intros h].
  destruct arg.
  - destruct (_ <? _); [|keeps_step].
    destruct (hyperopt_continue_filtered h); [keeps_step|].
    apply keeps_for_each. apply track_one_keeps_saved.
  - apply keeps_for_each. apply track_one_keeps_saved.
Qed.

Lemma saved_from_epochs_keeps {A} h0 (m : M A) :
  keeps saved m -> preserves (saved_from_epochs h0) m.
Proof.
  intros Hk h (He & Hf). specialize (Hk h). unfold saved in Hk.
  injection Hk as He' Hn' Hf'. unfold saved_from_epochs.
  rewrite He', Hn', Hf'. split; assumption.
Qed.

Lemma _save_results_from_epochs h0 :
  preserves (saved_from_epochs h0) _save_results.
Proof.
  unfold _save_results. apply preserves_get_bind. intros h (He & Hf).
  destruct (_ >? _); [|split; assumption].
  rewrite run_bind. cbn [modify].
  apply (saved_from_epochs_keeps h0 save_opts save_opts_keeps_saved).
  split; [exact He|]. right. cbn. rewrite He. split; reflexivity.
Qed.

Lemma log_results_from_epochs batch frame_start h0 :
  preserves (saved_from_epochs h0) (log_results batch frame_start).
Proof.
  assert (Hm : forall g, (forall h, saved h = saved (g h)) ->
                         preserves (saved_from_epochs h0) (modify g)).
  { intros g Hg. apply saved_from_epochs_keeps. intros h. symmetry. apply Hg. }
  unfold log_results. apply preserves_bind; [apply preserves_get | intros h].
  destruct (score_batch frame_start 0 batch (budget h, trials h)) as [b ts].
  apply preserves_bind; [apply Hm; reflexivity | intros _].
  apply preserves_bind; [apply _save_results_from_epochs | intros _].
  apply preserves_bind.
  { destruct (multi h); [|apply preserves_ret].
    apply preserves_bind; [apply preserves_get | intros h2].
    apply preserves_bind.
    - apply saved_from_epochs_keeps, track_points_keeps_saved.
    - intros _. apply Hm. reflexivity. }
  intros _. apply preserves_bind; [apply preserves_get | intros h3].
  apply preserves_bind; [|intros; apply preserves_ret].
  destruct (_ >? _); [|apply preserves_ret].
  apply Hm. reflexivity.
Qed.

Lemma run_batches_from_epochs batches epochs_so_far h0 :
  preserves (saved_from_epochs h0) (run_batches epochs_so_far batches).
Proof.
  revert epochs_so_far. induction batches as [|batch rest IH]; intros e; simpl.
  - apply preserves_ret.
  - apply preserves_bind; [apply log_results_from_epochs | intros s; apply IH].
Qed.

(** C4, the code at the failing input: after the first batch of a new
    run one trial is recorded, more than the count saved so far (0), and
    yet no results file is written and the saved count stays 0. *)
Theorem save_results_misses_new_trial :
  (log_results [valid_result 3 1] 0 fresh_run).2 = inr 1
  /\ trials (log_results [valid_result 3 1] 0 fresh_run).1
     = [set_scored true 1 (valid_result 3 1)]
  /\ num_epochs_saved (log_results [valid_result 3 1] 0 fresh_run).1 = 0
  /\ results_file (log_results [valid_result 3 1] 0 fresh_run).1 = None.
Proof. repeat split; vm_compute; reflexivity. Qed.

(** Whatever the batches, the results file holds what it held at the
    start or [self.epochs] as loaded, never a trial of this run. *)
Lemma results_file_from_epochs (h : Hyperopt) (batches : list (list Trial))
    (epochs_so_far : Z) :
  results_file (run_batches epochs_so_far batches h).1 = results_file h
  \/ results_file (run_batches epochs_so_far batches h).1 = Some (epochs h).
Proof.
  assert (H0 : saved_from_epochs h h) by (split; [reflexivity | left; split; reflexivity]).
  apply (run_batches_from_epochs batches epochs_so_far h) in H0.
  destruct H0 as (_ & [[Hf _] | [Hf _]]); [left | right]; exact Hf.
Qed.

(** * The adaptive ceiling *)








(** * Dictionaries in insertion order *)

Section PyDictFacts.

Context {K : Type} `{EqDecision K} {A : Type}.
Implicit Types (d : PyDict.t K A) (k : K) (a : A) (items : list (K * A)).

Lemma get_set_eq k a d : PyDict.get k (PyDict.set k a d) = Some a.
Proof.
  induction d as [|[k' a'] d IH]; simpl.
  - now rewrite decide_True.
  - destruct (decide (k = k')); simpl.
    + now rewrite decide_True.
    + now rewrite decide_False.
Qed.

Lemma get_set_ne k k' a d :
  k ≠ k' -> PyDict.get k' (PyDict.set k a d) = PyDict.get k' d.
Proof.
  intros Hne. induction d as [|[k0 a0] d IH]; simpl.
  - rewrite decide_False by congruence. reflexivity.
  - destruct (decide (k = k0)) as [->|Hk]; simpl.
    + rewrite !decide_False by congruence. reflexivity.
    + destruct (decide (k' = k0)); [reflexivity | exact IH].
Qed.

Lemma keys_set k a d :
  forall k', k' ∈ PyDict.keys (PyDict.set k a d) <-> k' = k \/ k' ∈ PyDict.keys d.
Proof.
  intros k'. unfold PyDict.keys. induction d as [|[k0 a0] d IH]; simpl.
  - rewrite list_elem_of_singleton. rewrite elem_of_nil. tauto.
  - destruct (decide (k = k0)) as [->|Hk]; simpl.
    + rewrite !elem_of_cons. tauto.
    + rewrite !elem_of_cons, IH. tauto.
Qed.

Lemma set_fresh k a d :
  k ∉ PyDict.keys d -> PyDict.set k a d = d ++ [(k, a)].
Proof.
  unfold PyDict.keys. induction d as [|[k0 a0] d IH]; simpl; intros Hk.
  - reflexivity.
  - rewrite not_elem_of_cons in Hk. destruct Hk as [Hne Hk].
    rewrite decide_False by exact Hne. now rewrite IH.
Qed.

Lemma get_update_later items d k :
  k ∉ map fst items ->
  PyDict.get k (PyDict.update items d) = PyDict.get k d.
Proof.
  unfold PyDict.update. revert d.
  induction items as [|[k0 a0] items IH]; intros d Hk; simpl in *.
  - reflexivity.
  - rewrite not_elem_of_cons in Hk. destruct Hk as [Hne Hk].
    rewrite IH by exact Hk. apply get_set_ne. congruence.
Qed.

(** The value found under a key is the one of the last item that
    carries the key. *)
Lemma get_update_last items d (i : nat) k a :
  items !! i = Some (k, a) ->
  (forall (j : nat) k' a', (i < j)%nat -> items !! j = Some (k', a') -> k' ≠ k) ->
  PyDict.get k (PyDict.update items d) = Some a.
Proof.
  unfold PyDict.update. revert d i.
  induction items as [|[k0 a0] items IH]; intros d i Hi Hlast; [discriminate|].
  destruct i as [|i]; simpl in *.
  - injection Hi as -> ->.
    change (PyDict.get k (PyDict.update items (PyDict.set k a d)) = Some a).
    rewrite get_update_later; [apply get_set_eq|].
    intros Hin. apply list_elem_of_fmap in Hin. destruct Hin as [[k' a'] [Hk Hin]].
    apply list_elem_of_lookup in Hin. destruct Hin as [j Hj].
    apply (Hlast (S j) k' a'); [lia | exact Hj | simpl in Hk; congruence].
  - apply (IH _ i Hi). intros j k' a' Hij Hj.
    apply (Hlast (S j) k' a'); [lia | exact Hj].
Qed.

Lemma keys_update items d :
  forall k, k ∈ PyDict.keys (PyDict.update items d)
            <-> k ∈ map fst items \/ k ∈ PyDict.keys d.
Proof.
  unfold PyDict.update. revert d.
  induction items as [|[k0 a0] items IH]; intros d k; simpl.
  - rewrite elem_of_nil. tauto.
  - rewrite IH, keys_set, elem_of_cons. tauto.
Qed.

Lemma update_distinct items d :
  NoDup (map fst items) ->
  (forall k, k ∈ map fst items -> k ∉ PyDict.keys d) ->
  PyDict.update items d = d ++ items.
Proof.
  unfold PyDict.update. revert d.
  induction items as [|[k0 a0] items IH]; intros d Hnd Hfresh; simpl in *.
  - now rewrite app_nil_r.
  - apply NoDup_cons in Hnd. destruct Hnd as [Hk0 Hnd].
    rewrite set_fresh by (apply Hfresh; left).
    rewrite IH; [now rewrite <- app_assoc | exact Hnd |].
    intros k Hk. unfold PyDict.keys. rewrite map_app. simpl.
    rewrite elem_of_app, list_elem_of_singleton. intros [Hd | ->].
    + apply (Hfresh k); [now right | exact Hd].
    + contradiction.
Qed.

Lemma of_items_distinct items :
  NoDup (map fst items) -> PyDict.of_items items = items.
Proof.
  intros Hnd. unfold PyDict.of_items. rewrite update_distinct; [reflexivity | exact Hnd |].
  intros k _. unfold PyDict.keys. simpl. apply not_elem_of_nil.
Qed.

End PyDictFacts.

(** * Naming the coordinates of a point *)

(** C10, as worded, fails when two dimensions carry one name: the value
    of the later one is the only one kept. *)
Lemma same_name_keeps_last_value : ~ name_maps_to_same_position.
Proof.
  intros H.
  specialize (H [Integer "x" 0 10; Integer "x" 0 5] [VInt 1; VInt 2]
                [("x"%string, VInt 2)] 0%nat (Integer "x" 0 10) (VInt 1)
                eq_refl eq_refl eq_refl).
  vm_compute in H. discriminate H.
Qed.

Lemma lookup_zip_names (dimensions : list Dimension) (raw_params : list value)
    (i : nat) (k : string) (v : value) :
  zip (map dim_name dimensions) raw_params !! i = Some (k, v)
  <-> (exists dim, dimensions !! i = Some dim /\ dim_name dim = k)
      /\ raw_params !! i = Some v.
Proof.
  rewrite lookup_zip_Some, list_lookup_fmap, fmap_Some. simpl.
  split.
  - intros [[dim [Hd ->]] Hv]. split; [exists dim; split; [exact Hd | reflexivity] | exact Hv].
  - intros [[dim [Hd <-]] Hv]. split; [exists dim; split; [exact Hd | reflexivity] | exact Hv].
Qed.

(** C10, amended. [_get_params_dict] raises [ValueError] exactly when the
    list is not as long as the dimensions. Otherwise it returns a
    dictionary whose keys are the names of the dimensions and in which
    the name of a dimension maps to the value at its position unless a
    later dimension carries the same name; with distinct names the
    dictionary is the list of (name, value) pairs position by position. *)
Theorem get_params_dict_spec (dimensions : list Dimension)
    (raw_params : list value) :
  (length raw_params ≠ length dimensions ->
     _get_params_dict dimensions raw_params = inl ValueError)
  /\ (length raw_params = length dimensions ->
      exists d : PyDict.t string value,
        _get_params_dict dimensions raw_params = inr d
        /\ (forall k, k ∈ PyDict.keys d <-> k ∈ map dim_name dimensions)
        /\ (forall (i : nat) (dim : Dimension) (v : value),
              dimensions !! i = Some dim -> raw_params !! i = Some v ->
              (forall (j : nat) (dim' : Dimension),
                  (i < j)%nat -> dimensions !! j = Some dim' ->
                  dim_name dim' ≠ dim_name dim) ->
              PyDict.get (dim_name dim) d = Some v)
        /\ (NoDup (map dim_name dimensions) ->
            d = zip (map dim_name dimensions) raw_params
            /\ PyDict.keys d = map dim_name dimensions
            /\ PyDict.values d = raw_params)).
Proof.
  unfold _get_params_dict. split; intros Hlen.
  - now rewrite decide_True.
  - rewrite decide_False by (intros Hne; apply Hne, Hlen).
    eexists. split; [reflexivity|].
    assert (Hfst : map fst (zip (map dim_name dimensions) raw_params)
                   = map dim_name dimensions).
    { change (map fst ?l) with (fst <$> l). apply fst_zip.
      rewrite length_map. lia. }
    assert (Hsnd : map snd (zip (map dim_name dimensions) raw_params) = raw_params).
    { change (map snd ?l) with (snd <$> l). apply snd_zip.
      rewrite length_map. lia. }
    split; [|split].
    + intros k. unfold PyDict.of_items. rewrite keys_update, Hfst.
      unfold PyDict.keys. simpl. rewrite elem_of_nil. tauto.
    + intros i dim v Hd Hv Hlast. unfold PyDict.of_items.
      apply (get_update_last _ _ i).
      * apply lookup_zip_names. split; [exists dim; split; [exact Hd | reflexivity] | exact Hv].
      * intros j k' a' Hij Hj. apply lookup_zip_names in Hj.
        destruct Hj as [[dim' [Hd' <-]] _]. apply (Hlast j dim' Hij Hd').
    + intros Hnd. rewrite of_items_distinct by (rewrite Hfst; exact Hnd).
      unfold PyDict.keys, PyDict.values. rewrite Hfst, Hsnd. repeat split.
Qed.

Lemma get_params_dict_spec_witness :
  _get_params_dict [Integer "x" 0 10; Integer "y" 0 5] [VInt 3; VInt 4]
  = inr [("x"%string, VInt 3); ("y"%string, VInt 4)].
Proof.
  destruct (get_params_dict_spec [Integer "x" 0 10; Integer "y" 0 5]
              [VInt 3; VInt 4]) as [_ H].
  destruct (H eq_refl) as (d & Hd & _ & _ & Hz).
  rewrite Hd. f_equal. apply Hz.
  repeat constructor; intros Hin; apply list_elem_of_In in Hin; simpl in Hin;
    intuition discriminate.
Defined.

(** * No point twice from one generator *)

Section AskAndTellFacts.

Context {SK : Type}.
Variable sk_ask : SK -> Point * SK.
Variable sk_ask_n : Z -> SK -> list Point * SK.
Variable sk_tell : list Point -> list Q -> bool -> SK -> SK.
Variable sk_update_next : SK -> SK.
Variable ask_points : option Z.

Local Abbreviation tell_results := (tell_results sk_tell).
Local Abbreviation point := (point sk_ask sk_ask_n ask_points).
Local Abbreviation update_next := (update_next sk_update_next).
Local Abbreviation ask_turn := (ask_turn sk_ask sk_ask_n sk_tell sk_update_next ask_points).
Local Abbreviation ask_loop := (ask_loop sk_ask sk_ask_n sk_tell sk_update_next ask_points).
Local Abbreviation opt_ask_and_tell :=
  (opt_ask_and_tell sk_ask sk_ask_n sk_tell sk_update_next ask_points).

Implicit Types (s : @AskState SK) (a : Point).

Lemma tell_results_evald vals s : evald (tell_results vals s) = evald s.
Proof.
  unfold tell_results. destruct vals as [|v vals]; [reflexivity|].
  destruct (filter_void_losses (v :: vals) (a_opt s)) as [[|w ws] o]; reflexivity.
Qed.

Lemma point_evald s : evald (point s).2 = evald s.
Proof.
  unfold point. destruct ask_points as [n|].
  - destruct (to_ask s) as [|a rest] eqn:E.
    + destruct (sk_ask_n n (a_sk s)) as [[|a asked] sk]; reflexivity.
    + rewrite E. reflexivity.
  - destruct (sk_ask (a_sk s)); reflexivity.
Qed.

(** What a turn does, by cases on the two points it may ask. *)
Lemma ask_turn_cases vals s :
  match point (tell_results vals s) with
  | (inl e, s2) => ask_turn vals s = (Raise e, s2)
  | (inr a, s2) =>
      if decide (a ∈ evald s) then
        match point (update_next s2) with
        | (inl e, s3) => ask_turn vals s = (Raise e, s3)
        | (inr a', s3) =>
            if decide (a' ∈ evald s)
            then ask_turn vals s = (Break, s3)
            else ask_turn vals s = (Yield a', evald_add a' s3)
        end
      else ask_turn vals s = (Yield a, evald_add a s2)
  end.
Proof.
  unfold ask_turn.
  pose proof (point_evald (tell_results vals s)) as H1.
  rewrite tell_results_evald in H1.
  destruct (point (tell_results vals s)) as [[e|a] s2]; [reflexivity|].
  simpl in H1. rewrite H1.
  destruct (decide (a ∈ evald s)); [|reflexivity].
  pose proof (point_evald (update_next s2)) as H2.
  destruct (point (update_next s2)) as [[e'|a'] s3]; [reflexivity|].
  simpl in H2. rewrite H2, H1.
  destruct (decide (a' ∈ evald s)); reflexivity.
Qed.

Lemma ask_turn_yield vals s a s' :
  ask_turn vals s = (Yield a, s') ->
  (a ∉ evald s) /\ evald s' = ({[a]} ∪ evald s).
Proof.
  intros Ht. pose proof (ask_turn_cases vals s) as Hc. simpl in Hc.
  pose proof (point_evald (tell_results vals s)) as H1.
  rewrite tell_results_evald in H1.
  destruct (point (tell_results vals s)) as [[e|a1] s2]; [congruence|].
  simpl in H1.
  destruct (decide (a1 ∈ evald s)) as [Hin|Hnin].
  - pose proof (point_evald (update_next s2)) as H2.
    destruct (point (update_next s2)) as [[e|a2] s3]; [congruence|].
    simpl in H2.
    destruct (decide (a2 ∈ evald s)); [congruence|].
    rewrite Hc in Ht. injection Ht as <- <-. split; [assumption|].
    simpl. now rewrite H2, H1.
  - rewrite Hc in Ht. injection Ht as <- <-. split; [assumption|].
    simpl. now rewrite H1.
Qed.

Lemma ask_loop_distinct tries r arrivals s :
  NoDup (ask_loop tries r arrivals s).1
  /\ (forall a, a ∈ (ask_loop tries r arrivals s).1 -> a ∉ evald s)
  /\ (length (ask_loop tries r arrivals s).1 <= tries)%nat.
Proof.
  revert r s. induction tries as [|tries IH]; intros r s; simpl.
  - split; [constructor|]. split; [intros a Ha; inversion Ha | lia].
  - destruct (ask_turn (arrivals r) s) as [[a| |e] s'] eqn:Ht; simpl;
      try (split; [constructor|]; split; [intros a Ha; inversion Ha | lia]).
    apply ask_turn_yield in Ht. destruct Ht as [Hnin Hev].
    specialize (IH (S r) s'). destruct (ask_loop tries (S r) arrivals s') as [rest s''].
    simpl in *. destruct IH as (Hnd & Hfresh & Hlen).
    split; [|split; [|lia]].
    + constructor; [|exact Hnd]. intros Hin. apply (Hfresh a Hin).
      rewrite Hev. apply elem_of_union_l, elem_of_singleton_2. reflexivity.
    + intros b Hb. apply elem_of_cons in Hb. destruct Hb as [->|Hb]; [exact Hnin|].
      specialize (Hfresh b Hb). rewrite Hev in Hfresh.
      intros Hin. apply Hfresh, elem_of_union_r, Hin.
Qed.

Lemma ask_loop_break tries r arrivals s s' :
  ask_turn (arrivals r) s = (Break, s') ->
  ask_loop (S tries) r arrivals s = ([], s').
Proof. intros Ht. simpl. now rewrite Ht. Qed.

End AskAndTellFacts.

(** C1, as worded, fails: the set of evaluated points is rebuilt for
    every batch, so the point told at the start of the second batch is
    yielded again. *)
Lemma told_point_yielded_in_next_batch : ~ told_point_never_yielded_again.
Proof.
  intros H.
  specialize (H unit stuck_ask stuck_ask_n (fun _ _ _ sk => sk) (fun sk => sk) None
                (1%nat, fun _ => []) (1%nat, fun _ => [valid_result 3 1])
                (new_optimizer 1) tt [stuck_point] [stuck_point]
                {| Xi := [stuck_point]; yi := [1%Q]; void_loss := VOID;
                   void := VoidFalse; rs := 1 |} (valid_result 3 1)).
  apply H.
  - vm_compute. reflexivity.
  - apply list_elem_of_singleton. reflexivity.
  - intros Hv. vm_compute in Hv. discriminate Hv.
  - apply list_elem_of_singleton. reflexivity.
  - apply list_elem_of_singleton. reflexivity.
Qed.

(** C1, amended. One call of [opt_ask_and_tell] (one batch) never yields
    a point twice and yields at most [tries] points. In each turn, a
    point that is not in the evaluated set of this call is yielded; for
    one that is, [update_next] is called and one replacement is asked,
    which is yielded if it is new and ends the generator if it is not.
    The evaluated set starts empty in every call, so nothing is promised
    across batches. *)
Theorem opt_ask_and_tell_no_repeat (SK : Type) (sk_ask : SK -> Point * SK)
    (sk_ask_n : Z -> SK -> list Point * SK)
    (sk_tell : list Point -> list Q -> bool -> SK -> SK)
    (sk_update_next : SK -> SK) (ask_points : option Z) :
  (forall (tries : nat) (arrivals : nat -> list Trial) (o : Optimizer) (sk : SK)
          (results : list Trial),
      NoDup (opt_ask_and_tell sk_ask sk_ask_n sk_tell sk_update_next ask_points
               tries arrivals o sk results).1
      /\ (length (opt_ask_and_tell sk_ask sk_ask_n sk_tell sk_update_next ask_points
                    tries arrivals o sk results).1 <= tries)%nat)
  /\ (forall (vals : list Trial) (s s2 : AskState) (a : Point),
        point sk_ask sk_ask_n ask_points (tell_results sk_tell vals s) = (inr a, s2) ->
        (a ∉ evald s ->
           ask_turn sk_ask sk_ask_n sk_tell sk_update_next ask_points vals s
           = (Yield a, evald_add a s2))
        /\ (a ∈ evald s ->
            forall (a' : Point) (s3 : AskState),
              point sk_ask sk_ask_n ask_points (update_next sk_update_next s2)
              = (inr a', s3) ->
              (a' ∉ evald s ->
                 ask_turn sk_ask sk_ask_n sk_tell sk_update_next ask_points vals s
                 = (Yield a', evald_add a' s3))
              /\ (a' ∈ evald s ->
                  ask_turn sk_ask sk_ask_n sk_tell sk_update_next ask_points vals s
                  = (Break, s3))))
  /\ (forall (tries r : nat) (arrivals : nat -> list Trial) (s s' : AskState),
        ask_turn sk_ask sk_ask_n sk_tell sk_update_next ask_points (arrivals r) s
        = (Break, s') ->
        ask_loop sk_ask sk_ask_n sk_tell sk_update_next ask_points
                 (S tries) r arrivals s = ([], s')).
Proof.
  split; [|split].
  - intros tries arrivals o sk results. unfold opt_ask_and_tell.
    pose proof (ask_loop_distinct sk_ask sk_ask_n sk_tell sk_update_next ask_points
                  tries 0 arrivals
                  {| a_opt := o; a_sk := sk; to_ask := []; evald := ∅;
                     batch_results := results |}) as (Hnd & _ & Hlen).
    split; assumption.
  - intros vals s s2 a Hp.
    pose proof (ask_turn_cases sk_ask sk_ask_n sk_tell sk_update_next ask_points
                  vals s) as Hc.
    rewrite Hp in Hc. split.
    + intros Hnin. rewrite decide_False in Hc by exact Hnin. exact Hc.
    + intros Hin a' s3 Hp'. rewrite decide_True in Hc by exact Hin.
      rewrite Hp' in Hc. split.
      * intros Hnin. rewrite decide_False in Hc by exact Hnin. exact Hc.
      * intros Hin'. rewrite decide_True in Hc by exact Hin'. exact Hc.
  - intros tries r arrivals s s' Ht. now apply ask_loop_break.
Qed.

Lemma opt_ask_and_tell_no_repeat_witness :
  (opt_ask_and_tell stuck_ask stuck_ask_n (fun _ _ _ sk => sk) (fun sk => sk) None
     3 (fun _ => []) (new_optimizer 1) tt []).1 = [stuck_point]
  /\ NoDup (opt_ask_and_tell stuck_ask stuck_ask_n (fun _ _ _ sk => sk)
              (fun sk => sk) None 3 (fun _ => []) (new_optimizer 1) tt []).1.
Proof.
  split; [vm_compute; reflexivity|].
  apply (opt_ask_and_tell_no_repeat unit stuck_ask stuck_ask_n
           (fun _ _ _ sk => sk) (fun sk => sk) None).
Defined.

(** * The counters of the shared table *)

(** An entry of the table comes out of a turn as it went in, or not at
    all: the decremented counter is not stored. *)
Lemma get_past_point_entry (a : Point) (old : option Q) (t : SharedTable)
    (p : Point) (e : Q * Z) :
  points (get_past_point a old t).2 !! p = Some e -> points t !! p = Some e.
Proof.
  unfold get_past_point. destruct (points t !! a) as [[y counter]|] eqn:E; simpl.
  - destruct (counter - 1 <? 1); simpl; [|tauto].
    intros H. apply lookup_delete_Some in H. tauto.
  - tauto.
Qed.

Lemma get_past_point_counted (a : Point) (old : option Q) (t : SharedTable)
    (y : Q) (counter : Z) :
  points t !! a = Some (y, counter) -> 2 <= counter ->
  get_past_point a old t = (Some y, t).
Proof.
  intros E Hc. unfold get_past_point. rewrite E.
  destruct (counter - 1 <? 1) eqn:Hlt; [lia | reflexivity].
Qed.

Lemma opt_get_past_points_loop_entry (asked : list (Point * option Q))
    (t : SharedTable) (p : Point) (e : Q * Z) :
  points (opt_get_past_points_loop asked t).2 !! p = Some e ->
  points t !! p = Some e.
Proof.
  revert t. induction asked as [|[a old] rest IH]; intros t; simpl; [tauto|].
  pose proof (get_past_point_entry a old t p e) as H1.
  destruct (get_past_point a old t) as [y t1]. simpl in H1.
  specialize (IH t1). destruct (opt_get_past_points_loop rest t1) as [rest' t2].
  simpl in *. tauto.
Qed.

(** An entry whose counter is 2 or more is still there, with the same
    counter, however many times the point is fetched. *)
Lemma opt_get_past_points_loop_counted (asked : list (Point * option Q))
    (t : SharedTable) (p : Point) (y : Q) (counter : Z) :
  points t !! p = Some (y, counter) -> 2 <= counter ->
  points (opt_get_past_points_loop asked t).2 !! p = Some (y, counter).
Proof.
  revert t. induction asked as [|[a old] rest IH]; intros t E Hc; simpl; [exact E|].
  assert (H1 : points (get_past_point a old t).2 !! p = Some (y, counter)).
  { unfold get_past_point. destruct (points t !! a) as [[y' c']|] eqn:Ea; simpl; [|exact E].
    destruct (c' - 1 <? 1) eqn:Hlt; simpl; [|exact E].
    rewrite lookup_delete_ne; [exact E|]. intros ->. rewrite E in Ea.
    injection Ea as -> ->. lia. }
  destruct (get_past_point a old t) as [y1 t1]. simpl in H1.
  specialize (IH t1 H1 Hc). destruct (opt_get_past_points_loop rest t1) as [rest' t2].
  exact IH.
Qed.

(** C6, the code at the failing input: with three workers the entry is
    created with counter 2; each of the two peers fetches the loss, and
    after both have done so the entry is still in the table with counter
    2: the decrement is lost and the entry is never removed. *)
Theorem shared_counter_not_stored :
  points published !! seen_point = Some (1%Q, 2)
  /\ (opt_get_past_points false [(seen_point, None)] published).1.1
     = [(seen_point, Some 1%Q)]
  /\ points fetched_once !! seen_point = Some (1%Q, 2)
  /\ (opt_get_past_points false [(seen_point, None)] fetched_once).1.1
     = [(seen_point, Some 1%Q)]
  /\ points fetched_twice !! seen_point = Some (1%Q, 2).
Proof. repeat split; vm_compute; reflexivity. Qed.

(** * Setting up the optimizers in multi-optimizer mode *)

(** C5, as worded, fails: with two workers and one restored optimizer
    [setup_optimizers] returns, with two new optimizers in the queue. *)
Lemma mismatch_is_not_fatal : ~ mismatch_is_fatal.
Proof.
  intros H.
  destruct (H (fun k => Z.of_nat k + 10) two_workers_one_restored
              [POpt (new_optimizer 5)] eq_refl eq_refl) as [e He].
  - discriminate.
  - discriminate.
  - vm_compute in He. discriminate He.
Qed.

Example mismatch_queue :
  optimizers (setup_optimizers (fun k => Z.of_nat k + 10) two_workers_one_restored).1
  = [new_optimizer 10; new_optimizer 11].
Proof. vm_compute. reflexivity. Qed.

Lemma put_restored_returns (opts : list pickled) (r : list Z) (h : Hyperopt) :
  all_optimizers opts ->
  (put_restored opts r h).2 = inr (r ++ map rs (restored_of opts))
  /\ optimizers (put_restored opts r h).1
     = optimizers h ++ map opt_clear (restored_of opts)
  /\ setup_frame (put_restored opts r h).1 = setup_frame h.
Proof.
  revert r h. induction opts as [|[o|] opts IH]; intros r h Hall; simpl.
  - rewrite !app_nil_r. repeat split.
  - inversion Hall as [|? ? _ Hall']; subst. rewrite run_bind. cbn [modify].
    destruct (IH (r ++ [rs o]) (queue_put (opt_clear o) h) Hall') as (Hr & Hq & Hf).
    rewrite Hr, Hq, Hf. cbn. rewrite <- !app_assoc. repeat split.
  - inversion Hall as [|? ? Hne _]; subst. contradiction.
Qed.

Section SetupFacts.

Variable randint : nat -> Z.

Lemma put_fresh_returns (remaining k : nat) (r : list Z) (h : Hyperopt) :
  (put_fresh randint remaining k r h).2
    = inr (r ++ map randint (seq k remaining))
  /\ optimizers (put_fresh randint remaining k r h).1
     = optimizers h ++ map (fun j => new_optimizer (randint j)) (seq k remaining)
  /\ setup_frame (put_fresh randint remaining k r h).1 = setup_frame h.
Proof.
  revert k r h. induction remaining as [|n IH]; intros k r h; simpl.
  - rewrite !app_nil_r. repeat split.
  - rewrite run_bind. cbn [modify].
    destruct (IH (S k) (r ++ [randint k]) (queue_put (new_optimizer (randint k)) h))
      as (Hr & Hq & Hf).
    rewrite Hr, Hq, Hf. cbn. rewrite <- !app_assoc. repeat split.
Qed.

End SetupFacts.

Lemma set_all_empty {A} (k : Z) (d : PyDict.t Z (list A)) :
  Forall (fun kv => kv.2 = []) d -> Forall (fun kv => kv.2 = []) (PyDict.set k [] d).
Proof.
  induction d as [|[k' a'] d IH]; intros Hd; simpl.
  - repeat constructor.
  - inversion Hd as [|? ? Ha Hd']; subst.
    destruct (decide (k = k')); constructor; auto.
Qed.

Lemma update_all_empty {A} (r : list Z) (d : PyDict.t Z (list A)) :
  Forall (fun kv => kv.2 = []) d ->
  Forall (fun kv => kv.2 = []) (PyDict.update (map (fun k => (k, [])) r) d).
Proof.
  unfold PyDict.update. revert d. induction r as [|k r IH]; intros d Hd; simpl.
  - exact Hd.
  - apply IH. apply set_all_empty. exact Hd.
Qed.

Lemma results_of_all_empty (Xs : PyDict.t Z (list Point)) (ys : PyDict.t Z (list Q))
    (counter : Z) (acc : gmap Point (Q * Z)) :
  Forall (fun kv => kv.2 = []) Xs -> results_of Xs ys counter acc = inr acc.
Proof.
  induction Xs as [|[r X] Xs IH]; intros HX; simpl; [reflexivity|].
  inversion HX as [|? ? Hr HX']; subst. simpl in Hr. subst X. apply IH, HX'.
Qed.

Lemma restored_of_length (opts : list pickled) :
  all_optimizers opts -> length (restored_of opts) = length opts.
Proof.
  induction opts as [|[o|] opts IH]; intros Hall; simpl.
  - reflexivity.
  - inversion Hall; subst. f_equal. apply IH. assumption.
  - inversion Hall; subst. contradiction.
Qed.

Lemma load_previous_optimizers_returns (h : Hyperopt) :
  all_optimizers (default [] (opts_file h)) ->
  load_previous_optimizers h = (h, inr (default [] (opts_file h))).
Proof.
  intros Hall. unfold load_previous_optimizers. rewrite run_bind. simpl.
  destruct (last (default [] (opts_file h))) as [[o|]|] eqn:E; try reflexivity.
  apply last_Some in E. destruct E as [l' E]. rewrite E in Hall.
  apply Forall_app in Hall. destruct Hall as [_ Hall].
  inversion Hall; subst. contradiction.
Qed.

Lemma track_points_no_trials (h : Hyperopt) :
  trials h = [] -> track_points [] h = (h, inr tt).
Proof.
  intros Ht. unfold track_points. rewrite run_bind. simpl. rewrite Ht. reflexivity.
Qed.

Section SetupMulti.

Variable randint : nat -> Z.

(** After the queue is filled: the dictionaries, the table. *)
Lemma setup_tail_returns (r : list Z) (counter : Z) (h : Hyperopt) :
  trials h = [] -> self_Xi h = [] ->
  let tail : M unit :=
    modify (fun h => set_tracking
                       (PyDict.update (map (fun k => (k, [])) r) (self_Xi h))
                       (PyDict.update (map (fun k => (k, [])) r) (self_yi h))
                       r (results_shared h) h) ;;
    track_points [] ;;
    h' ← get;
    match results_of (self_Xi h') (self_yi h') counter ∅ with
    | inl e => raise e
    | inr results =>
        modify (set_tracking (self_Xi h') (self_yi h') r
                  (update_empty_tuple r {| points := results; per_opt := ∅ |}))
    end in
  (tail h).2 = inr tt /\ optimizers (tail h).1 = optimizers h.
Proof.
  intros Ht HX tail. subst tail. rewrite run_bind. cbn [modify].
  rewrite run_bind. rewrite track_points_no_trials by exact Ht.
  rewrite run_bind. cbn [get]. cbn [self_Xi set_tracking].
  rewrite results_of_all_empty.
  - split; reflexivity.
  - apply update_all_empty. rewrite HX. constructor.
Qed.

Lemma setup_optimizers_multi_returns (h : Hyperopt) (opts : list pickled) :
  all_optimizers opts -> trials h = [] -> optimizers h = [] -> self_Xi h = [] ->
  (setup_optimizers_multi randint opts h).2 = inr tt
  /\ (Z.of_nat (length opts) = (if shared h then 1 else n_jobs h) ->
      optimizers (setup_optimizers_multi randint opts h).1
      = map opt_clear (restored_of opts))
  /\ (Z.of_nat (length opts) ≠ (if shared h then 1 else n_jobs h) ->
      optimizers (setup_optimizers_multi randint opts h).1
      = map (fun k => new_optimizer (randint k))
            (seq 0 (Z.to_nat (if shared h then 1 else n_jobs h)))).
Proof.
  intros Hall Ht Hq HX. unfold setup_optimizers_multi.
  rewrite run_bind. cbn [get]. rewrite run_bind.
  set (max_opts := if shared h then 1 else n_jobs h).
  destruct (Z.of_nat (length opts) =? max_opts) eqn:E.
  - apply Z.eqb_eq in E.
    destruct (put_restored_returns opts [] h Hall) as (Hr & Hq1 & Hf).
    destruct (put_restored opts [] h) as [h1 res]. cbn [fst snd] in Hr, Hq1, Hf.
    subst res. unfold setup_frame in Hf.
    injection Hf as Ht1 HX1 Hy1 Hj1 Hs1 Hm1 Hc1.
    rewrite run_bind. cbn [get]. rewrite run_bind.
    assert (Hrem : (0 <? max_opts - Z.of_nat (length (optimizers h1))) = false).
    { rewrite Hq1, Hq. cbn [app]. rewrite length_map, restored_of_length by exact Hall.
      apply Z.ltb_ge. lia. }
    rewrite Hrem. cbn [mret M_ret].
    destruct (setup_tail_returns (map rs (restored_of opts)) (n_jobs h1) h1)
      as [H1 H2]; [congruence | congruence |].
    cbv zeta in H1, H2. split; [exact H1|]. split.
    + intros _. transitivity (optimizers h1); [exact H2|]. rewrite Hq1, Hq. reflexivity.
    + intros Hne. contradiction.
  - apply Z.eqb_neq in E. cbn [mret M_ret].
    rewrite run_bind. cbn [get]. rewrite run_bind.
    rewrite Hq. cbn [length]. rewrite Z.sub_0_r. fold max_opts.
    destruct (0 <? max_opts) eqn:Hpos.
    + destruct (put_fresh_returns randint (Z.to_nat max_opts) 0 [] h) as (Hr & Hq1 & Hf).
      destruct (put_fresh randint (Z.to_nat max_opts) 0 [] h) as [h1 res].
      cbn [fst snd] in Hr, Hq1, Hf. subst res. unfold setup_frame in Hf.
      injection Hf as Ht1 HX1 Hy1 Hj1 Hs1 Hm1 Hc1.
      destruct (setup_tail_returns (map randint (seq 0 (Z.to_nat max_opts)))
                  (n_jobs h) h1) as [H1 H2]; [congruence | congruence |].
      cbv zeta in H1, H2. split; [exact H1|]. split.
      * intros Heq. contradiction.
      * intros _. transitivity (optimizers h1); [exact H2|]. rewrite Hq1, Hq. reflexivity.
    + cbn [mret M_ret].
      destruct (setup_tail_returns [] (n_jobs h) h) as [H1 H2]; [assumption | assumption |].
      cbv zeta in H1, H2. split; [exact H1|]. split.
      * intros Heq. contradiction.
      * intros _. transitivity (optimizers h); [exact H2|]. rewrite Hq.
        apply Z.ltb_ge in Hpos.
        replace (Z.to_nat max_opts) with 0%nat by lia. reflexivity.
Qed.

End SetupMulti.

Lemma load_previous_optimizers_checks_last (h : Hyperopt) :
  last (default [] (opts_file h)) ≠ Some PForeign ->
  load_previous_optimizers h = (h, inr (default [] (opts_file h))).
Proof.
  intros Hl. unfold load_previous_optimizers. rewrite run_bind. cbn [get].
  destruct (last (default [] (opts_file h))) as [[o|]|]; try reflexivity.
  contradiction.
Qed.

(** An object that is not an optimizer stops the restore at
    [opts[n].rs]. *)
Lemma put_restored_foreign (opts : list pickled) (r : list Z) (h : Hyperopt) :
  Exists (fun p => p = PForeign) opts ->
  (put_restored opts r h).2 = inl AttributeError.
Proof.
  revert r h. induction opts as [|[o|] opts IH]; intros r h Hex.
  - inversion Hex.
  - cbn [put_restored]. rewrite run_bind. cbn [modify]. apply IH.
    inversion Hex as [? ? Hp | ? ? Hp]; subst; [discriminate Hp | exact Hp].
  - reflexivity.
Qed.

Section SetupCases.

Variable randint : nat -> Z.

(** A number of restored objects that is not the configured one:
    whatever they are, they are left out. *)
Lemma setup_optimizers_multi_mismatch (h : Hyperopt) (opts : list pickled) :
  trials h = [] -> optimizers h = [] -> self_Xi h = [] ->
  Z.of_nat (length opts) ≠ (if shared h then 1 else n_jobs h) ->
  (setup_optimizers_multi randint opts h).2 = inr tt
  /\ optimizers (setup_optimizers_multi randint opts h).1
     = map (fun k => new_optimizer (randint k))
           (seq 0 (Z.to_nat (if shared h then 1 else n_jobs h))).
Proof.
  intros Ht Hq HX Hne. unfold setup_optimizers_multi.
  rewrite run_bind. cbn [get]. rewrite run_bind.
  set (max_opts := if shared h then 1 else n_jobs h) in *.
  rewrite (proj2 (Z.eqb_neq _ _) Hne). cbn [mret M_ret].
  rewrite run_bind. cbn [get]. rewrite run_bind.
  rewrite Hq. cbn [length]. rewrite Z.sub_0_r. fold max_opts.
  destruct (0 <? max_opts) eqn:Hpos.
  - destruct (put_fresh_returns randint (Z.to_nat max_opts) 0 [] h) as (Hr & Hq1 & Hf).
    destruct (put_fresh randint (Z.to_nat max_opts) 0 [] h) as [h1 res].
    cbn [fst snd] in Hr, Hq1, Hf. subst res. unfold setup_frame in Hf.
    injection Hf as Ht1 HX1 Hy1 Hj1 Hs1 Hm1 Hc1.
    destruct (setup_tail_returns (map randint (seq 0 (Z.to_nat max_opts)))
                (n_jobs h) h1) as [H1 H2]; [congruence | congruence |].
    cbv zeta in H1, H2. split; [exact H1|].
    transitivity (optimizers h1); [exact H2|]. rewrite Hq1, Hq. reflexivity.
  - cbn [mret M_ret].
    destruct (setup_tail_returns [] (n_jobs h) h) as [H1 H2]; [assumption | assumption |].
    cbv zeta in H1, H2. split; [exact H1|].
    transitivity (optimizers h); [exact H2|]. rewrite Hq.
    apply Z.ltb_ge in Hpos.
    replace (Z.to_nat max_opts) with 0%nat by lia. reflexivity.
Qed.

Lemma setup_optimizers_multi_foreign (h : Hyperopt) (opts : list pickled) :
  Z.of_nat (length opts) = (if shared h then 1 else n_jobs h) ->
  Exists (fun p => p = PForeign) opts ->
  (setup_optimizers_multi randint opts h).2 = inl AttributeError.
Proof.
  intros Heq Hex. unfold setup_optimizers_multi.
  rewrite run_bind. cbn [get]. rewrite run_bind.
  rewrite (proj2 (Z.eqb_eq _ _) Heq).
  pose proof (put_restored_foreign opts [] h Hex) as Hp.
  destruct (put_restored opts [] h) as [h1 [e|r]]; cbn [snd] in Hp;
    [|discriminate Hp].
  injection Hp as ->. reflexivity.
Qed.

End SetupCases.

(** C5, amended. In multi-optimizer mode, as [start] calls it (no trial
    in memory, an empty queue, empty [self.Xi]), a number of restored
    objects that differs from the configured one ([n_jobs], or 1 in
    shared mode) never makes [setup_optimizers] raise: whatever the
    objects before the last, they are left out and the queue receives
    that many new optimizers. With the configured number, a file that
    holds optimizers only is restored: the queue receives them,
    cleared. The restore is fatal in two cases only: a file whose last
    object is not an optimizer ([OperationalException], nothing
    touched), and, with the configured number, another object that is
    not an optimizer ([AttributeError] when its [rs] is read). *)
Theorem setup_optimizers_mismatch_discards (randint : nat -> Z) (h : Hyperopt) :
  multi h = true ->
  trials h = [] -> optimizers h = [] -> self_Xi h = [] ->
  (last (default [] (opts_file h)) = Some PForeign ->
     setup_optimizers randint h = (h, inl OperationalException))
  /\ (last (default [] (opts_file h)) ≠ Some PForeign ->
      (Z.of_nat (length (default [] (opts_file h)))
         ≠ (if shared h then 1 else n_jobs h) ->
       (setup_optimizers randint h).2 = inr tt
       /\ optimizers (setup_optimizers randint h).1
          = map (fun k => new_optimizer (randint k))
                (seq 0 (Z.to_nat (if shared h then 1 else n_jobs h))))
      /\ (Z.of_nat (length (default [] (opts_file h)))
            = (if shared h then 1 else n_jobs h) ->
          all_optimizers (default [] (opts_file h)) ->
          (setup_optimizers randint h).2 = inr tt
          /\ optimizers (setup_optimizers randint h).1
             = map opt_clear (restored_of (default [] (opts_file h))))
      /\ (Z.of_nat (length (default [] (opts_file h)))
            = (if shared h then 1 else n_jobs h) ->
          Exists (fun p => p = PForeign) (default [] (opts_file h)) ->
          (setup_optimizers randint h).2 = inl AttributeError)).
Proof.
  intros Hm Ht Hq HX. split.
  - intros Hl. unfold setup_optimizers. rewrite run_bind.
    unfold load_previous_optimizers. rewrite run_bind. cbn [get]. rewrite Hl.
    reflexivity.
  - intros Hl.
    assert (Hrun : setup_optimizers randint h
                   = setup_optimizers_multi randint (default [] (opts_file h)) h).
    { unfold setup_optimizers.
      rewrite run_bind, load_previous_optimizers_checks_last by exact Hl.
      rewrite run_bind. cbn [get]. rewrite Hm. reflexivity. }
    rewrite Hrun. split; [|split].
    + intros Hne. apply setup_optimizers_multi_mismatch; assumption.
    + intros Heq Hall.
      destruct (setup_optimizers_multi_returns randint h (default [] (opts_file h))
                  Hall Ht Hq HX) as (Hr & Hsame & _).
      split; [exact Hr | exact (Hsame Heq)].
    + intros Heq Hex. apply setup_optimizers_multi_foreign; assumption.
Qed.

Lemma setup_optimizers_mismatch_discards_witness :
  ((setup_optimizers (fun k => Z.of_nat k + 10) two_workers_one_restored).2 = inr tt
   /\ optimizers (setup_optimizers (fun k => Z.of_nat k + 10)
                    two_workers_one_restored).1
      = [new_optimizer 10; new_optimizer 11])
  /\ (setup_optimizers (fun k => Z.of_nat k + 10) foreign_then_optimizer).2
     = inl AttributeError.
Proof.
  split.
  - destruct (setup_optimizers_mismatch_discards (fun k => Z.of_nat k + 10)
                two_workers_one_restored) as [_ H];
      [reflexivity | reflexivity | reflexivity | reflexivity |].
    destruct H as (Hne & _); [discriminate|].
    apply Hne. discriminate.
  - destruct (setup_optimizers_mismatch_discards (fun k => Z.of_nat k + 10)
                foreign_then_optimizer) as [_ H];
      [reflexivity | reflexivity | reflexivity | reflexivity |].
    destruct H as (_ & _ & Hf); [discriminate|].
    apply Hf; [reflexivity | constructor; reflexivity].
Defined.

(** * Factorials and binomial coefficients *)

Lemma factorial_pos (n : nat) : 0 < factorial n.
Proof. induction n as [|n IH]; simpl factorial; [lia|]. lia. Qed.

Lemma factorial_succ (n : nat) : factorial (S n) = (Z.of_nat n + 1) * factorial n.
Proof. cbn [factorial]. f_equal. lia. Qed.

Lemma pascal_above (n k : nat) : (n < k)%nat -> pascal n k = 0.
Proof.
  revert k. induction n as [|n IH]; intros [|k] Hlt; simpl; try lia.
  rewrite !IH by lia. reflexivity.
Qed.

Lemma pascal_factorial (n k : nat) :
  (k <= n)%nat ->
  pascal n k * (factorial (n - k) * factorial k) = factorial n.
Proof.
  revert k. induction n as [|n IH]; intros k Hk.
  - replace k with 0%nat by lia. reflexivity.
  - destruct k as [|k].
    + cbn [pascal]. rewrite Nat.sub_0_r. change (factorial 0) with 1. ring.
    + cbn [pascal]. replace (S n - S k)%nat with (n - k)%nat by lia.
      rewrite (factorial_succ n), (factorial_succ k).
      destruct (decide (k = n)) as [->|Hne].
      * rewrite (pascal_above n (S n)) by lia. pose proof (IH n (Nat.le_refl n)) as H1.
        rewrite Nat.sub_diag in *.
        transitivity ((Z.of_nat n + 1) * (pascal n n * (factorial 0 * factorial n)));
          [ring | rewrite H1; ring].
      * pose proof (IH k ltac:(lia)) as H1.
        pose proof (IH (S k) ltac:(lia)) as H2.
        rewrite (factorial_succ k) in H2.
        assert (Hf : factorial (n - k)
                     = (Z.of_nat n - Z.of_nat k) * factorial (n - S k)).
        { replace (n - k)%nat with (S (n - S k)) by lia.
          rewrite factorial_succ. f_equal. lia. }
        transitivity
          ((Z.of_nat k + 1) * (pascal n k * (factorial (n - k) * factorial k))
           + (Z.of_nat n - Z.of_nat k)
             * (pascal n (S k)
                * (factorial (n - S k) * ((Z.of_nat k + 1) * factorial k))));
          [rewrite Hf; ring | rewrite H1, H2; ring].
Qed.

Lemma pascal_pos (n k : nat) : (k <= n)%nat -> 1 <= pascal n k.
Proof.
  intros Hk. pose proof (pascal_factorial n k Hk) as H.
  pose proof (factorial_pos n). pose proof (factorial_pos k).
  pose proof (factorial_pos (n - k)). nia.
Qed.

(** * The float quotient of an exact division *)

Lemma py_int_inject (z : Z) : py_int (inject_Z z) = z.
Proof. unfold py_int, inject_Z. simpl. apply Z.quot_1_r. Qed.

Lemma div_exponent_exact (q b : Z) :
  1 <= q < 2 ^ 53 -> 0 < b -> div_exponent (q * b) b <= 0.
Proof.
  intros Hq Hb. unfold div_exponent.
  assert (Ha : 0 < q * b) by nia.
  pose proof (Z.log2_spec (q * b) Ha) as [Hla1 Hla2].
  pose proof (Z.log2_spec b Hb) as [Hlb1 Hlb2].
  pose proof (Z.log2_nonneg b) as Hlb0.
  assert (Hd0 : 0 <= Z.log2 (q * b) - Z.log2 b).
  { assert (Z.log2 b <= Z.log2 (q * b)) by (apply Z.log2_le_mono; nia). lia. }
  assert (Hd53 : Z.log2 (q * b) - Z.log2 b <= 53).
  { assert (Hlt : 2 ^ Z.log2 (q * b) < 2 ^ (Z.log2 b + 54)).
    { replace (Z.log2 b + 54) with (53 + Z.succ (Z.log2 b)) by lia.
      rewrite Z.pow_add_r by lia. nia. }
    apply Z.pow_lt_mono_r_iff in Hlt; lia. }
  set (d := Z.log2 (q * b) - Z.log2 b) in *.
  destruct (0 <=? d) eqn:E0; [|apply Z.leb_gt in E0; lia].
  destruct (b * 2 ^ d <=? q * b) eqn:Eab; [|lia].
  apply Z.leb_le in Eab.
  assert (d <= 52); [|lia].
  destruct (Z.le_gt_cases d 52) as [|Hgt]; [assumption|].
  assert (d = 53) by lia. subst d. rewrite H in Eab. nia.
Qed.

Lemma true_div_exact (q b : Z) :
  1 <= q < 2 ^ 53 -> 0 < b ->
  exists x : Q, true_div (q * b) b = Some x /\ py_int x = q.
Proof.
  intros Hq Hb. pose proof (div_exponent_exact q b Hq Hb) as He.
  unfold true_div. fold (div_exponent (q * b) b).
  set (e := div_exponent (q * b) b) in *. clearbody e.
  destruct (0 <=? e) eqn:E0.
  - apply Z.leb_le in E0. assert (e = 0) by lia. subst e.
    replace (b * 2 ^ 0) with b by (change (2 ^ 0) with 1; lia).
    rewrite Z.mod_mul, Z.div_mul by lia.
    replace (b <? 2 * 0) with false by (symmetry; apply Z.ltb_ge; lia).
    replace (b =? 2 * 0) with false by (symmetry; apply Z.eqb_neq; lia).
    cbn [andb]. change (2 ^ 0) with 1. rewrite Z.mul_1_r.
    exists (inject_Z q). split; [|apply py_int_inject].
    destruct (Qle_bool (inject_Z (2 ^ 1024)) (inject_Z q)) eqn:Eo; [|reflexivity].
    apply Qle_bool_iff in Eo. rewrite <- Zle_Qle in Eo.
    assert (2 ^ 53 < 2 ^ 1024) by (apply Z.pow_lt_mono_r; lia). lia.
  - apply Z.leb_gt in E0.
    assert (Hs : 0 < 2 ^ (- e)) by (apply Z.pow_pos_nonneg; lia).
    replace (q * b * 2 ^ (- e)) with (q * 2 ^ (- e) * b) by ring.
    rewrite Z.mod_mul, Z.div_mul by lia.
    replace (b <? 2 * 0) with false by (symmetry; apply Z.ltb_ge; lia).
    replace (b =? 2 * 0) with false by (symmetry; apply Z.eqb_neq; lia).
    cbn [andb].
    exists (Qmake (q * 2 ^ (- e)) (Z.to_pos (2 ^ (- e)))). split.
    + destruct (Qle_bool _ _) eqn:Eo; [|reflexivity].
      apply Qle_bool_iff in Eo. unfold Qle in Eo. cbn [Qnum Qden inject_Z] in Eo.
      rewrite Z2Pos.id in Eo by exact Hs.
      assert (2 ^ 53 < 2 ^ 1024) by (apply Z.pow_lt_mono_r; lia). nia.
    + unfold py_int. cbn [Qnum Qden]. rewrite Z2Pos.id by exact Hs.
      apply Z.quot_mul. lia.
Qed.

Lemma div_exponent_bounds (q b : Z) :
  1 <= q -> 0 < b ->
  2 ^ (div_exponent (q * b) b + 52) <= q < 2 ^ (div_exponent (q * b) b + 53).
Proof.
  intros Hq Hb. unfold div_exponent.
  assert (Ha : 0 < q * b) by nia.
  pose proof (Z.log2_spec (q * b) Ha) as [Hla1 Hla2].
  pose proof (Z.log2_spec b Hb) as [Hlb1 Hlb2].
  pose proof (Z.log2_nonneg b) as Hlb0.
  assert (Hd0 : 0 <= Z.log2 (q * b) - Z.log2 b).
  { assert (Z.log2 b <= Z.log2 (q * b)) by (apply Z.log2_le_mono; nia). lia. }
  set (d := Z.log2 (q * b) - Z.log2 b) in *.
  assert (Hla : Z.log2 (q * b) = d + Z.log2 b) by lia.
  rewrite Hla in Hla1, Hla2.
  replace (Z.succ (d + Z.log2 b)) with ((d + 1) + Z.log2 b) in Hla2 by lia.
  rewrite Z.pow_add_r in Hla1, Hla2 by lia.
  replace (Z.succ (Z.log2 b)) with (1 + Z.log2 b) in Hlb2 by lia.
  rewrite Z.pow_add_r in Hlb2 by lia. change (2 ^ 1) with 2 in Hlb2.
  assert (Hp : 0 < 2 ^ d) by (apply Z.pow_pos_nonneg; lia).
  assert (Hp1 : 2 ^ (d + 1) = 2 * 2 ^ d) by (rewrite Z.pow_add_r by lia; lia).
  replace (0 <=? d) with true by (symmetry; apply Z.leb_le; lia).
  destruct (b * 2 ^ d <=? q * b) eqn:Eab.
  - apply Z.leb_le in Eab.
    replace (d - 52 + 52) with d by lia. replace (d - 52 + 53) with (d + 1) by lia.
    split; nia.
  - apply Z.leb_gt in Eab.
    replace (d - 1 - 52 + 53) with d by lia. replace (d - 1 - 52 + 52) with (d - 1) by lia.
    assert (Hd1 : 1 <= d).
    { destruct (Z.eq_dec d 0) as [Hz|Hz]; [|lia]. rewrite Hz in Eab.
      change (2 ^ 0) with 1 in Eab. nia. }
    assert (Hp2 : 2 ^ d = 2 * 2 ^ (d - 1)).
    { replace d with (1 + (d - 1)) at 1 by lia. rewrite Z.pow_add_r by lia. reflexivity. }
    assert (0 < 2 ^ (d - 1)) by (apply Z.pow_pos_nonneg; lia).
    split; nia.
Qed.

Lemma true_div_near (q b : Z) (x : Q) :
  1 <= q -> 0 < b -> true_div (q * b) b = Some x ->
  2 ^ 53 * Z.abs (py_int x - q) <= q.
Proof.
  intros Hq Hb. pose proof (div_exponent_bounds q b Hq Hb) as [He1 He2].
  unfold true_div. fold (div_exponent (q * b) b).
  set (e := div_exponent (q * b) b) in *. clearbody e.
  destruct (0 <=? e) eqn:E0.
  - apply Z.leb_le in E0.
    assert (Hp : 0 < 2 ^ e) by (apply Z.pow_pos_nonneg; lia).
    replace (q * b) with (b * q) by ring.
    rewrite Z.div_mul_cancel_l, Z.mul_mod_distr_l by lia.
    pose proof (Z.div_mod q (2 ^ e) ltac:(lia)) as Hdm.
    pose proof (Z.mod_pos_bound q (2 ^ e) Hp) as Hrho.
    set (m0 := q / 2 ^ e) in *. set (rho := q mod 2 ^ e) in *.
    rewrite Z.pow_add_r in He1 by lia.
    set (m := if b * 2 ^ e <? 2 * (b * rho) then m0 + 1
              else if (b * 2 ^ e =? 2 * (b * rho)) && Z.odd m0 then m0 + 1
              else m0).
    assert (Hm : 2 * Z.abs (m * 2 ^ e - q) <= 2 ^ e).
    { subst m. destruct (b * 2 ^ e <? 2 * (b * rho)) eqn:E1.
      - apply Z.ltb_lt in E1. assert (2 ^ e < 2 * rho) by nia. nia.
      - apply Z.ltb_ge in E1. assert (2 * rho <= 2 ^ e) by nia.
        destruct ((b * 2 ^ e =? 2 * (b * rho)) && Z.odd m0) eqn:E2; [|nia].
        apply andb_true_iff in E2. destruct E2 as [E2 _].
        apply Z.eqb_eq in E2. assert (2 ^ e = 2 * rho) by nia. nia. }
    clearbody m.
    destruct (Qle_bool _ _); [discriminate|]. intros Hx. injection Hx as <-.
    rewrite py_int_inject. nia.
  - apply Z.leb_gt in E0.
    assert (Hs : 0 < 2 ^ (- e)) by (apply Z.pow_pos_nonneg; lia).
    replace (q * b * 2 ^ (- e)) with (q * 2 ^ (- e) * b) by ring.
    rewrite Z.mod_mul, Z.div_mul by lia.
    replace (b <? 2 * 0) with false by (symmetry; apply Z.ltb_ge; lia).
    replace (b =? 2 * 0) with false by (symmetry; apply Z.eqb_neq; lia).
    cbn [andb].
    destruct (Qle_bool _ _); [discriminate|]. intros Hx. injection Hx as <-.
    unfold py_int. cbn [Qnum Qden]. rewrite Z2Pos.id by exact Hs.
    rewrite Z.quot_mul by lia. rewrite Z.sub_diag. cbn. lia.
Qed.

(** * The search space size *)

Lemma binomial_pascal (n k : nat) :
  (k <= n)%nat -> binomial (Z.of_nat n) (Z.of_nat k) = pascal n k.
Proof.
  intros Hk. unfold binomial.
  replace (Z.of_nat n - Z.of_nat k) with (Z.of_nat (n - k)) by lia.
  rewrite !Nat2Z.id. rewrite <- (pascal_factorial n k Hk).
  apply Z.div_mul.
  pose proof (factorial_pos (n - k)). pose proof (factorial_pos k). nia.
Qed.

Lemma dim_entries_populated (d : Dimension) : populated d -> 1 <= dim_entries d.
Proof.
  destruct d as [n lo hi|n lo hi|n [|c cs]]; simpl; lia.
Qed.

Lemma n_parameters_from (dimensions : list Dimension) (acc : Z) :
  Forall populated dimensions ->
  acc + Z.of_nat (length dimensions)
  <= fold_left (fun n d => n + dim_entries d) dimensions acc.
Proof.
  revert acc. induction dimensions as [|d ds IH]; intros acc Hall; simpl.
  - lia.
  - inversion Hall as [|? ? Hd Hds]; subst.
    pose proof (dim_entries_populated d Hd). specialize (IH (acc + dim_entries d) Hds).
    lia.
Qed.

Lemma n_parameters_ge (dimensions : list Dimension) :
  Forall populated dimensions ->
  Z.of_nat (length dimensions) <= n_parameters dimensions.
Proof. intros Hall. apply (n_parameters_from dimensions 0 Hall). Qed.

(** C8, as worded, fails: 57 choose 25 is 9929472283517787, above 2^53,
    and the float division gives 9929472283517788. *)
Lemma size_rounded_above_2_53 : ~ size_is_binomial.
Proof.
  intros H. destruct (H wide_space) as [H1 | H1].
  - repeat constructor.
  - vm_compute in H1. discriminate H1.
  - vm_compute in H1. discriminate H1.
Qed.

(** C8, amended. [n_parameters] adds max(1, high - low) for an Integer,
    max(10, int(high - low)) for a Real, where the subtraction is exact
    on int bounds and a float subtraction, rounded, otherwise, and the
    number of categories for a Categorical. A Real whose difference
    leaves the floats raises [OverflowError], which is not caught. With
    no such Real and dimensions that each offer at least one value,
    [calc_epochs] does not raise: the search space size is the binomial
    coefficient n_parameters choose n_dimensions whenever that
    coefficient is below 2^53; above, the float division rounds it, and
    the size is within a 2^53-th of the coefficient; it is the VOID
    sentinel when the float division overflows. *)
Theorem search_space_size_binomial (dimensions : list Dimension) :
  (existsb dim_overflows dimensions = true ->
     calc_epochs_search_space_size dimensions = inl OverflowError)
  /\ (existsb dim_overflows dimensions = false ->
      Forall populated dimensions ->
      (exists size : Z, calc_epochs_search_space_size dimensions = inr size)
      /\ (binomial (n_parameters dimensions) (Z.of_nat (length dimensions)) < 2 ^ 53 ->
          calc_epochs_search_space_size dimensions
          = inr (binomial (n_parameters dimensions) (Z.of_nat (length dimensions))))
      /\ (forall x : Q,
            true_div (factorial (Z.to_nat (n_parameters dimensions)))
                     (factorial (Z.to_nat (n_parameters dimensions
                                           - Z.of_nat (length dimensions)))
                      * factorial (length dimensions)) = Some x ->
            exists size : Z,
              calc_epochs_search_space_size dimensions = inr size
              /\ 2 ^ 53
                   * Z.abs (size - binomial (n_parameters dimensions)
                                            (Z.of_nat (length dimensions)))
                 <= binomial (n_parameters dimensions) (Z.of_nat (length dimensions)))
      /\ (true_div (factorial (Z.to_nat (n_parameters dimensions)))
                   (factorial (Z.to_nat (n_parameters dimensions
                                         - Z.of_nat (length dimensions)))
                    * factorial (length dimensions)) = None ->
          calc_epochs_search_space_size dimensions = inr VOID_LOSS)).
Proof.
  split.
  { intros Ho. unfold calc_epochs_search_space_size. rewrite Ho. reflexivity. }
  intros Hfin Hall. pose proof (n_parameters_ge dimensions Hall) as Hge.
  unfold calc_epochs_search_space_size, py_factorial. rewrite Hfin.
  set (n := n_parameters dimensions) in *.
  set (k := length dimensions) in *.
  replace (n <? 0) with false by (symmetry; apply Z.ltb_ge; lia).
  replace (n - Z.of_nat k <? 0) with false by (symmetry; apply Z.ltb_ge; lia).
  replace (Z.of_nat k <? 0) with false by (symmetry; apply Z.ltb_ge; lia).
  rewrite Nat2Z.id.
  assert (Hk : (k <= Z.to_nat n)%nat) by lia.
  pose proof (binomial_pascal (Z.to_nat n) k Hk) as Hb.
  rewrite Z2Nat.id in Hb by lia.
  pose proof (pascal_pos (Z.to_nat n) k Hk) as Hpos.
  pose proof (pascal_factorial (Z.to_nat n) k Hk) as Hf.
  replace (Z.to_nat n - k)%nat with (Z.to_nat (n - Z.of_nat k)) in Hf by lia.
  assert (Hden : 0 < factorial (Z.to_nat (n - Z.of_nat k)) * factorial k).
  { pose proof (factorial_pos (Z.to_nat (n - Z.of_nat k))).
    pose proof (factorial_pos k). nia. }
  rewrite <- Hf, <- Hb.
  split; [|split; [|split]].
  - destruct (true_div _ _); eexists; reflexivity.
  - intros Hlt.
    destruct (true_div_exact (binomial n (Z.of_nat k))
                (factorial (Z.to_nat (n - Z.of_nat k)) * factorial k))
      as (x & Hx & Hi); [lia | exact Hden |].
    rewrite Hx, Hi. reflexivity.
  - intros x Hx. rewrite Hx. eexists. split; [reflexivity|].
    apply (true_div_near _ _ x) in Hx; [exact Hx | lia | exact Hden].
  - intros Ho. rewrite Ho. reflexivity.
Qed.

Lemma search_space_size_binomial_witness :
  calc_epochs_search_space_size two_integers = inr 105
  /\ calc_epochs_search_space_size one_real = inr 11
  /\ calc_epochs_search_space_size too_wide = inl OverflowError.
Proof.
  split; [|split].
  - destruct (search_space_size_binomial two_integers) as [_ H].
    destruct H as (_ & Hb & _); [reflexivity | repeat constructor |].
    rewrite Hb; [reflexivity|]. vm_compute. reflexivity.
  - destruct (search_space_size_binomial one_real) as [_ H].
    destruct H as (_ & Hb & _); [vm_compute; reflexivity | repeat constructor |].
    rewrite Hb; [vm_compute; reflexivity|]. vm_compute. reflexivity.
  - destruct (search_space_size_binomial too_wide) as [H _].
    apply H. vm_compute. reflexivity.
Defined.

(** 515 integer dimensions with 1030 entries: the division overflows. *)
Example overflow_is_void :
  calc_epochs_search_space_size (repeat (Integer "p" 0 2) 515) = inr VOID_LOSS.
Proof. vm_compute. reflexivity. Qed.

Example before_overflow :
  calc_epochs_search_space_size (repeat (Integer "p" 0 2) 514) <> inr VOID_LOSS.
Proof. vm_compute. discriminate. Qed.

(** * Results overwritten in place *)








(** * The best loss along a run *)

Lemma least_so_far_is_best (start : Q) (b : Budget) (ts : list Trial) (v : Trial) :
  least_so_far start b ts ->
  (is_best_loss v (current_best_loss b) = true
   <-> (loss v < start)%Q /\ Forall (fun u => (loss v < loss u)%Q) ts).
Proof.
  intros (Hs & Hall & Hatt). unfold is_best_loss. rewrite Qltb_lt. split.
  - intros Hlt. split; [lra|].
    eapply Forall_impl; [exact Hall|]. intros u Hu. simpl in Hu. lra.
  - intros [Hlt Hbefore]. destruct Hatt as [-> | (t & Hin & _ & <-)]; [exact Hlt|].
    rewrite Forall_forall in Hbefore. apply Hbefore, Hin.
Qed.

Lemma score_one_least (start : Q) (frame_start i : Z) (v : Trial) (b : Budget)
    (ts : list Trial) :
  least_so_far start b ts -> best_flags start ts ->
  least_so_far start (score_one frame_start i v (b, ts)).1
                     (score_one frame_start i v (b, ts)).2
  /\ best_flags start (score_one frame_start i v (b, ts)).2.
Proof.
  intros Hl Hf. pose proof (least_so_far_is_best start b ts v Hl) as Hbest.
  destruct Hl as (Hs & Hall & Hatt).
  unfold score_one. cbn [fst snd].
  set (best := is_best_loss v (current_best_loss b)) in *.
  set (v' := set_scored best (frame_start + i) v).
  assert (Hflags : best_flags start (ts ++ [v'])).
  { intros before after t Heq.
    induction after as [|a after _] using rev_ind.
    - apply app_inj_tail in Heq. destruct Heq as [<- <-]. exact Hbest.
    - change (before ++ t :: after ++ [a]) with (before ++ (t :: after) ++ [a]) in Heq.
      rewrite app_assoc in Heq. apply app_inj_tail in Heq. destruct Heq as [Hts _].
      apply (Hf before after t Hts). }
  split; [|exact Hflags]. unfold least_so_far.
  destruct best eqn:E.
  - unfold is_best_loss in E. apply Qltb_lt in E.
    rewrite update_max_epoch_best_loss. cbn [current_best_loss set_current_best_loss].
    change (loss v') with (loss v). split; [lra|]. split.
    + apply Forall_app. split.
      * eapply Forall_impl; [exact Hall|]. intros u Hu. simpl in Hu. lra.
      * constructor; [apply Qle_refl | constructor].
    + right. exists v'. split; [|split; reflexivity].
      apply elem_of_app. right. apply list_elem_of_singleton. reflexivity.
  - unfold is_best_loss in E. apply Qltb_ge in E. split; [exact Hs|]. split.
    + apply Forall_app. split; [exact Hall|]. constructor; [exact E | constructor].
    + destruct Hatt as [Heq | (t & Hin & Hb & Hlt)]; [left; exact Heq|].
      right. exists t. split; [|split; assumption].
      apply elem_of_app. left. exact Hin.
Qed.

Lemma score_batch_least (start : Q) (frame_start i0 : Z) (batch : list Trial)
    (b : Budget) (ts : list Trial) :
  least_so_far start b ts -> best_flags start ts ->
  least_so_far start (score_batch frame_start i0 batch (b, ts)).1
                     (score_batch frame_start i0 batch (b, ts)).2
  /\ best_flags start (score_batch frame_start i0 batch (b, ts)).2.
Proof.
  revert i0 b ts. induction batch as [|v batch IH]; intros i0 b ts Hl Hf;
    cbn [score_batch].
  - split; assumption.
  - pose proof (score_one_least start frame_start (i0 + 1) v b ts Hl Hf) as H.
    destruct (score_one frame_start (i0 + 1) v (b, ts)) as [b' ts'].
    destruct H as [H1 H2]. apply IH; assumption.
Qed.

Lemma log_results_least (start : Q) batch frame_start :
  preserves (least_in start) (log_results batch frame_start).
Proof.
  intros h [Hl Hf].
  destruct (log_results_scoring batch frame_start h) as [Ht Hbud].
  destruct (score_batch_least start frame_start 0 batch _ _ Hl Hf) as [Hl' Hf'].
  unfold least_in. rewrite Ht. split; [|exact Hf'].
  destruct Hbud as [-> | ->]; exact Hl'.
Qed.

Lemma run_batches_least (start : Q) batches epochs_so_far :
  preserves (least_in start) (run_batches epochs_so_far batches).
Proof.
  revert epochs_so_far. induction batches as [|batch rest IH]; intros e; simpl.
  - apply preserves_ret.
  - apply preserves_bind; [apply log_results_least | intros saved; apply IH].
Qed.

Lemma score_one_below (c : Q) frame_start i v b ts :
  (current_best_loss b <= c)%Q ->
  (current_best_loss (score_one frame_start i v (b, ts)).1 <= c)%Q.
Proof.
  intros Hc. unfold score_one, is_best_loss. cbn [fst].
  destruct (Qltb (loss v) (current_best_loss b)) eqn:E; [|exact Hc].
  apply Qltb_lt in E. rewrite update_max_epoch_best_loss. simpl. lra.
Qed.

Lemma score_batch_below (c : Q) frame_start i0 batch b ts :
  (current_best_loss b <= c)%Q ->
  (current_best_loss (score_batch frame_start i0 batch (b, ts)).1 <= c)%Q.
Proof.
  revert i0 b ts. induction batch as [|v batch IH]; intros i0 b ts Hc;
    cbn [score_batch]; [exact Hc|].
  pose proof (score_one_below c frame_start (i0 + 1) v b ts Hc) as H.
  destruct (score_one frame_start (i0 + 1) v (b, ts)) as [b' ts'].
  apply IH. exact H.
Qed.

Lemma log_results_below (c : Q) batch frame_start :
  preserves (fun h => (current_best_loss (budget h) <= c)%Q)
            (log_results batch frame_start).
Proof.
  intros h Hc. destruct (log_results_scoring batch frame_start h) as [_ Hbud].
  pose proof (score_batch_below c frame_start 0 batch _ (trials h) Hc) as Hb.
  destruct Hbud as [-> | ->]; exact Hb.
Qed.

(** X1. The best loss never goes up, whatever the batches and however the
    run ends. *)
Theorem best_loss_never_increases (h : Hyperopt) (batches : list (list Trial))
    (epochs_so_far : Z) :
  (current_best_loss (budget (run_batches epochs_so_far batches h).1)
   <= current_best_loss (budget h))%Q.
Proof.
  assert (Hp : forall e, preserves
            (fun h' => (current_best_loss (budget h') <= current_best_loss (budget h))%Q)
            (run_batches e batches)).
  { induction batches as [|batch rest IH]; intros e; simpl.
    - apply preserves_ret.
    - apply preserves_bind; [apply log_results_below | intros saved; apply IH]. }
  apply Hp. apply Qle_refl.
Qed.


(** X3. In a run that starts without trials, a recorded trial is flagged
    best exactly when its loss is strictly below the best loss the run
    started with and strictly below the loss of every trial recorded
    before it: of equal losses only the first can be best. *)
Theorem is_best_iff_strict_improvement (h : Hyperopt) (batches : list (list Trial))
    (epochs_so_far : Z) (before after : list Trial) (t : Trial) :
  trials h = [] ->
  trials (run_batches epochs_so_far batches h).1 = before ++ t :: after ->
  (is_best t = true
   <-> (loss t < current_best_loss (budget h))%Q
       /\ Forall (fun u => (loss t < loss u)%Q) before).
Proof.
  intros Ht Hsplit.
  assert (H0 : least_in (current_best_loss (budget h)) h).
  { unfold least_in, least_so_far, best_flags. rewrite Ht. split; [split; [|split]|].
    - apply Qle_refl.
    - constructor.
    - left. reflexivity.
    - intros b a u Heq. destruct b; discriminate Heq. }
  apply (run_batches_least _ batches epochs_so_far) in H0.
  destruct H0 as [_ Hflags]. apply (Hflags before after t Hsplit).
Qed.


Lemma is_best_iff_strict_improvement_witness :
  is_best (set_scored false 3 (valid_result 3 3)) = true
  <-> (3 < VOID)%Q
      /\ Forall (fun u => (3 < loss u)%Q)
                [set_scored true 1 (valid_result 1 5);
                 set_scored true 2 (valid_result 2 3)].
Proof.
  apply (is_best_iff_strict_improvement fresh_run
           [[valid_result 1 5; valid_result 2 3]; [valid_result 3 3]] 0
           [set_scored true 1 (valid_result 1 5); set_scored true 2 (valid_result 2 3)]
           [] (set_scored false 3 (valid_result 3 3))).
  - reflexivity.
  - vm_compute. reflexivity.
Defined.

(** * Epoch numbers *)

Lemma returns_only_bind {A B} (P : B -> Prop) (m : M A) (k : A -> M B) :
  (forall a, returns_only P (k a)) -> returns_only P (m ≫= k).
Proof.
  intros Hk h b. rewrite run_bind. destruct (m h) as [h' [e|a]]; simpl.
  - discriminate.
  - apply Hk.
Qed.

Lemma returns_only_ret {A} (P : A -> Prop) (a : A) : P a -> returns_only P (mret a).
Proof. intros HP h a' Ha. injection Ha as <-. exact HP. Qed.

Lemma log_results_returns_length (batch : list Trial) (frame_start : Z) :
  returns_only (fun i => i = Z.of_nat (length batch)) (log_results batch frame_start).
Proof.
  unfold log_results. apply returns_only_bind. intros h.
  destruct (score_batch frame_start 0 batch (budget h, trials h)) as [b ts].
  repeat (apply returns_only_bind; intros).
  apply returns_only_ret. reflexivity.
Qed.

Lemma score_batch_numbered (frame_start i0 : Z) (batch : list Trial) (b : Budget)
    (ts : list Trial) :
  frame_start + i0 = Z.of_nat (length ts) -> numbered ts ->
  numbered (score_batch frame_start i0 batch (b, ts)).2
  /\ length (score_batch frame_start i0 batch (b, ts)).2
     = (length ts + length batch)%nat.
Proof.
  revert i0 b ts. induction batch as [|v batch IH]; intros i0 b ts Hlen Hnum;
    cbn [score_batch].
  - split; [exact Hnum | simpl; lia].
  - destruct (score_one frame_start (i0 + 1) v (b, ts)) as [b' ts'] eqn:E.
    unfold score_one in E. injection E as _ <-.
    destruct (IH (i0 + 1) b'
                 (ts ++ [set_scored (is_best_loss v (current_best_loss b))
                                    (frame_start + (i0 + 1)) v])) as [Hn Hl].
    + rewrite length_app. simpl. lia.
    + intros k t Hk. destruct (decide (k < length ts)%nat) as [Hlt|Hge].
      * rewrite lookup_app_l in Hk by exact Hlt. apply Hnum, Hk.
      * rewrite lookup_app_r in Hk by lia.
        destruct (k - length ts)%nat as [|n] eqn:En; [|destruct n; discriminate Hk].
        injection Hk as <-. simpl. lia.
    + split; [exact Hn|]. rewrite Hl, length_app. simpl. lia.
Qed.

Lemma log_results_numbered (batch : list Trial) (h : Hyperopt) :
  numbered (trials h) ->
  numbered (trials (log_results batch (Z.of_nat (length (trials h))) h).1)
  /\ length (trials (log_results batch (Z.of_nat (length (trials h))) h).1)
     = (length (trials h) + length batch)%nat.
Proof.
  intros Hnum.
  destruct (log_results_scoring batch (Z.of_nat (length (trials h))) h) as [Ht _].
  rewrite Ht. apply score_batch_numbered; [lia | exact Hnum].
Qed.

(** X4. When [main_loop] starts from the number of trials recorded, the
    trial at position [k] of [self.trials] carries the epoch number
    [k + 1] after any number of batches, and the count the loop keeps is
    the number of trials recorded. *)
Theorem epochs_numbered_in_order (h : Hyperopt) (batches : list (list Trial))
    (epochs_so_far : Z) :
  epochs_so_far = Z.of_nat (length (trials h)) ->
  numbered (trials h) ->
  numbered (trials (run_batches epochs_so_far batches h).1)
  /\ (forall n : Z,
        (run_batches epochs_so_far batches h).2 = inr n ->
        n = Z.of_nat (length (trials (run_batches epochs_so_far batches h).1))).
Proof.
  revert h epochs_so_far. induction batches as [|batch rest IH];
    intros h e He Hnum; cbn [run_batches].
  - split; [exact Hnum|]. intros n Hn. injection Hn as <-. exact He.
  - rewrite run_bind. subst e.
    destruct (log_results_numbered batch h Hnum) as [Hn1 Hl1].
    pose proof (log_results_returns_length batch (Z.of_nat (length (trials h))) h) as Hr.
    destruct (log_results batch (Z.of_nat (length (trials h))) h) as [h1 [ex|saved]].
    + cbn [fst snd] in *. split; [exact Hn1 | discriminate].
    + cbn [fst snd] in *. specialize (Hr saved eq_refl). subst saved.
      apply IH; [rewrite Hl1; lia | exact Hn1].
Qed.

Lemma epochs_numbered_in_order_witness :
  0 = Z.of_nat (length (trials fresh_run))
  /\ numbered (trials (run_batches 0 [[valid_result 1 5; void_result 2];
                                      [valid_result 3 3]] fresh_run).1).
Proof.
  split; [reflexivity|].
  apply (epochs_numbered_in_order fresh_run
           [[valid_result 1 5; void_result 2]; [valid_result 3 3]] 0).
  - reflexivity.
  - intros k t Hk. destruct k; discriminate Hk.
Defined.

(** * The gaps between improvements *)

Lemma py_sum_from (l : list Z) (a : Z) : fold_left Z.add l a = a + py_sum l.
Proof.
  unfold py_sum. revert a. induction l as [|x l IH]; intros a; simpl; [lia|].
  rewrite IH, (IH (0 + x)). lia.
Qed.









(** * Resuming the best state *)

Lemma elem_of_insert_by_loss (t x : Trial) (l : list Trial) :
  x ∈ insert_by_loss t l <-> x = t \/ x ∈ l.
Proof.
  induction l as [|u l IH]; simpl.
  - rewrite list_elem_of_singleton, elem_of_nil. tauto.
  - destruct (Qltb (loss u) (loss t)).
    + rewrite !elem_of_cons, IH. tauto.
    + rewrite !elem_of_cons. tauto.
Qed.

Lemma elem_of_sorted_by_loss (x : Trial) (l : list Trial) :
  x ∈ sorted_by_loss l <-> x ∈ l.
Proof.
  induction l as [|t l IH]; simpl; [tauto|].
  rewrite elem_of_insert_by_loss, elem_of_cons, IH. tauto.
Qed.

(** The first element of the sorted list is the first of the least
    elements. *)
Lemma sorted_by_loss_head (before after : list Trial) (m : Trial) :
  Forall (fun u => (loss m < loss u)%Q) before ->
  Forall (fun u => (loss m <= loss u)%Q) after ->
  exists rest, sorted_by_loss (before ++ m :: after) = m :: rest.
Proof.
  intros Hb Ha. induction before as [|t before IH]; simpl.
  - destruct (sorted_by_loss after) as [|u s] eqn:E; simpl; [eexists; reflexivity|].
    assert (Hu : u ∈ after).
    { apply elem_of_sorted_by_loss. rewrite E. apply list_elem_of_here. }
    rewrite Forall_forall in Ha. specialize (Ha u Hu).
    replace (Qltb (loss u) (loss m)) with false by (symmetry; apply Qltb_ge; exact Ha).
    eexists. reflexivity.
  - inversion Hb as [|? ? Ht Hb']; subst. destruct (IH Hb') as [rest Hr].
    rewrite Hr. simpl.
    replace (Qltb (loss m) (loss t)) with true by (symmetry; apply Qltb_lt; exact Ht).
    eexists. reflexivity.
Qed.

Lemma filter_is_best_none (ts : list Trial) :
  Forall (fun t => is_best t = false) ts -> List.filter is_best ts = [].
Proof.
  induction ts as [|t ts IH]; intros H; simpl; [reflexivity|].
  inversion H as [|? ? Ht Hts]; subst. rewrite Ht. apply IH, Hts.
Qed.

Lemma Forall_filter_best (P : Trial -> Prop) (ts : list Trial) :
  Forall (fun u => is_best u = true -> P u) ts -> Forall P (List.filter is_best ts).
Proof.
  induction ts as [|t ts IH]; intros H; simpl; [constructor|].
  inversion H as [|? ? Ht Hts]; subst.
  destruct (is_best t) eqn:E; [constructor; auto | auto].
Qed.

(** X6. [setup_epochs] changes nothing and returns [False] when no trial in
    memory is flagged best. Otherwise it returns [True]: the best loss
    and the best epoch become those of the flagged trial with the least
    loss, the first one among equals, and [avg_best_occurrence] the
    number of trials divided by the number of flagged trials. *)
Theorem setup_epochs_resumes_least (h : Hyperopt) :
  (Forall (fun t => is_best t = false) (trials h) ->
     setup_epochs h = (h, inr false))
  /\ (forall (before after : list Trial) (best : Trial),
        trials h = before ++ best :: after ->
        is_best best = true ->
        Forall (fun u => is_best u = true -> (loss best < loss u)%Q) before ->
        Forall (fun u => is_best u = true -> (loss best <= loss u)%Q) after ->
        setup_epochs h
        = (set_scoring
             (set_resumed (current_epoch best) (loss best)
                (Z.of_nat (length (trials h))
                 / Z.of_nat (length (List.filter is_best (trials h))))
                (budget h))
             (trials h) h,
           inr true)).
Proof.
  split.
  - intros Hnone. unfold setup_epochs. rewrite run_bind. cbn [get].
    destruct (0 <? Z.of_nat (length (trials h))); [|reflexivity].
    rewrite filter_is_best_none by exact Hnone. reflexivity.
  - intros before after best Hsplit Hbest Hb Ha.
    unfold setup_epochs. rewrite run_bind. cbn [get].
    assert (Hf : List.filter is_best (trials h)
                 = List.filter is_best before ++ best :: List.filter is_best after).
    { rewrite Hsplit, List.filter_app. simpl. rewrite Hbest. reflexivity. }
    replace (0 <? Z.of_nat (length (trials h))) with true.
    2:{ symmetry. apply Z.ltb_lt. rewrite Hsplit, length_app. simpl. lia. }
    replace (0 <? Z.of_nat (length (List.filter is_best (trials h)))) with true.
    2:{ symmetry. apply Z.ltb_lt. rewrite Hf, length_app. simpl. lia. }
    destruct (sorted_by_loss_head (List.filter is_best before)
                (List.filter is_best after) best) as [rest Hr].
    + apply Forall_filter_best, Hb.
    + apply Forall_filter_best, Ha.
    + assert (Hs : sorted_by_loss (List.filter is_best (trials h)) = best :: rest)
        by (rewrite Hf; exact Hr).
      rewrite Hs. reflexivity.
Qed.

Lemma setup_epochs_resumes_least_witness :
  (setup_epochs resumed_run).2 = inr true
  /\ current_best_epoch (budget (setup_epochs resumed_run).1) = 3
  /\ avg_best_occurrence (budget (setup_epochs resumed_run).1) = 2.
Proof.
  destruct (setup_epochs_resumes_least resumed_run) as [_ H].
  rewrite (H [set_scored true 1 (valid_result 1 5); set_scored false 2 (void_result 2)]
             [set_scored false 4 (valid_result 4 2)]
             (set_scored true 3 (valid_result 3 2))).
  - repeat split.
  - reflexivity.
  - reflexivity.
  - repeat constructor; intros H'; first [discriminate H' | reflexivity].
  - repeat constructor; intros H'; first [discriminate H' | reflexivity].
Defined.

(** * Saving twice, saving and loading *)

Lemma save_opts_saved (h : Hyperopt) : saved (save_opts h).1 = saved h.
Proof. apply save_opts_keeps_saved. Qed.

(** What [_save_results] does to the results file and to the count. *)
Lemma _save_results_saved (h : Hyperopt) :
  saved (_save_results h).1
  = if Z.of_nat (length (epochs h)) >? num_epochs_saved h
    then (epochs h, Z.of_nat (length (epochs h)), Some (epochs h))
    else saved h.
Proof.
  unfold _save_results. rewrite run_bind. cbn [get].
  destruct (_ >? _); [|reflexivity].
  rewrite run_bind. cbn [modify]. rewrite save_opts_saved. reflexivity.
Qed.

(** X7. A second [_save_results] right after a first one does nothing,
    whether the first one returned or raised while saving the
    optimizers. *)
Theorem save_results_twice (h : Hyperopt) :
  _save_results (_save_results h).1 = ((_save_results h).1, inr tt).
Proof.
  pose proof (_save_results_saved h) as Hs.
  set (h1 := (_save_results h).1) in *. unfold saved in Hs.
  unfold _save_results at 1. rewrite run_bind. cbn [get].
  replace (Z.of_nat (length (epochs h1)) >? num_epochs_saved h1) with false;
    [reflexivity|].
  symmetry. rewrite Z.gtb_ltb. apply Z.ltb_ge.
  destruct (Z.of_nat (length (epochs h)) >? num_epochs_saved h) eqn:E.
  - injection Hs as -> -> _. lia.
  - injection Hs as -> -> _. rewrite Z.gtb_ltb in E. apply Z.ltb_ge in E. exact E.
Qed.

(** X8. When [self.epochs] holds more than the count saved so far,
    [_save_results] writes it whole and records its length; the list
    written is not empty, so [load_previous_results] reads it back as it
    is. *)
Theorem save_results_then_load (h : Hyperopt) :
  0 <= num_epochs_saved h < Z.of_nat (length (epochs h)) ->
  results_file (_save_results h).1 = Some (epochs h)
  /\ num_epochs_saved (_save_results h).1 = Z.of_nat (length (epochs h))
  /\ load_previous_results (fmap (map WithBest) (results_file (_save_results h).1))
     = inr (map WithBest (epochs h)).
Proof.
  intros Hlt. pose proof (_save_results_saved h) as Hs. unfold saved in Hs.
  replace (Z.of_nat (length (epochs h)) >? num_epochs_saved h) with true in Hs
    by (symmetry; rewrite Z.gtb_ltb; apply Z.ltb_lt; lia).
  injection Hs as _ Hn Hf. rewrite Hf, Hn. split; [reflexivity|]. split; [reflexivity|].
  destruct (epochs h) as [|t ts]; [simpl in Hlt; lia | reflexivity].
Qed.

Lemma save_results_then_load_witness :
  0 <= num_epochs_saved loaded_run < Z.of_nat (length (epochs loaded_run))
  /\ results_file (_save_results loaded_run).1 = Some (epochs loaded_run).
Proof.
  assert (H : 0 <= num_epochs_saved loaded_run < Z.of_nat (length (epochs loaded_run)))
    by (simpl; lia).
  split; [exact H|]. apply (save_results_then_load loaded_run H).
Defined.

(** The edge cases of loading: no file, a file holding an empty list, a
    first dictionary without [is_best]; later dictionaries are not
    looked at. *)
Example load_previous_results_edges :
  load_previous_results None = inr []
  /\ load_previous_results (Some []) = inl IndexError
  /\ load_previous_results (Some [WithoutBest (valid_result 1 5)])
     = inl OperationalException
  /\ load_previous_results
       (Some [WithBest (valid_result 1 5); WithoutBest (valid_result 2 3)])
     = inr [WithBest (valid_result 1 5); WithoutBest (valid_result 2 3)].
Proof. repeat split. Qed.

(** * Tracking the points of each optimizer *)

Lemma track_one_unknown (v : Trial) (h : Hyperopt) :
  PyDict.get (random_state v) (self_Xi h) = None ->
  track_one v h = (h, inl KeyError).
Proof. intros Hk. unfold track_one. rewrite run_bind. cbn [get]. now rewrite Hk. Qed.

Lemma track_one_known (v : Trial) (h : Hyperopt) (X : list Point) (y : list Q) :
  PyDict.get (random_state v) (self_Xi h) = Some X ->
  PyDict.get (random_state v) (self_yi h) = Some y ->
  track_one v h
  = (set_tracking (PyDict.set (random_state v) (X ++ [params_Xi v]) (self_Xi h))
                  (PyDict.set (random_state v) (y ++ [loss v]) (self_yi h))
                  (rngs h) (results_shared h) h,
     inr tt).
Proof.
  intros HX Hy. unfold track_one. rewrite run_bind. cbn [get]. rewrite HX.
  rewrite run_bind. cbn [modify]. cbn [self_yi set_tracking]. rewrite Hy. reflexivity.
Qed.

(** A turn of the loop either raises [KeyError] or returns, and it keeps
    the keys of [self.Xi]. *)
Lemma track_one_keys (v : Trial) (h : Hyperopt) (r : Z) :
  ((track_one v h).2 = inl KeyError \/ (track_one v h).2 = inr tt)
  /\ (PyDict.get r (self_Xi h) = None ->
      PyDict.get r (self_Xi (track_one v h).1) = None).
Proof.
  unfold track_one. rewrite run_bind. cbn [get].
  destruct (PyDict.get (random_state v) (self_Xi h)) as [X|] eqn:HX.
  - rewrite run_bind. cbn [modify]. cbn [self_yi set_tracking].
    destruct (PyDict.get (random_state v) (self_yi h)) as [y|]; cbn.
    + split; [right; reflexivity|]. intros Hr. rewrite get_set_ne; [exact Hr|].
      intros E. rewrite E in HX. congruence.
    + split; [left; reflexivity|]. intros Hr. rewrite get_set_ne; [exact Hr|].
      intros E. rewrite E in HX. congruence.
  - cbn. split; [left; reflexivity | tauto].
Qed.

Lemma for_each_track_unknown (ts : list Trial) (h : Hyperopt) :
  Exists (fun v => PyDict.get (random_state v) (self_Xi h) = None) ts ->
  (for_each ts track_one h).2 = inl KeyError.
Proof.
  revert h. induction ts as [|v ts IH]; intros h Hex; [inversion Hex|].
  cbn [for_each]. rewrite run_bind.
  destruct (track_one_keys v h 0) as [Hres _].
  destruct (track_one v h) as [h1 res] eqn:E. cbn [snd] in Hres.
  destruct Hres as [-> | ->]; [reflexivity|].
  apply IH. inversion Hex as [? ? Hv | ? ? Hts]; subst.
  - rewrite track_one_unknown in E by exact Hv. discriminate E.
  - eapply Exists_impl; [exact Hts|]. intros u Hu. simpl in Hu.
    pose proof (track_one_keys v h (random_state u)) as [_ Hk].
    rewrite E in Hk. apply Hk, Hu.
Qed.

(** X9. [track_points] on trials one of which carries a random state that is
    not a key of [self.Xi] raises [KeyError]: the [except IndexError]
    clause does not catch it. Called without trials while trials are in
    memory and [hyperopt_continue_filtered] is set, it raises
    [ValueError]; without trials in memory it does nothing. *)
Theorem track_points_errors (h : Hyperopt) :
  (forall arg : list Trial,
      Exists (fun v => PyDict.get (random_state v) (self_Xi h) = None) arg ->
      (track_points arg h).2 = inl KeyError)
  /\ (trials h ≠ [] -> hyperopt_continue_filtered h = true ->
      track_points [] h = (h, inl ValueError))
  /\ (trials h = [] -> track_points [] h = (h, inr tt)).
Proof.
  split; [|split].
  - intros arg Hex. unfold track_points. rewrite run_bind. cbn [get].
    destruct arg as [|v arg]; [inversion Hex|].
    apply for_each_track_unknown, Hex.
  - intros Hne Hf. unfold track_points. rewrite run_bind. cbn [get].
    destruct (trials h) as [|t ts]; [contradiction|]. rewrite Hf. reflexivity.
  - apply track_points_no_trials.
Qed.

Lemma for_each_track_appends (ts : list Trial) (h : Hyperopt) :
  Forall (tracked h) ts ->
  (for_each ts track_one h).2 = inr tt
  /\ tracking_frame (for_each ts track_one h).1 = tracking_frame h
  /\ forall r,
      PyDict.get r (self_Xi (for_each ts track_one h).1)
      = (fun X => X ++ map params_Xi (from_optimizer r ts)) <$> PyDict.get r (self_Xi h)
      /\ PyDict.get r (self_yi (for_each ts track_one h).1)
         = (fun y => y ++ map loss (from_optimizer r ts)) <$> PyDict.get r (self_yi h).
Proof.
  revert h. induction ts as [|v ts IH]; intros h Hall.
  - cbn. repeat split; destruct (PyDict.get r _); cbn; now rewrite ?app_nil_r.
  - inversion Hall as [|? ? [[X HX] [y Hy]] Hts]; subst.
    cbn [for_each]. rewrite run_bind, (track_one_known v h X y HX Hy).
    set (h1 := set_tracking _ _ _ _ h).
    assert (Hall1 : Forall (tracked h1) ts).
    { eapply Forall_impl; [exact Hts|]. intros u [HuX Huy]. split; cbn.
      - destruct (decide (random_state v = random_state u)) as [E|E].
        + rewrite <- E, get_set_eq. eauto.
        + rewrite get_set_ne by exact E. exact HuX.
      - destruct (decide (random_state v = random_state u)) as [E|E].
        + rewrite <- E, get_set_eq. eauto.
        + rewrite get_set_ne by exact E. exact Huy. }
    destruct (IH h1 Hall1) as (Hres & Hframe & Hget).
    split; [exact Hres|]. split; [rewrite Hframe; reflexivity|].
    intros r. destruct (Hget r) as [HrX Hry]. rewrite HrX, Hry.
    cbn [self_Xi self_yi h1 set_tracking].
    unfold from_optimizer. cbn [List.filter].
    destruct (decide (random_state v = r)) as [E|E].
    + rewrite bool_decide_eq_true_2 by exact E. subst r.
      rewrite !get_set_eq, HX, Hy. cbn. now rewrite <- !app_assoc.
    + rewrite bool_decide_eq_false_2 by exact E.
      rewrite !get_set_ne by exact E. split; reflexivity.
Qed.

(** X10. [track_points] on trials whose random states are keys of [self.Xi]
    and [self.yi] returns, touches nothing but the two dicts, and extends
    the lists of each random state with the parameters and the losses of
    its own trials, in their order; the two lists grow by the same
    number. *)
Theorem track_points_appends (h : Hyperopt) (arg : list Trial) :
  arg ≠ [] ->
  Forall (tracked h) arg ->
  (track_points arg h).2 = inr tt
  /\ tracking_frame (track_points arg h).1 = tracking_frame h
  /\ forall r,
      PyDict.get r (self_Xi (track_points arg h).1)
      = (fun X => X ++ map params_Xi (from_optimizer r arg)) <$> PyDict.get r (self_Xi h)
      /\ PyDict.get r (self_yi (track_points arg h).1)
         = (fun y => y ++ map loss (from_optimizer r arg)) <$> PyDict.get r (self_yi h).
Proof.
  intros Hne Hall. unfold track_points. rewrite run_bind. cbn [get].
  destruct arg as [|v arg]; [contradiction|].
  apply for_each_track_appends, Hall.
Qed.

Lemma track_points_errors_witness :
  (track_points [valid_result 3 (1 # 2)] fresh_run).2 = inl KeyError
  /\ track_points [] filtered_run = (filtered_run, inl ValueError)
  /\ track_points [] fresh_run = (fresh_run, inr tt).
Proof.
  split; [|split].
  - destruct (track_points_errors fresh_run) as (H & _ & _).
    apply H. constructor. reflexivity.
  - destruct (track_points_errors filtered_run) as (_ & H & _).
    apply H; [discriminate | reflexivity].
  - destruct (track_points_errors fresh_run) as (_ & _ & H).
    apply H. reflexivity.
Defined.

Lemma track_points_appends_witness :
  PyDict.get 1 (self_Xi (track_points [valid_result 3 (1 # 2); void_result 4]
                           tracking_run).1)
  = Some [[VInt 3]; [VInt 4]]
  /\ PyDict.get 1 (self_yi (track_points [valid_result 3 (1 # 2); void_result 4]
                              tracking_run).1)
     = Some [1 # 2; VOID].
Proof.
  destruct (track_points_appends tracking_run
              [valid_result 3 (1 # 2); void_result 4]) as (_ & _ & H).
  - discriminate.
  - repeat constructor; cbn; eauto.
  - destruct (H 1) as [HX Hy]. rewrite HX, Hy. split; reflexivity.
Defined.

(** * Batch lengths *)

Lemma padded_eq (b : Budget) (jobs : Z) :
  jobs ≠ 0 -> occurrence b + jobs - occurrence b mod jobs = padded b jobs.
Proof.
  intros Hj. unfold padded.
  pose proof (Z.div_mod (occurrence b) jobs Hj). lia.
Qed.

(** X11. While the epochs limit is out of reach the batch length is
    [occurrence] padded to the number of workers: the least multiple of
    [jobs] strictly above it, so that a whole round of workers is added
    when [occurrence] is a multiple already. [occurrence] is
    int(avg_best_occurrence * max(1, effort)), the product being exact
    when the factor is an int and the float product, rounded to the
    nearest double, when it is a float (within the floats: beyond,
    int() raises). *)
Theorem batch_length_padded (b : Budget) (jobs opt_points epochs_so_far : Z) :
  0 < jobs ->
  occurrence_overflows b = false ->
  epochs_so_far + padded b jobs * opt_points < epochs_limit b ->
  batch_length b jobs opt_points epochs_so_far = Some (padded b jobs)
  /\ occurrence b < padded b jobs <= occurrence b + jobs
  /\ (forall m, occurrence b < jobs * m -> padded b jobs <= jobs * m)
  /\ (forall m : Z, max_1 (effort b) = PyInt m ->
        occurrence b = avg_best_occurrence b * m).
Proof.
  intros Hj _ Hlim. split; [|split; [|split]].
  - unfold batch_length. fold (occurrence b).
    rewrite (proj2 (Z.eqb_neq jobs 0)) by lia.
    rewrite padded_eq by lia.
    rewrite (proj2 (Z.leb_gt _ _)) by exact Hlim. reflexivity.
  - rewrite <- padded_eq by lia.
    pose proof (Z.mod_pos_bound (occurrence b) jobs Hj). lia.
  - intros m Hm. unfold padded.
    assert (occurrence b / jobs < m).
    { apply Z.div_lt_upper_bound; [exact Hj | exact Hm]. }
    nia.
  - intros m Hm. unfold occurrence, occurrence_product. rewrite Hm.
    cbn [py_mul]. unfold int_of, py_int. cbn. apply Z.quot_1_r.
Qed.

(** X12. Near the limit the batch length is the quotient plus the remainder
    of the epochs left by [opt_points]: the batch covers the epochs
    left, and ends on the limit when each dispatch gives one point (or
    when [opt_points] divides the epochs left); otherwise it goes over
    the limit by the remainder times [opt_points - 1]. *)
Theorem batch_length_capped (b : Budget) (jobs opt_points epochs_so_far : Z) :
  0 < jobs -> 0 < opt_points ->
  epochs_limit b <= epochs_so_far + padded b jobs * opt_points ->
  exists n,
    batch_length b jobs opt_points epochs_so_far = Some n
    /\ n * opt_points
       = epochs_limit b - epochs_so_far
         + (epochs_limit b - epochs_so_far) mod opt_points * (opt_points - 1)
    /\ epochs_limit b - epochs_so_far <= n * opt_points
    /\ (opt_points = 1 -> epochs_so_far + n = epochs_limit b).
Proof.
  intros Hj Hp Hlim.
  set (left := epochs_limit b - epochs_so_far).
  exists (left / opt_points + left mod opt_points).
  assert (Hdm : left = opt_points * (left / opt_points) + left mod opt_points)
    by (apply Z.div_mod; lia).
  pose proof (Z.mod_pos_bound left opt_points Hp) as Hr.
  split; [|split; [|split]].
  - unfold batch_length. fold (occurrence b).
    rewrite (proj2 (Z.eqb_neq jobs 0)) by lia.
    rewrite padded_eq by lia.
    rewrite (proj2 (Z.leb_le _ _)) by exact Hlim.
    rewrite (proj2 (Z.eqb_neq opt_points 0)) by lia. reflexivity.
  - nia.
  - nia.
  - intros ->. rewrite Z.mod_1_r, Z.div_1_r. unfold left. lia.
Qed.

Lemma batch_length_padded_witness :
  batch_length float_effort_average 2 1 0 = Some 8
  /\ occurrence float_effort_average = 6
  /\ batch_length (set_occurrence [] 4 0 100 (init_budget 1 0)) 4 1 0 = Some 8.
Proof.
  split; [|split].
  - destruct (batch_length_padded float_effort_average 2 1 0) as (H & _).
    + lia.
    + reflexivity.
    + vm_compute. reflexivity.
    + exact H.
  - reflexivity.
  - destruct (batch_length_padded (set_occurrence [] 4 0 100 (init_budget 1 0)) 4 1 0)
      as (H & _).
    + lia.
    + reflexivity.
    + vm_compute. reflexivity.
    + exact H.
Defined.

Lemma batch_length_capped_witness :
  exists n,
    batch_length (set_occurrence [] 4 0 100 (init_budget 1 0)) 4 4 85 = Some n
    /\ n * 4 = 24.
Proof.
  destruct (batch_length_capped (set_occurrence [] 4 0 100 (init_budget 1 0)) 4 4 85)
    as (n & H & Hn & _).
  - lia.
  - lia.
  - vm_compute. discriminate.
  - exists n. split; [exact H | exact Hn].
Defined.

(** * The main loop *)

Lemma score_batch_total_epochs (frame_start i0 : Z) (batch : list Trial) (b : Budget)
    (ts : list Trial) :
  total_epochs (score_batch frame_start i0 batch (b, ts)).1 = total_epochs b
  /\ length (score_batch frame_start i0 batch (b, ts)).2
     = (length ts + length batch)%nat.
Proof.
  revert i0 b ts. induction batch as [|v batch IH]; intros i0 b ts; cbn [score_batch].
  - split; [reflexivity | simpl; lia].
  - unfold score_one.
    match goal with |- context [score_batch _ _ _ (?b', ?ts')] =>
      destruct (IH (i0 + 1) b' ts') as [Hb Hl]
    end.
    rewrite Hb, Hl, length_app. split; [|simpl; lia].
    destruct (is_best_loss v (current_best_loss b)); [|reflexivity].
    unfold update_max_epoch. destruct (is_initial_point _); [reflexivity|].
    cbv zeta. destruct (overflows _ _ _); reflexivity.
Qed.

(** The trials and the epochs setting after [log_results], whether it
    returns or raises. *)
Lemma log_results_total_epochs (batch : list Trial) (frame_start : Z) (h : Hyperopt) :
  total_epochs (budget (log_results batch frame_start h).1) = total_epochs (budget h)
  /\ length (trials (log_results batch frame_start h).1)
     = (length (trials h) + length batch)%nat.
Proof.
  destruct (log_results_scoring batch frame_start h) as [Ht Hb].
  destruct (score_batch_total_epochs frame_start 0 batch (budget h) (trials h))
    as [Hb' Hl].
  rewrite Ht, Hl. split; [|reflexivity].
  destruct Hb as [-> | ->]; [exact Hb' | simpl; exact Hb'].
Qed.

(** With one point per dispatch a batch never passes the limit. *)
Lemma batch_length_one (b : Budget) (jobs epochs_so_far n : Z) :
  batch_length b jobs 1 epochs_so_far = Some n ->
  epochs_so_far + n <= epochs_limit b.
Proof.
  unfold batch_length. destruct (jobs =? 0); [discriminate|].
  destruct (_ <=? _) eqn:Hc.
  - cbn. rewrite Z.mod_1_r, Z.div_1_r. intros [= <-]. lia.
  - intros [= <-]. apply Z.leb_gt in Hc. lia.
Qed.

Lemma epochs_limit_total (b : Budget) :
  total_epochs b ≠ 0 -> epochs_limit b = total_epochs b.
Proof.
  intros H. unfold epochs_limit. now rewrite (proj2 (Z.eqb_neq _ _)) by exact H.
Qed.

Section WithinEpochs.

Variable dispatch :
  nat -> Z -> Z -> Hyperopt ->
  (option Optimizer * list Optimizer * SharedTable) * list Trial.
Variable jobs : Z.

(** The workers return no more results than the batch asks for. *)
Hypothesis dispatch_length :
  forall turn batch_len epochs_so_far h,
    Z.of_nat (length (dispatch turn batch_len epochs_so_far h).2) <= Z.max batch_len 0.

Lemma main_loop_from_within (fuel turn : nat) (prev_batch epochs_so_far : Z)
    (h : Hyperopt) :
  total_epochs (budget h) ≠ 0 ->
  epochs_so_far = Z.of_nat (length (trials h)) ->
  epochs_so_far <= total_epochs (budget h) ->
  Z.of_nat (length (trials (main_loop_from dispatch jobs 1 fuel turn prev_batch
                                           epochs_so_far h).1))
  <= total_epochs (budget h)
  /\ total_epochs (budget (main_loop_from dispatch jobs 1 fuel turn prev_batch
                                          epochs_so_far h).1)
     = total_epochs (budget h).
Proof.
  revert turn prev_batch epochs_so_far h.
  induction fuel as [|fuel IH]; intros turn prev_batch epochs_so_far h HT Hlen Hle;
    cbn [main_loop_from].
  - simpl. split; [lia | reflexivity].
  - destruct (_ || _); [|simpl; split; [lia | reflexivity]].
    destruct (occurrence_overflows (budget h)); [simpl; split; [lia | reflexivity]|].
    destruct (batch_length (budget h) jobs 1 epochs_so_far) as [batch_len|] eqn:Ebl;
      [|simpl; split; [lia | reflexivity]].
    apply batch_length_one in Ebl. rewrite epochs_limit_total in Ebl by exact HT.
    pose proof (dispatch_length turn batch_len epochs_so_far h) as Hd.
    destruct (dispatch turn batch_len epochs_so_far h) as [[[o q] t] batch_results].
    cbn [snd] in Hd.
    pose proof (log_results_total_epochs batch_results epochs_so_far
                  (set_dispatched o q t h)) as [Hb Hl].
    pose proof (log_results_returns_length batch_results epochs_so_far
                  (set_dispatched o q t h)) as Hret.
    destruct (log_results batch_results epochs_so_far (set_dispatched o q t h))
      as [h' [e|saved]]; cbn [fst snd] in Hb, Hl, Hret.
    + simpl. cbn in Hb, Hl. rewrite Hl. split; [lia | exact Hb].
    + cbn in Hb, Hl. specialize (Hret saved eq_refl).
      assert (Hfin : Z.of_nat (length (trials h')) <= total_epochs (budget h))
        by (rewrite Hl; lia).
      destruct (stops _ _ _ _); [simpl; split; [exact Hfin | exact Hb]|].
      destruct (max_epoch_reached (budget h')); [simpl; split; [exact Hfin | exact Hb]|].
      rewrite <- Hb.
      apply IH; [rewrite Hb; exact HT | rewrite Hl; lia | rewrite Hb; lia].
Qed.

End WithinEpochs.

(** X13. With a fixed number of epochs configured, one point per dispatch and
    workers that return no more results than a batch asks for, the main
    loop never records more trials than the epochs configured, however it
    ends: by a break, by an exception of [log_results], by a division
    by zero or by an overflow of the float product. *)
Theorem main_loop_within_epochs
    (dispatch : nat -> Z -> Z -> Hyperopt ->
                (option Optimizer * list Optimizer * SharedTable) * list Trial)
    (jobs : Z) (fuel : nat) (h : Hyperopt) :
  (forall turn batch_len epochs_so_far h,
      Z.of_nat (length (dispatch turn batch_len epochs_so_far h).2)
      <= Z.max batch_len 0) ->
  total_epochs (budget h) ≠ 0 ->
  Z.of_nat (length (trials h)) <= total_epochs (budget h) ->
  Z.of_nat (length (trials (main_loop dispatch jobs 1 fuel h).1))
  <= total_epochs (budget h).
Proof.
  intros Hd HT Hle. unfold main_loop.
  apply main_loop_from_within; [exact Hd | exact HT | reflexivity | exact Hle].
Qed.

Lemma main_loop_within_epochs_witness :
  Z.of_nat (length (trials (main_loop full_dispatch 2 1 10 seven_epochs).1)) <= 7.
Proof.
  apply (main_loop_within_epochs full_dispatch 2 10 seven_epochs).
  - intros turn batch_len epochs_so_far h. unfold full_dispatch. cbn [snd].
    rewrite repeat_length. lia.
  - discriminate.
  - simpl. lia.
Defined.

Example seven_epochs_run :
  length (trials (main_loop full_dispatch 2 1 10 seven_epochs).1) = 7%nat
  /\ (main_loop full_dispatch 2 1 10 seven_epochs).2 = Stopped.
Proof. vm_compute. split; reflexivity. Qed.

(** X14. [log_results] returns the length of the batch, so that after a
    batch with a result the two [not saved] tests of the break condition
    never fire: the loop is left there only on a batch length below 1. *)
Theorem break_test_on_results (batch : list Trial) (frame_start saved batch_len : Z)
    (h : Hyperopt) (b : Budget) :
  (log_results batch frame_start h).2 = inr saved ->
  batch ≠ [] ->
  stops saved (Z.of_nat (length batch)) batch_len b = (batch_len <? 1).
Proof.
  intros Hret Hne. apply (log_results_returns_length batch frame_start h) in Hret.
  subst saved. unfold stops.
  assert (Hpos : (Z.of_nat (length batch) =? 0) = false).
  { apply Z.eqb_neq. destruct batch; [contradiction | simpl; lia]. }
  rewrite Hpos. cbn. now rewrite orb_false_r.
Qed.

Lemma break_test_on_results_witness :
  stops 1 1 4 (init_budget 1 7) = false.
Proof.
  apply (break_test_on_results [valid_result 1 (1 # 2)] 0 1 4 seven_epochs
           (init_budget 1 7)).
  - vm_compute. reflexivity.
  - discriminate.
Defined.

(** * Settings *)

(** X15. Whatever the configuration holds, [setup_multi] leaves at least one
    point per ask; [ask_points] is [None] exactly when that is one point
    and is the number of points, at least 2, otherwise; [opt_points] is
    the product of workers and points (the [or 1] never applies); the
    shared mode is a multi mode; the effort is at least [0.01]; the
    estimator is the dummy one exactly when fewer than 1 point was asked
    for; and a negative or absent number of workers becomes at least 1. *)
Theorem setup_multi_settings (c : Config) :
  1 <= s_n_points (setup_multi c)
  /\ (s_ask_points (setup_multi c) = None <-> s_n_points (setup_multi c) = 1)
  /\ (forall n, s_ask_points (setup_multi c) = Some n ->
                n = s_n_points (setup_multi c) /\ 2 <= n)
  /\ s_opt_points (setup_multi c) = s_n_jobs (setup_multi c) * s_n_points (setup_multi c)
  /\ (s_shared (setup_multi c) = true -> s_multi (setup_multi c) = true)
  /\ (float_0_01 <= s_effort (setup_multi c))%Q
  /\ (s_base_estimator (setup_multi c) = DUMMY <-> default 1 (cfg_n_points c) < 1)
  /\ (default (-1) (cfg_hyperopt_jobs c) < 0 -> 0 <= cpu_count c ->
      1 <= s_n_jobs (setup_multi c)).
Proof.
  unfold setup_multi. cbn [s_n_points s_ask_points s_opt_points s_n_jobs s_shared
                           s_multi s_effort s_base_estimator].
  set (n := default 1 (cfg_n_points c)).
  set (j := default (-1) (cfg_hyperopt_jobs c)).
  assert (Hn : 1 <= (if n <? 1 then 1 else n)).
  { destruct (Z.ltb_spec n 1); lia. }
  split; [exact Hn|].
  split.
  { destruct (Z.ltb_spec (if n <? 1 then 1 else n) 2); split;
      first [lia | discriminate | reflexivity]. }
  split.
  { destruct (Z.ltb_spec (if n <? 1 then 1 else n) 2); [discriminate|].
    intros m [= <-]. split; [reflexivity | assumption]. }
  split.
  { unfold py_or at 2.
    rewrite (proj2 (Z.eqb_neq (if n <? 1 then 1 else n) 0)) by lia. reflexivity. }
  split.
  { intros ->. apply orb_true_r. }
  split.
  { destruct (Qltb float_0_01 _) eqn:E.
    - apply Qltb_lt in E. lra.
    - lra. }
  split.
  { destruct (Z.ltb_spec n 1); split; try lia; try reflexivity.
    destruct (_ || _); [destruct (bool_decide _)|]; discriminate. }
  intros Hj Hc. rewrite (proj2 (Z.ltb_lt j 0)) by exact Hj.
  unfold py_or. destruct (Z.eqb_spec (cpu_count c / 2) 0); [lia|].
  pose proof (Z.div_pos (cpu_count c) 2 Hc). lia.
Qed.

Lemma setup_multi_settings_witness :
  s_base_estimator (setup_multi random_search) = DUMMY
  /\ 1 <= s_n_jobs (setup_multi random_search).
Proof.
  destruct (setup_multi_settings random_search) as (_ & _ & _ & _ & _ & _ & Hd & Hj).
  split.
  - apply Hd. simpl. lia.
  - apply Hj; simpl; lia.
Defined.

(** * What the optimizer is told *)

Lemma default_void_no_void (l : Q) (vals : list Trial) :
  ~ (l == VOID)%Q -> no_void (map loss (map (default_void l) vals)).
Proof.
  intros Hl. induction vals as [|v vals IH]; simpl; constructor; [|exact IH].
  rewrite default_void_loss. unfold is_void.
  destruct (Qeq_bool (loss v) VOID) eqn:E; [exact Hl|].
  apply not_true_iff_false in E. now rewrite Qeq_bool_iff in E.
Qed.

(** Whatever results are filtered for an optimizer that holds no VOID
    loss, none of the results left carries the VOID loss. *)
Lemma filter_void_losses_no_void (vals : list Trial) (o : Optimizer) :
  no_void (yi o) -> no_void (map loss (filter_void_losses vals o).1).
Proof.
  intros Hy. unfold filter_void_losses.
  destruct (Qeq_bool (void_loss o) VOID) eqn:Hv; [destruct (yi o) as [|y ys] eqn:E|].
  - cbn [fst]. induction vals as [|v vals IH]; simpl; [constructor|].
    unfold is_void at 1. destruct (Qeq_bool (loss v) VOID) eqn:El; simpl; [exact IH|].
    constructor; [|exact IH].
    apply not_true_iff_false in El. now rewrite Qeq_bool_iff in El.
  - cbn [fst]. apply default_void_no_void. cbn [void_loss set_void_loss].
    destruct (py_max_spec y ys) as [Hin _].
    unfold no_void in Hy. rewrite Forall_forall in Hy.
    apply Hy, list_elem_of_In, Hin.
  - cbn [fst]. apply default_void_no_void.
    apply not_true_iff_false in Hv. now rewrite Qeq_bool_iff in Hv.
Qed.

Lemma filter_void_losses_told (vals : list Trial) (o : Optimizer) :
  Xi (filter_void_losses vals o).2 = Xi o /\ yi (filter_void_losses vals o).2 = yi o.
Proof.
  unfold filter_void_losses.
  destruct (Qeq_bool (void_loss o) VOID); [destruct (yi o) eqn:E|]; split;
    first [reflexivity | symmetry; exact E | exact E].
Qed.

Section ToldFacts.

Context {SK : Type}.
Variable sk_ask : SK -> Point * SK.
Variable sk_ask_n : Z -> SK -> list Point * SK.
Variable sk_tell : list Point -> list Q -> bool -> SK -> SK.
Variable sk_update_next : SK -> SK.
Variable ask_points : option Z.

Local Abbreviation tell_results := (tell_results sk_tell).
Local Abbreviation point := (point sk_ask sk_ask_n ask_points).
Local Abbreviation ask_turn := (ask_turn sk_ask sk_ask_n sk_tell sk_update_next ask_points).
Local Abbreviation ask_loop := (ask_loop sk_ask sk_ask_n sk_tell sk_update_next ask_points).

Implicit Types (s : @AskState SK) (a : Point).

Lemma grown_by_nil s s' :
  batch_results s' = batch_results s -> Xi (a_opt s') = Xi (a_opt s) ->
  yi (a_opt s') = yi (a_opt s) -> grown_by [] s s'.
Proof. intros H1 H2 H3. unfold grown_by. simpl. now rewrite !app_nil_r. Qed.

Lemma grown_by_app added added' s s' s'' :
  grown_by added s s' -> grown_by added' s' s'' -> grown_by (added ++ added') s s''.
Proof.
  intros (H1 & H2 & H3) (H1' & H2' & H3'). unfold grown_by.
  rewrite H1', H2', H3', H1, H2, H3, !map_app, !app_assoc. repeat split.
Qed.

Lemma tell_results_grown vals s :
  exists added,
    grown_by added s (tell_results vals s)
    /\ (no_void (yi (a_opt s)) -> no_void (map loss added)).
Proof.
  unfold tell_results. destruct vals as [|v vals].
  - exists []. split; [apply grown_by_nil; reflexivity | constructor].
  - pose proof (filter_void_losses_told (v :: vals) (a_opt s)) as [HX Hy].
    pose proof (filter_void_losses_no_void (v :: vals) (a_opt s)) as Hnv.
    destruct (filter_void_losses (v :: vals) (a_opt s)) as [[|w ws] o];
      cbn [fst snd] in HX, Hy, Hnv.
    + exists []. split; [apply grown_by_nil; simpl; congruence | constructor].
    + exists (w :: ws). split; [|exact Hnv].
      unfold grown_by. cbn. rewrite HX, Hy. repeat split.
Qed.

Lemma point_told s :
  batch_results (point s).2 = batch_results s /\ a_opt (point s).2 = a_opt s.
Proof.
  unfold point. destruct ask_points as [n|].
  - destruct (to_ask s) as [|a rest] eqn:E.
    + destruct (sk_ask_n n (a_sk s)) as [[|a asked] sk]; split; reflexivity.
    + rewrite E. split; reflexivity.
  - destruct (sk_ask (a_sk s)); split; reflexivity.
Qed.

Lemma ask_turn_told vals s :
  batch_results (ask_turn vals s).2 = batch_results (tell_results vals s)
  /\ a_opt (ask_turn vals s).2 = a_opt (tell_results vals s).
Proof.
  unfold ask_turn.
  pose proof (point_told (tell_results vals s)) as [H1 H2].
  destruct (point (tell_results vals s)) as [[e|a] s2]; cbn [snd] in *;
    [split; assumption|].
  destruct (decide (a ∈ evald s2)); [|split; assumption].
  pose proof (point_told (update_next sk_update_next s2)) as [H3 H4].
  destruct (point (update_next sk_update_next s2)) as [[e'|a'] s3]; cbn [snd] in *.
  - split; [rewrite H3 | rewrite H4]; assumption.
  - destruct (decide (a' ∈ evald s3)); cbn [snd evald_add batch_results a_opt];
      split; first [rewrite H3 | rewrite H4]; assumption.
Qed.

Lemma ask_loop_grown tries r arrivals s :
  exists added,
    grown_by added s (ask_loop tries r arrivals s).2
    /\ (no_void (yi (a_opt s)) -> no_void (map loss added)).
Proof.
  revert r s. induction tries as [|tries IH]; intros r s; cbn [ask_loop].
  - exists []. split; [apply grown_by_nil; reflexivity | constructor].
  - destruct (tell_results_grown (arrivals r) s) as (added & Hg & Hnv).
    pose proof (ask_turn_told (arrivals r) s) as [Hb Ho].
    assert (Hg' : grown_by added s (ask_turn (arrivals r) s).2).
    { destruct Hg as (H1 & H2 & H3). unfold grown_by. rewrite Hb, Ho. auto. }
    destruct (ask_turn (arrivals r) s) as [[a| |e] s'] eqn:Ht; cbn [snd] in *;
      try (exists added; split; assumption).
    destruct (IH (S r) s') as (added' & Hg2 & Hnv2).
    destruct (ask_loop tries (S r) arrivals s') as [rest s'']. cbn [snd] in *.
    exists (added ++ added'). split; [eapply grown_by_app; eassumption|].
    intros Hy. rewrite map_app. apply Forall_app. split; [apply Hnv, Hy|].
    apply Hnv2. destruct Hg' as (_ & _ & ->).
    apply Forall_app. split; [exact Hy | apply Hnv, Hy].
Qed.

End ToldFacts.

(** X16. Over one call of [opt_ask_and_tell], the results added to
    [self.batch_results] are exactly the observations added to the
    optimizer, in the same order: their points extend [opt.Xi], their
    losses extend [opt.yi]. When the optimizer holds no VOID loss at the
    start, none is told to it and none is reported: a VOID result is
    either dropped or reported with the optimizer's sentinel as its
    loss. *)
Theorem told_is_reported (SK : Type) (sk_ask : SK -> Point * SK)
    (sk_ask_n : Z -> SK -> list Point * SK)
    (sk_tell : list Point -> list Q -> bool -> SK -> SK)
    (sk_update_next : SK -> SK) (ask_points : option Z)
    (tries : nat) (arrivals : nat -> list Trial) (o : Optimizer) (sk : SK)
    (results : list Trial) :
  exists added : list Trial,
    batch_results (opt_ask_and_tell sk_ask sk_ask_n sk_tell sk_update_next ask_points
                     tries arrivals o sk results).2
    = results ++ added
    /\ Xi (a_opt (opt_ask_and_tell sk_ask sk_ask_n sk_tell sk_update_next ask_points
                    tries arrivals o sk results).2)
       = Xi o ++ map params_Xi added
    /\ yi (a_opt (opt_ask_and_tell sk_ask sk_ask_n sk_tell sk_update_next ask_points
                    tries arrivals o sk results).2)
       = yi o ++ map loss added
    /\ (no_void (yi o) -> no_void (map loss added)).
Proof.
  unfold opt_ask_and_tell.
  destruct (ask_loop_grown sk_ask sk_ask_n sk_tell sk_update_next ask_points
              tries 0 arrivals
              {| a_opt := o; a_sk := sk; to_ask := []; evald := ∅;
                 batch_results := results |}) as (added & (H1 & H2 & H3) & Hnv).
  exists added. repeat split; assumption.
Qed.

Lemma told_is_reported_witness :
  no_void (yi (a_opt (opt_ask_and_tell (fun sk : unit => ([VInt 3], sk))
                        (fun _ sk => ([[VInt 3]], sk)) (fun _ _ _ sk => sk)
                        (fun sk => sk) None 2 mixed_arrivals (new_optimizer 1) tt
                        []).2)).
Proof.
  destruct (told_is_reported unit (fun sk : unit => ([VInt 3], sk))
              (fun _ sk => ([[VInt 3]], sk)) (fun _ _ _ sk => sk) (fun sk => sk)
              None 2 mixed_arrivals (new_optimizer 1) tt [])
    as (added & _ & _ & Hy & Hnv).
  rewrite Hy. apply Forall_app. split; [constructor | apply Hnv; constructor].
Defined.

(** * Fetching past points *)

Lemma get_past_point_spec (a : Point) (old : option Q) (t : SharedTable) :
  (a, (get_past_point a old t).1) = fetched t (a, old)
  /\ per_opt (get_past_point a old t).2 = per_opt t
  /\ forall p, points (get_past_point a old t).2 !! p = points t !! p ≫= kept [a] p.
Proof.
  unfold get_past_point, fetched. cbn [fst snd].
  destruct (points t !! a) as [[y counter]|] eqn:E; cbn [fst snd].
  - split; [reflexivity|].
    destruct (counter - 1 <? 1) eqn:Hc; cbn [per_opt points]; (split; [reflexivity|]);
      intros p; unfold kept.
    + destruct (decide (p = a)) as [->|Hne].
      * rewrite lookup_delete_eq, E. cbn.
        rewrite bool_decide_eq_true_2 by (apply list_elem_of_singleton; reflexivity).
        cbn. now rewrite Hc.
      * rewrite lookup_delete_ne by congruence.
        destruct (points t !! p) as [e|]; [|reflexivity]. cbn.
        rewrite bool_decide_eq_false_2; [reflexivity|].
        rewrite list_elem_of_singleton. exact Hne.
    + destruct (points t !! p) as [e|] eqn:Ep; [|reflexivity]. cbn.
      destruct (decide (p = a)) as [->|Hne].
      * rewrite E in Ep. injection Ep as <-. cbn. rewrite Hc.
        now rewrite andb_false_r.
      * rewrite bool_decide_eq_false_2; [reflexivity|].
        rewrite list_elem_of_singleton. exact Hne.
  - split; [reflexivity|]. split; [reflexivity|]. intros p. unfold kept.
    destruct (points t !! p) as [e|] eqn:Ep; [|reflexivity]. cbn.
    rewrite bool_decide_eq_false_2; [reflexivity|].
    rewrite list_elem_of_singleton. intros ->. congruence.
Qed.

Lemma opt_get_past_points_loop_spec (asked : list (Point * option Q))
    (t : SharedTable) :
  NoDup (map fst asked) ->
  (opt_get_past_points_loop asked t).1 = map (fetched t) asked
  /\ per_opt (opt_get_past_points_loop asked t).2 = per_opt t
  /\ forall p, points (opt_get_past_points_loop asked t).2 !! p
               = points t !! p ≫= kept (map fst asked) p.
Proof.
  revert t. induction asked as [|[a old] rest IH]; intros t Hnd;
    cbn [opt_get_past_points_loop].
  - split; [reflexivity|]. split; [reflexivity|]. intros p. cbn [fst snd map].
    destruct (points t !! p); reflexivity.
  - cbn [map fst] in Hnd. apply NoDup_cons in Hnd. destruct Hnd as [Ha Hnd].
    destruct (get_past_point_spec a old t) as (H1 & H2 & H3).
    destruct (get_past_point a old t) as [y t1]. cbn [fst snd] in H1, H2, H3.
    destruct (IH t1 Hnd) as (I1 & I2 & I3).
    destruct (opt_get_past_points_loop rest t1) as [rest' t2]. cbn [fst snd] in *.
    split; [|split].
    + cbn [map]. rewrite H1, I1. f_equal.
      apply map_ext_in. intros [b old'] Hin. unfold fetched. cbn [fst snd].
      rewrite H3. destruct (points t !! b) as [[yb cb]|]; [|reflexivity].
      cbn. unfold kept. rewrite bool_decide_eq_false_2; [reflexivity|].
      rewrite list_elem_of_singleton. intros ->. apply Ha.
      apply list_elem_of_In, in_map_iff. exists (a, old'). split; [reflexivity | exact Hin].
    + congruence.
    + intros p. rewrite I3, H3.
      destruct (points t !! p) as [e|]; [|reflexivity]. cbn. unfold kept.
      cbn [map fst].
      destruct (decide (p = a)) as [->|Hne].
      * rewrite (bool_decide_eq_true_2 (a ∈ [a])) by (apply list_elem_of_singleton; reflexivity).
        rewrite (bool_decide_eq_true_2 (a ∈ a :: map fst rest)) by (left).
        rewrite (bool_decide_eq_false_2 (a ∈ map fst rest)) by exact Ha.
        cbn. destruct (e.2 - 1 <? 1); reflexivity.
      * rewrite (bool_decide_eq_false_2 (p ∈ [a]))
          by (rewrite list_elem_of_singleton; exact Hne).
        cbn. destruct (decide (p ∈ map fst rest)) as [Hin|Hnin].
        -- rewrite !bool_decide_eq_true_2; [reflexivity | right; exact Hin | exact Hin].
        -- rewrite !bool_decide_eq_false_2; [reflexivity | | exact Hnin].
           rewrite elem_of_cons. tauto.
Qed.

(** X17. [opt_get_past_points] keeps the asked points and their order; under
    each one it puts the loss the table holds for it, or leaves what was
    there. An entry leaves the table exactly when its point is asked and
    its counter is 1 or less; every other entry stays with the counter
    it had, and the lists kept per optimizer are not touched. The number
    returned is the length of the table left. *)
Theorem opt_get_past_points_spec (is_shared : bool)
    (asked : list (Point * option Q)) (t : SharedTable) :
  NoDup (map fst asked) ->
  (opt_get_past_points is_shared asked t).1.1 = map (fetched t) asked
  /\ (opt_get_past_points is_shared asked t).1.2
     = table_len (opt_get_past_points is_shared asked t).2
  /\ per_opt (opt_get_past_points is_shared asked t).2 = per_opt t
  /\ forall p, points (opt_get_past_points is_shared asked t).2 !! p
               = points t !! p ≫= kept (map fst asked) p.
Proof.
  intros Hnd. unfold opt_get_past_points.
  destruct (opt_get_past_points_loop_spec asked t Hnd) as (H1 & H2 & H3).
  destruct (opt_get_past_points_loop asked t) as [asked' t']. cbn [fst snd] in *.
  repeat split; assumption.
Qed.

Lemma opt_get_past_points_spec_witness :
  (opt_get_past_points false [([VInt 1], None); ([VInt 3], None); ([VInt 2], None)]
     two_entries).1.1
  = [([VInt 1], Some 5%Q); ([VInt 3], None); ([VInt 2], Some 7%Q)]
  /\ points (opt_get_past_points false
               [([VInt 1], None); ([VInt 3], None); ([VInt 2], None)]
               two_entries).2 !! [VInt 1] = None
  /\ points (opt_get_past_points false
               [([VInt 1], None); ([VInt 3], None); ([VInt 2], None)]
               two_entries).2 !! [VInt 2] = Some (7%Q, 2).
Proof.
  destruct (opt_get_past_points_spec false
              [([VInt 1], None); ([VInt 3], None); ([VInt 2], None)] two_entries)
    as (H1 & _ & _ & H3).
  - apply (bool_decide_unpack (NoDup _)). vm_compute. exact I.
  - rewrite H1, !H3. repeat split.
Defined.

(** * Publishing results *)

Lemma publish_lookup (l : list Trial) (c : Z) (m : gmap Point (Q * Z)) (p : Point) :
  fold_left (fun m v => <[params_Xi v := (loss v, c)]> m) l m !! p
  = published_at p l c m.
Proof.
  revert m. induction l as [|v l IH]; intros m; [reflexivity|].
  cbn [fold_left]. rewrite IH. unfold published_at, results_at. cbn [List.filter].
  destruct (decide (params_Xi v = p)) as [E|E].
  - rewrite bool_decide_eq_true_2 by exact E. rewrite last_cons.
    destruct (last _); [reflexivity|]. rewrite E. apply lookup_insert_eq.
  - rewrite bool_decide_eq_false_2 by exact E.
    destruct (last _); [reflexivity|]. apply lookup_insert_ne. exact E.
Qed.

Lemma flag_initial_lookup (initial_points r n : Z) (l : list Trial) (k : nat) :
  flag_initial initial_points r n l !! k
  = set_worker r (0 <? initial_points - (n + Z.of_nat k)) <$> l !! k.
Proof.
  revert n k. induction l as [|v l IH]; intros n k; [reflexivity|].
  cbn [flag_initial]. destruct k as [|k].
  - cbn. now rewrite Z.add_0_r.
  - cbn [lookup list_lookup]. change (flag_initial initial_points r (n + 1) l !! k
      = set_worker r (0 <? initial_points - (n + Z.of_nat (S k))) <$> l !! k).
    rewrite IH. do 3 f_equal. lia.
Qed.

Lemma opt_results_returns (o : Optimizer) (initial_points jobs : Z)
    (void_filtered : list Trial) (is_shared : bool) (b : Backend)
    (X : list Point) (y : list Q) :
  void_filtered ≠ [] \/ ~ (void_loss o == VOID)%Q ->
  per_opt (b_results_shared b) !! rs o = Some (X, y) ->
  opt_results o initial_points void_filtered jobs is_shared b
  = (None,
     {| b_optimizers := requeued o is_shared b;
        b_results_shared :=
          {| points := fold_left (fun m v => <[params_Xi v := (loss v, jobs - 1)]> m)
                         void_filtered (points (b_results_shared b));
             per_opt := <[rs o := (X ++ map params_Xi void_filtered,
                                   y ++ map loss void_filtered)]>
                          (per_opt (b_results_shared b)) |};
        b_results_batch :=
          b_results_batch b ++ [flag_initial initial_points (rs o) 0 void_filtered] |}).
Proof.
  intros Hpub Hkey. unfold opt_results, requeued.
  assert (Hv : negb (negb (Qeq_bool (void_loss o) VOID)
                     || bool_decide (0 < length void_filtered)%nat) = false).
  { apply negb_false_iff, orb_true_iff. destruct Hpub as [Hne | Hset].
    - right. apply bool_decide_eq_true_2. destruct void_filtered; [contradiction|].
      simpl. lia.
    - left. apply negb_true_iff, not_true_iff_false.
      now rewrite Qeq_bool_iff. }
  rewrite Hv, Hkey. reflexivity.
Qed.

(** X18. With results to publish (or a sentinel already set) and the
    optimizer's key in the table, [opt_results] returns; every result is
    in the table under its point with the counter [jobs - 1], the loss
    being that of the last result for the point; the other entries
    stay; the lists kept under the optimizer's key are extended by the
    points and the losses; one list goes to the batch queue, whose
    results carry the optimizer's random state and are flagged initial
    for the first [initial_points] positions. *)
Theorem opt_results_publishes (o : Optimizer) (initial_points jobs : Z)
    (void_filtered : list Trial) (is_shared : bool) (b : Backend)
    (X : list Point) (y : list Q) :
  void_filtered ≠ [] \/ ~ (void_loss o == VOID)%Q ->
  per_opt (b_results_shared b) !! rs o = Some (X, y) ->
  exists batch,
    opt_results o initial_points void_filtered jobs is_shared b
    = (None,
       {| b_optimizers := requeued o is_shared b;
          b_results_shared :=
            {| points := fold_left (fun m v => <[params_Xi v := (loss v, jobs - 1)]> m)
                           void_filtered (points (b_results_shared b));
               per_opt := <[rs o := (X ++ map params_Xi void_filtered,
                                     y ++ map loss void_filtered)]>
                            (per_opt (b_results_shared b)) |};
          b_results_batch := b_results_batch b ++ [batch] |})
    /\ (forall p,
          fold_left (fun m v => <[params_Xi v := (loss v, jobs - 1)]> m)
            void_filtered (points (b_results_shared b)) !! p
          = published_at p void_filtered (jobs - 1) (points (b_results_shared b)))
    /\ length batch = length void_filtered
    /\ (forall (k : nat) (v : Trial),
          void_filtered !! k = Some v ->
          batch !! k = Some (set_worker (rs o) (Z.of_nat k <? initial_points) v)).
Proof.
  intros Hpub Hkey.
  exists (flag_initial initial_points (rs o) 0 void_filtered).
  split; [|split; [|split]].
  - apply opt_results_returns; assumption.
  - intros p. apply publish_lookup.
  - clear. generalize 0. induction void_filtered as [|v l IH]; intros n; simpl;
      [reflexivity | now rewrite IH].
  - intros k v Hk. rewrite flag_initial_lookup, Hk. cbn. do 2 f_equal.
    destruct (Z.ltb_spec 0 (initial_points - (0 + Z.of_nat k)));
      destruct (Z.ltb_spec (Z.of_nat k) initial_points); try reflexivity; lia.
Qed.

(** X19. Two edge cases of [opt_results]. With nothing to publish and no
    sentinel set, nothing reaches the table nor the batch queue: not
    even an empty list. With results but without the optimizer's key in
    the table, [KeyError] is raised after the table has received the
    points and the queue the optimizer: the results never reach the
    batch queue. *)
Theorem opt_results_edges (o : Optimizer) (initial_points jobs : Z)
    (void_filtered : list Trial) (is_shared : bool) (b : Backend) :
  ((void_loss o == VOID)%Q ->
     opt_results o initial_points [] jobs is_shared b
     = (None,
        {| b_optimizers := requeued o is_shared b;
           b_results_shared := b_results_shared b;
           b_results_batch := b_results_batch b |}))
  /\ (void_filtered ≠ [] ->
      per_opt (b_results_shared b) !! rs o = None ->
      (opt_results o initial_points void_filtered jobs is_shared b).1 = Some KeyError
      /\ b_results_batch
           (opt_results o initial_points void_filtered jobs is_shared b).2
         = b_results_batch b
      /\ b_optimizers
           (opt_results o initial_points void_filtered jobs is_shared b).2
         = requeued o is_shared b
      /\ forall v, v ∈ void_filtered ->
           is_Some (points (b_results_shared
                              (opt_results o initial_points void_filtered jobs
                                 is_shared b).2) !! params_Xi v)).
Proof.
  split.
  - intros Hv. apply Qeq_bool_iff in Hv. unfold opt_results, requeued.
    rewrite Hv. reflexivity.
  - intros Hne Hkey. unfold opt_results, requeued.
    replace (bool_decide (0 < length void_filtered)%nat) with true.
    2:{ symmetry. apply bool_decide_eq_true_2. destruct void_filtered; [contradiction|].
        simpl. lia. }
    rewrite orb_true_r. cbn [negb]. rewrite Hkey. cbn [fst snd b_results_batch
      b_optimizers b_results_shared points].
    repeat split. intros v Hin. rewrite publish_lookup. unfold published_at.
    destruct (last (results_at (params_Xi v) void_filtered)) eqn:E; [eauto|].
    exfalso. apply last_None in E.
    assert (Hin' : In v (results_at (params_Xi v) void_filtered)).
    { apply filter_In. split; [apply list_elem_of_In, Hin|].
      apply bool_decide_eq_true_2. reflexivity. }
    rewrite E in Hin'. exact Hin'.
Qed.

(** X20. A result published by one worker is found by the next fetch of its
    point, whatever was under the point before: the fetch gives the loss
    of the last result published for the point. The fetch removes the
    entry when there are at most two workers; with more, the entry stays
    with its counter. *)
Theorem published_then_fetched (o : Optimizer) (initial_points jobs : Z)
    (void_filtered : list Trial) (is_shared : bool) (b : Backend)
    (X : list Point) (y : list Q) (p : Point) (w : Trial) (old : option Q) :
  per_opt (b_results_shared b) !! rs o = Some (X, y) ->
  last (results_at p void_filtered) = Some w ->
  (opt_get_past_points is_shared [(p, old)]
     (b_results_shared
        (opt_results o initial_points void_filtered jobs is_shared b).2)).1.1
  = [(p, Some (loss w))]
  /\ points (opt_get_past_points is_shared [(p, old)]
               (b_results_shared
                  (opt_results o initial_points void_filtered jobs is_shared b).2)).2
       !! p
     = if jobs <=? 2 then None else Some (loss w, jobs - 1).
Proof.
  intros Hkey Hlast.
  assert (Hne : void_filtered ≠ []).
  { intros ->. discriminate Hlast. }
  rewrite (opt_results_returns o initial_points jobs void_filtered is_shared b X y)
    by (left; exact Hne) || exact Hkey.
  cbn [snd b_results_shared]. unfold opt_get_past_points.
  match goal with |- context [opt_get_past_points_loop ?a ?t] =>
    destruct (opt_get_past_points_loop_spec a t) as (H1 & _ & H3);
      [repeat constructor; apply not_elem_of_nil|];
      destruct (opt_get_past_points_loop a t) as [asked' t']
  end.
  cbn [fst snd] in *. rewrite H1, H3. cbn [map points].
  unfold fetched. cbn [fst snd points].
  rewrite publish_lookup. unfold published_at. rewrite Hlast. cbn.
  split; [reflexivity|]. unfold kept. cbn [snd].
  rewrite bool_decide_eq_true_2 by (apply list_elem_of_singleton; reflexivity). cbn.
  destruct (Z.ltb_spec (jobs - 1 - 1) 1); destruct (Z.leb_spec jobs 2);
    try reflexivity; lia.
Qed.

Lemma opt_results_publishes_witness :
  b_results_batch
    (opt_results (new_optimizer 5) 1
       [worker_result] 2 false one_result_backend).2
  = [[set_worker 5 true worker_result]].
Proof.
  destruct (opt_results_publishes (new_optimizer 5) 1 2
              [worker_result] false one_result_backend [] [])
    as (batch & Hres & _ & Hlen & Hbatch).
  - left. discriminate.
  - reflexivity.
  - rewrite Hres. cbn [snd b_results_batch one_result_backend app].
    specialize (Hbatch 0%nat _ eq_refl).
    destruct batch as [|v [|v' batch]]; [discriminate | | discriminate].
    injection Hbatch as ->. reflexivity.
Defined.

Lemma opt_results_edges_witness :
  (opt_results (new_optimizer 6) 1
     [worker_result] 2 false one_result_backend).1 = Some KeyError.
Proof.
  destruct (opt_results_edges (new_optimizer 6) 1 2
              [worker_result] false one_result_backend) as [_ H].
  destruct H as (He & _); [discriminate | reflexivity | exact He].
Defined.

Lemma published_then_fetched_witness :
  (opt_get_past_points false [([VInt 3], None)]
     (b_results_shared
        (opt_results (new_optimizer 5) 1
           [worker_result] 2 false one_result_backend).2)).1.1
  = [([VInt 3], Some 1%Q)].
Proof.
  apply (published_then_fetched (new_optimizer 5) 1 2
           [worker_result] false one_result_backend [] [] [VInt 3]
           worker_result None).
  - reflexivity.
  - reflexivity.
Defined.

(** * Restoring the optimizers *)

Lemma load_previous_optimizers_last (h : Hyperopt) :
  last (default [] (opts_file h)) ≠ Some PForeign ->
  load_previous_optimizers h = (h, inr (default [] (opts_file h))).
Proof.
  intros Hl. unfold load_previous_optimizers. rewrite run_bind. cbn [get].
  destruct (last (default [] (opts_file h))) as [[o|]|]; try reflexivity.
  contradiction.
Qed.

(** X21. A file of optimizers whose last object is not an optimizer is
    refused before anything is touched, in both modes:
    [setup_optimizers] raises [OperationalException] and the object is
    as it was. Only the last object is looked at: a file that ends with
    an optimizer is loaded whole, whatever the objects before it. *)
Theorem setup_optimizers_corrupted_file (randint : nat -> Z) (h : Hyperopt) :
  (last (default [] (opts_file h)) = Some PForeign ->
     setup_optimizers randint h = (h, inl OperationalException))
  /\ (forall (before : list pickled) (o : Optimizer),
        opts_file h = Some (before ++ [POpt o]) ->
        load_previous_optimizers h = (h, inr (before ++ [POpt o]))).
Proof.
  split.
  - intros Hl. unfold setup_optimizers. rewrite run_bind.
    unfold load_previous_optimizers. rewrite run_bind. cbn [get]. rewrite Hl.
    reflexivity.
  - intros before o Hf. rewrite load_previous_optimizers_last.
    + rewrite Hf. reflexivity.
    + rewrite Hf. cbn [from_option id]. rewrite last_snoc. discriminate.
Qed.

Lemma setup_optimizers_single_returns (randint : nat -> Z) (h : Hyperopt) :
  multi h = false ->
  trials h = [] ->
  last (default [] (opts_file h)) ≠ Some PForeign ->
  setup_optimizers randint h
  = (set_tracking [] [] (rngs h) (results_shared h)
       (set_opts (Some (opt_clear (single_start h))) (optimizers h) (opts_file h) h),
     inr tt).
Proof.
  intros Hm Ht Hl. unfold setup_optimizers.
  rewrite run_bind, load_previous_optimizers_last by exact Hl.
  rewrite run_bind. cbn [get]. rewrite Hm.
  unfold setup_optimizers_single. rewrite run_bind. cbn [get].
  fold (single_start h).
  rewrite run_bind. cbn [modify]. rewrite run_bind. cbn [modify].
  rewrite run_bind, track_points_no_trials by exact Ht.
  rewrite run_bind. cbn [get]. cbn [self_Xi set_tracking].
  rewrite get_set_eq. reflexivity.
Qed.

(** X22. In single mode, as [start] calls it (no trial in memory),
    [setup_optimizers] returns with [self.opt] the last optimizer of the
    file, or a new one with the random state of the run when the file
    holds none, cleared of its points in both cases; [self.Xi] and
    [self.yi] are left empty and the queue is not used. *)
Theorem setup_optimizers_single_start (randint : nat -> Z) (h : Hyperopt) :
  multi h = false ->
  trials h = [] ->
  last (default [] (opts_file h)) ≠ Some PForeign ->
  (setup_optimizers randint h).2 = inr tt
  /\ opt (setup_optimizers randint h).1 = Some (opt_clear (single_start h))
  /\ self_Xi (setup_optimizers randint h).1 = []
  /\ self_yi (setup_optimizers randint h).1 = []
  /\ optimizers (setup_optimizers randint h).1 = optimizers h
  /\ (opts_file h = None \/ opts_file h = Some [] ->
      opt (setup_optimizers randint h).1
      = Some (new_optimizer (self_random_state h)))
  /\ (forall before o, opts_file h = Some (before ++ [POpt o]) ->
      opt (setup_optimizers randint h).1 = Some (opt_clear o)).
Proof.
  intros Hm Ht Hl. rewrite setup_optimizers_single_returns by assumption.
  cbn [fst snd opt self_Xi self_yi optimizers set_tracking set_opts].
  repeat split.
  - intros [Hf | Hf]; unfold single_start; rewrite Hf; reflexivity.
  - intros before o Hf. unfold single_start. rewrite Hf. cbn [from_option id].
    rewrite last_snoc. reflexivity.
Qed.

(** X23. In single mode with trials in memory and no list under the random
    state in [self.yi] (as [setup_multi] leaves it), the points are not
    restored: [setup_optimizers] raises [KeyError], or [ValueError] when
    [hyperopt_continue_filtered] is set. *)
Theorem setup_optimizers_single_resume (randint : nat -> Z) (h : Hyperopt) :
  multi h = false ->
  trials h ≠ [] ->
  self_yi h = [] ->
  last (default [] (opts_file h)) ≠ Some PForeign ->
  (setup_optimizers randint h).2
  = inl (if hyperopt_continue_filtered h then ValueError else KeyError).
Proof.
  intros Hm Ht Hy Hl. unfold setup_optimizers.
  rewrite run_bind, load_previous_optimizers_last by exact Hl.
  rewrite run_bind. cbn [get]. rewrite Hm.
  unfold setup_optimizers_single. rewrite run_bind. cbn [get].
  rewrite run_bind. cbn [modify]. rewrite run_bind. cbn [modify].
  rewrite run_bind.
  match goal with |- context [track_points [] ?h1] =>
    assert (Hres : (track_points [] h1).2
                   = inl (if hyperopt_continue_filtered h then ValueError else KeyError))
  end.
  { unfold track_points. rewrite run_bind. cbn [get]. cbn [trials set_tracking set_opts
      hyperopt_continue_filtered].
    destruct (trials h) as [|v ts]; [contradiction|].
    cbn [length]. replace (0 <? Z.of_nat (S (length ts))) with true
      by (symmetry; apply Z.ltb_lt; lia).
    destruct (hyperopt_continue_filtered h); [reflexivity|].
    cbn [for_each]. rewrite run_bind. unfold track_one at 1. rewrite run_bind.
    cbn [get]. cbn [self_Xi self_yi set_tracking set_opts].
    destruct (PyDict.get (random_state v) _); [|reflexivity].
    rewrite run_bind. cbn [modify]. rewrite Hy. reflexivity. }
  destruct (track_points [] _) as [h2 [e|a]]; cbn [snd] in Hres; [|discriminate Hres].
  cbn [snd]. congruence.
Qed.

(** X24. What [save_opts] writes, [setup_optimizers] restores. In multi mode
    a later object with the same settings, no trial in memory and an
    empty queue gets back the queue saved, cleared, with its random
    states and sentinels; in single mode it gets back the optimizer
    saved, cleared. *)
Theorem save_opts_then_setup (randint : nat -> Z) (h later : Hyperopt) :
  trials later = [] ->
  opts_file later = opts_file (save_opts h).1 ->
  multi later = multi h ->
  (multi h = true ->
     optimizers later = [] -> self_Xi later = [] ->
     Z.of_nat (length (optimizers h)) = (if shared later then 1 else n_jobs later) ->
     (setup_optimizers randint later).2 = inr tt
     /\ optimizers (setup_optimizers randint later).1 = map opt_clear (optimizers h))
  /\ (forall o, multi h = false -> opt h = Some o ->
        (setup_optimizers randint later).2 = inr tt
        /\ opt (setup_optimizers randint later).1 = Some (opt_clear o)).
Proof.
  intros Ht Hf Hm. split.
  - intros Hmulti Hq HX Hlen.
    assert (Hfile : opts_file later = Some (map POpt (map opt_clear (optimizers h)))).
    { rewrite Hf. unfold save_opts. rewrite run_bind. cbn [get]. rewrite Hmulti.
      reflexivity. }
    assert (Hall : all_optimizers (map POpt (map opt_clear (optimizers h)))).
    { apply Forall_forall. intros p Hp. apply list_elem_of_fmap in Hp.
      destruct Hp as (o & -> & _). discriminate. }
    assert (Hres : restored_of (map POpt (map opt_clear (optimizers h)))
                   = map opt_clear (optimizers h)).
    { generalize (map opt_clear (optimizers h)). intros l.
      induction l as [|o l IH]; simpl; [reflexivity | now rewrite IH]. }
    unfold setup_optimizers.
    rewrite run_bind, load_previous_optimizers_returns
      by (rewrite Hfile; exact Hall).
    rewrite Hfile. cbn [from_option id]. rewrite run_bind. cbn [get]. rewrite Hm, Hmulti.
    destruct (setup_optimizers_multi_returns randint later
                (map POpt (map opt_clear (optimizers h))) Hall Ht Hq HX)
      as (Hr & Heq & _).
    split; [exact Hr|]. rewrite Heq.
    + rewrite Hres. rewrite map_map. apply map_ext. intros o. reflexivity.
    + rewrite !length_map. exact Hlen.
  - intros o Hsingle Ho.
    assert (Hfile : opts_file later = Some [POpt (opt_clear o)]).
    { rewrite Hf. unfold save_opts. rewrite run_bind. cbn [get]. rewrite Hsingle, Ho.
      reflexivity. }
    rewrite setup_optimizers_single_returns.
    + cbn [fst snd opt set_tracking set_opts]. split; [reflexivity|].
      unfold single_start. rewrite Hfile. reflexivity.
    + congruence.
    + exact Ht.
    + rewrite Hfile. discriminate.
Qed.

Lemma setup_optimizers_corrupted_file_witness :
  setup_optimizers (fun k => Z.of_nat k) corrupted_run
  = (corrupted_run, inl OperationalException).
Proof.
  destruct (setup_optimizers_corrupted_file (fun k => Z.of_nat k) corrupted_run)
    as [H _].
  apply H. reflexivity.
Defined.

Lemma setup_optimizers_single_start_witness :
  opt (setup_optimizers (fun k => Z.of_nat k) fresh_run).1 = Some (new_optimizer 1).
Proof.
  destruct (setup_optimizers_single_start (fun k => Z.of_nat k) fresh_run)
    as (_ & _ & _ & _ & _ & H & _).
  - reflexivity.
  - reflexivity.
  - discriminate.
  - apply H. left. reflexivity.
Defined.

Lemma setup_optimizers_single_resume_witness :
  (setup_optimizers (fun k => Z.of_nat k) trial_in_memory).2 = inl KeyError.
Proof.
  apply (setup_optimizers_single_resume (fun k => Z.of_nat k) trial_in_memory).
  - reflexivity.
  - discriminate.
  - reflexivity.
  - discriminate.
Defined.

Lemma save_opts_then_setup_witness :
  opt (setup_optimizers (fun k => Z.of_nat k)
         (set_opts None [] (opts_file (save_opts told_run).1) fresh_run)).1
  = Some (new_optimizer 7).
Proof.
  destruct (save_opts_then_setup (fun k => Z.of_nat k) told_run
              (set_opts None [] (opts_file (save_opts told_run).1) fresh_run))
    as [_ H].
  - reflexivity.
  - reflexivity.
  - reflexivity.
  - destruct (H {| Xi := [[VInt 3]]; yi := [1 # 2]; void_loss := VOID;
                   void := VoidFalse; rs := 7 |}) as [_ Ho].
    + reflexivity.
    + reflexivity.
    + exact Ho.
Defined.

(** * The start of a run *)

(** X25. On an object without trials in memory, as [__init__] leaves it, the
    start of a run never resumes the best state: whatever the results
    file holds, even epochs flagged best, [setup_epochs] returns [False]
    and the best loss, the best epoch and the average stay as they
    were. The results loaded go to [self.epochs]; [setup_epochs] reads
    [self.trials]. *)
Theorem start_never_resumes (file : option (list saved_epoch)) (h : Hyperopt) :
  trials h = [] ->
  (start_resume file h).2 ≠ inr true
  /\ budget (start_resume file h).1 = budget h
  /\ trials (start_resume file h).1 = []
  /\ (forall es, load_previous_results file = inr es ->
        start_resume file h = (set_epochs (map saved_trial es) h, inr false)).
Proof.
  intros Ht. unfold start_resume.
  destruct (load_previous_results file) as [e|es].
  - cbn. repeat split; [discriminate | exact Ht | discriminate].
  - rewrite run_bind. cbn [modify]. unfold setup_epochs. rewrite run_bind.
    cbn [get]. cbn [trials set_epochs]. rewrite Ht. cbn.
    repeat split; [discriminate | exact Ht |]. intros es' [= <-]. reflexivity.
Qed.

Lemma start_never_resumes_witness :
  start_resume (Some [WithBest (set_scored true 1 (valid_result 1 5))]) fresh_run
  = (set_epochs [set_scored true 1 (valid_result 1 5)] fresh_run, inr false).
Proof.
  destruct (start_never_resumes
              (Some [WithBest (set_scored true 1 (valid_result 1 5))]) fresh_run)
    as (_ & _ & _ & H).
  - reflexivity.
  - apply (H [WithBest (set_scored true 1 (valid_result 1 5))]). reflexivity.
Defined.

(** * Points read back from results *)

Section PyDictKeys.

Context {K : Type} `{EqDecision K} {A : Type}.
Implicit Types (d : PyDict.t K A) (k : K) (a : A) (items : list (K * A)).

Lemma keys_set_NoDup k a d :
  NoDup (PyDict.keys d) -> NoDup (PyDict.keys (PyDict.set k a d)).
Proof.
  unfold PyDict.keys. induction d as [|[k' a'] d IH]; intros Hnd; simpl.
  - apply NoDup_singleton.
  - apply NoDup_cons in Hnd. destruct Hnd as [Hk' Hnd].
    destruct (decide (k = k')) as [->|Hne]; simpl.
    + apply NoDup_cons. split; assumption.
    + apply NoDup_cons. split; [|apply IH, Hnd].
      intros Hin. apply (keys_set k a d k') in Hin.
      destruct Hin as [-> | Hin]; [contradiction | apply Hk', Hin].
Qed.

Lemma keys_update_NoDup items d :
  NoDup (PyDict.keys d) -> NoDup (PyDict.keys (PyDict.update items d)).
Proof.
  unfold PyDict.update. revert d. induction items as [|[k a] items IH];
    intros d Hnd; simpl; [exact Hnd|].
  apply IH, keys_set_NoDup, Hnd.
Qed.

End PyDictKeys.

(** X26. When two dimensions carry the same name, the dictionary of
    [_get_params_dict] has fewer entries than the point has
    coordinates, so that [params_Xi] of a result built on it gives back
    a shorter point than the one evaluated. *)
Theorem duplicate_names_shorten_point (dimensions : list Dimension)
    (raw_params : list value) :
  length raw_params = length dimensions ->
  ~ NoDup (map dim_name dimensions) ->
  exists d : PyDict.t string value,
    _get_params_dict dimensions raw_params = inr d
    /\ NoDup (PyDict.keys d)
    /\ forall v : Trial,
         params_dict v = d -> (length (params_Xi v) < length raw_params)%nat.
Proof.
  intros Hlen Hdup. unfold _get_params_dict.
  rewrite decide_False by (intros Hne; apply Hne, Hlen).
  eexists. split; [reflexivity|].
  set (items := zip (map dim_name dimensions) raw_params).
  assert (Hfst : map fst items = map dim_name dimensions).
  { change (map fst ?l) with (fst <$> l). apply fst_zip. rewrite length_map. lia. }
  assert (Hnd : NoDup (PyDict.keys (PyDict.of_items items))).
  { apply keys_update_NoDup. constructor. }
  split; [exact Hnd|].
  intros v Hv. unfold params_Xi, PyDict.values. rewrite Hv, length_map.
  assert (Hsub : PyDict.keys (PyDict.of_items items) ⊆+ map dim_name dimensions).
  { apply NoDup_submseteq; [exact Hnd|]. intros k Hk.
    unfold PyDict.of_items in Hk. apply keys_update in Hk.
    rewrite Hfst in Hk. destruct Hk as [Hk | Hk]; [exact Hk|].
    unfold PyDict.keys in Hk. simpl in Hk. inversion Hk. }
  pose proof (submseteq_length _ _ Hsub) as Hle.
  unfold PyDict.keys in Hle, Hsub, Hnd. rewrite !length_map in Hle.
  destruct (decide (length (PyDict.of_items items) = length dimensions)) as [Heq|Hne];
    [|lia].
  exfalso. apply Hdup.
  assert (Hperm : map fst (PyDict.of_items items) ≡ₚ map dim_name dimensions).
  { apply submseteq_length_Permutation; [exact Hsub|]. rewrite !length_map. lia. }
  rewrite <- Hperm. exact Hnd.
Qed.

Lemma duplicate_names_shorten_point_witness :
  exists d : PyDict.t string value,
    _get_params_dict [Integer "x" 0 5; Integer "x" 0 9] [VInt 1; VInt 2] = inr d
    /\ NoDup (PyDict.keys d).
Proof.
  destruct (duplicate_names_shorten_point [Integer "x" 0 5; Integer "x" 0 9]
              [VInt 1; VInt 2]) as (d & Hd & Hnd & _).
  - reflexivity.
  - intros Hnd. apply NoDup_cons in Hnd. destruct Hnd as [Hx _].
    apply Hx. left.
  - exists d. split; assumption.
Defined.

(** * Spaces *)

Lemma has_space_iff (spaces : list string) (space : string) :
  has_space spaces space = true
  <-> space ∈ spaces \/ "all"%string ∈ spaces
      \/ (space ≠ "trailing"%string /\ "default"%string ∈ spaces).
Proof.
  unfold has_space. destruct (decide (space = "trailing"%string)) as [E|E].
  - rewrite bool_decide_eq_true_2 by exact E. cbn [existsb].
    rewrite orb_false_r, !orb_true_iff, !bool_decide_eq_true. split; [tauto|].
    intros [H | [H | [H _]]]; [tauto | tauto | contradiction].
  - rewrite bool_decide_eq_false_2 by exact E. cbn [existsb].
    rewrite orb_false_r, !orb_true_iff, !bool_decide_eq_true. tauto.
Qed.

(** X28. Called without argument, [hyperopt_space] gives the dimensions of
    the spaces that [has_space] accepts, one space after the other in
    the order buy, sell, roi, stoploss, trailing; each part is what the
    call with the name of the space gives, which does not depend on the
    configuration. A space is accepted when it is configured, when [all]
    is configured or, except for the trailing space, when [default]
    is. *)
Theorem hyperopt_space_spec (custom : CustomHyperopt) (spaces : list string) :
  hyperopt_space custom spaces None
  = flat_map (fun name => if has_space spaces name
                          then hyperopt_space custom [] (Some name) else [])
             space_names
  /\ (forall name other,
        hyperopt_space custom spaces (Some name)
        = hyperopt_space custom other (Some name))
  /\ (forall name, name ∉ space_names -> hyperopt_space custom spaces (Some name) = [])
  /\ (forall space,
        has_space spaces space = true
        <-> space ∈ spaces \/ "all"%string ∈ spaces
            \/ (space ≠ "trailing"%string /\ "default"%string ∈ spaces)).
Proof.
  split; [|split; [|split]].
  - unfold hyperopt_space, space_names. cbn [flat_map].
    repeat (rewrite ?bool_decide_eq_true_2 by reflexivity;
            rewrite ?bool_decide_eq_false_2 by discriminate).
    cbn [app]. rewrite !app_nil_r.
    destruct (has_space spaces "buy"), (has_space spaces "sell"),
      (has_space spaces "roi"), (has_space spaces "stoploss"),
      (has_space spaces "trailing"); cbn [app]; rewrite ?app_nil_r; reflexivity.
  - intros name other. reflexivity.
  - intros name Hn. unfold hyperopt_space.
    unfold space_names in Hn. rewrite !not_elem_of_cons in Hn.
    destruct Hn as (H1 & H2 & H3 & H4 & H5 & _).
    rewrite !bool_decide_eq_false_2 by assumption. reflexivity.
  - apply has_space_iff.
Qed.

Lemma hyperopt_space_spec_witness :
  hyperopt_space one_each ["default"%string] None
  = [Integer "rsi" 0 50; Integer "sell-rsi" 50 100; Real "roi" 0 1;
     Real "stoploss" (-1) 0].
Proof.
  destruct (hyperopt_space_spec one_each ["default"%string]) as [H _].
  rewrite H. reflexivity.
Defined.
